(** * Resume retrieval service (qa-bot-ts): retrieval pipeline, hybrid
    score fusion, LLM re-ranking, conversational filter and chat memory.

    The development is a shallow embedding of the TypeScript sources:
    every definition below is the translation of the source function whose
    name it carries.  Conventions of the embedding:

    - a JavaScript [number] holding a score is an exact rational ([Q]);
      counts and capacities are [nat];
    - a JavaScript string is a [string] of ASCII characters;
    - a call that may throw returns an [outcome];
    - what the outer world answers (the document store, the chat model) is an
      explicit argument of the function that asks for it. *)

From Stdlib Require Import Ascii String QArith Qminmax Lqa Lia.
From stdpp Require Import base option list sorting strings gmap.

Close Scope Q_scope.
Local Open Scope string_scope.
Local Open Scope list_scope.

(** ** Calls that may throw *)

Inductive outcome (A : Type) : Type :=
| Ok (a : A)
| Throw (msg : string).

Arguments Ok {A} a.
Arguments Throw {A} msg.

Definition outcome_bind {A B : Type} (m : outcome A) (k : A -> outcome B) : outcome B :=
  match m with
  | Ok a => k a
  | Throw msg => Throw msg
  end.

(** [try { m } catch (error) { throw new Error(prefix + error.message) }] *)
Definition rethrow {A : Type} (prefix : string) (m : outcome A) : outcome A :=
  match m with
  | Ok a => Ok a
  | Throw msg => Throw (prefix +:+ msg)
  end.

Notation "'let*' x ':=' m 'in' k" := (outcome_bind m (fun x => k))
  (at level 10, x name, m at level 100, k at level 200).

(** ** The JavaScript runtime: strings and arrays *)

Module JS.

(** *** Strings *)

Definition toLowerChar (c : ascii) : ascii :=
  let n := nat_of_ascii c in
  if ((65 <=? n) && (n <=? 90))%nat then ascii_of_nat (n + 32) else c.

Fixpoint toLowerCase (s : string) : string :=
  match s with
  | EmptyString => EmptyString
  | String c s' => String (toLowerChar c) (toLowerCase s')
  end.

(** [s.startsWith(sub)] *)
Fixpoint startsWith (sub s : string) : bool :=
  match sub, s with
  | EmptyString, _ => true
  | String a sub', String b s' => if Ascii.eqb a b then startsWith sub' s' else false
  | String _ _, EmptyString => false
  end.

(** [s.indexOf(sub)]; [None] stands for [-1]. *)
Fixpoint indexOf (sub s : string) : option nat :=
  if startsWith sub s then Some 0%nat
  else match s with
       | EmptyString => None
       | String _ s' => S <$> indexOf sub s'
       end.

(** [s.includes(sub)] *)
Definition includes (sub s : string) : bool :=
  match indexOf sub s with Some _ => true | None => false end.

(** [s.substring(start, end)] for [start <= end]. *)
Definition substring (start end_ : nat) (s : string) : string :=
  String.substring start (end_ - start) s.

(** White space of [\s] and [trim] within ASCII: tab, line feed, vertical
    tab, form feed, carriage return, space. *)
Definition isWhiteSpace (c : ascii) : bool :=
  let n := nat_of_ascii c in
  (((9 <=? n) && (n <=? 13)) || (n =? 32))%nat.

Fixpoint trimStart (s : string) : string :=
  match s with
  | EmptyString => EmptyString
  | String c s' => if isWhiteSpace c then trimStart s' else s
  end.

(** [trimEnd] keeps a character when it is no white space or when something
    that is kept follows it. *)
Fixpoint trimEnd (s : string) : string :=
  match s with
  | EmptyString => EmptyString
  | String c s' =>
      match trimEnd s' with
      | EmptyString => if isWhiteSpace c then EmptyString else String c EmptyString
      | rest => String c rest
      end
  end.

Definition trim (s : string) : string := trimEnd (trimStart s).

(** [s.split(/\s+/)]: the pieces of [s] between maximal runs of white space.
    [cur] is the piece being read (reversed), [inGap] tells whether the last
    character read was white space. *)
Fixpoint splitWhiteSpace_aux (s : string) (cur : list ascii) (inGap : bool) : list string :=
  match s with
  | EmptyString => [string_of_list_ascii (rev cur)]
  | String c s' =>
      if isWhiteSpace c then
        if inGap then splitWhiteSpace_aux s' cur true
        else string_of_list_ascii (rev cur) :: splitWhiteSpace_aux s' [] true
      else splitWhiteSpace_aux s' (c :: cur) false
  end.

Definition splitWhiteSpace (s : string) : list string := splitWhiteSpace_aux s [] false.

(** [parts.join(sep)] *)
Definition join (sep : string) (parts : list string) : string := String.concat sep parts.

(** [s.split(",")] *)
Fixpoint splitComma_aux (s : string) (cur : list ascii) : list string :=
  match s with
  | EmptyString => [string_of_list_ascii (rev cur)]
  | String c s' =>
      if Ascii.eqb c "," then string_of_list_ascii (rev cur) :: splitComma_aux s' []
      else splitComma_aux s' (c :: cur)
  end.

Definition splitComma (s : string) : list string := splitComma_aux s [].

(** [a || b] on strings: the empty string is falsy. *)
Definition orElse (a b : string) : string :=
  match a with EmptyString => b | _ => a end.

(** [field || ""] for a field that may be missing. *)
Definition orEmpty (field : option string) : string := default EmptyString field.

(** *** Arrays *)

(** [xs.slice(0, n)] *)
Definition slice0 {A : Type} (n : nat) (xs : list A) : list A := take n xs.

(** [xs.find(p)]: the first element satisfying [p]. *)
Definition find {A : Type} (p : A -> bool) (xs : list A) : option A := List.find p xs.

(** [xs.some(p)] *)
Definition some {A : Type} (p : A -> bool) (xs : list A) : bool := existsb p xs.

(** [xs.sort(compareFn)].  The sort is stable (ECMAScript 2019): [x] moves
    behind [y] only when [compareFn(x, y) > 0].  [insertSorted] places one
    element in front of an already sorted tail, so folding it from the right
    sorts the array and keeps the order of elements comparing equal. *)
Fixpoint insertSorted {A : Type} (compareFn : A -> A -> Q) (x : A) (xs : list A) : list A :=
  match xs with
  | [] => [x]
  | y :: ys =>
      match (compareFn x y ?= 0)%Q with
      | Gt => y :: insertSorted compareFn x ys
      | _ => x :: xs
      end
  end.

Definition sort {A : Type} (compareFn : A -> A -> Q) (xs : list A) : list A :=
  foldr (insertSorted compareFn) [] xs.

(** *** Insertion-ordered [Map<string, V>] *)

Definition Map (V : Type) : Type := list (string * V).

Fixpoint Map_get {V : Type} (key : string) (m : Map V) : option V :=
  match m with
  | [] => None
  | (k, v) :: m' => if String.eqb key k then Some v else Map_get key m'
  end.

Definition Map_has {V : Type} (key : string) (m : Map V) : bool :=
  match Map_get key m with Some _ => true | None => false end.

(** [m.set(key, v)]: an existing key keeps its place, a new key goes last. *)
Fixpoint Map_set {V : Type} (key : string) (v : V) (m : Map V) : Map V :=
  match m with
  | [] => [(key, v)]
  | (k, v') :: m' =>
      if String.eqb key k then (k, v) :: m' else (k, v') :: Map_set key v m'
  end.

(** [Array.from(m.values())] *)
Definition Map_values {V : Type} (m : Map V) : list V := map snd m.

End JS.

(** ** Regular expressions

    The keyword engine builds [new RegExp(keywords.join("|"), "i")] from the
    raw query and uses it in two ways: as the store's filter, and in
    [field.match(searchRegex)].  The regex has no [g] flag, so [match] returns
    [null] when nothing matches and otherwise the array of [exec]: the whole
    match followed by one entry per capturing group of the pattern.  A compiled
    regex is therefore modelled by what the source observes of it: whether it
    matches somewhere in a string, and how many capturing groups it has. *)

Module RegExp.

Record t : Type := mk {
  test : string -> bool;
  captureGroups : nat
}.

(** [(field.match(searchRegex) || []).length] *)
Definition matchLength (r : t) (field : string) : nat :=
  if test r field then S (captureGroups r) else 0.

(** *** The patterns made of plain characters, [|] and parentheses

    This is the fragment a query of ordinary words produces.  The other
    syntax characters of a pattern are not interpreted here. *)

Inductive node : Type :=
| Empty
| Char (c : ascii)
| Seq (a b : node)
| Alt (a b : node)
| Group (a : node).

Definition isSyntaxChar (c : ascii) : bool :=
  existsb (Ascii.eqb c)
    ["\"; "^"; "$"; "."; "*"; "+"; "?"; "["; "]"; "{"; "}"]%char.

(** Disjunction ::= Alternative ("|" Disjunction)?
    Alternative ::= (PatternCharacter | "(" Disjunction ")")*
    Each function returns the node read and the rest of the pattern. *)
Fixpoint parseDisjunction (fuel : nat) (p : list ascii) : option (node * list ascii) :=
  match fuel with
  | O => None
  | S fuel' =>
      match parseAlternative fuel' p with
      | Some (a, c :: rest) =>
          if Ascii.eqb c "|" then
            match parseDisjunction fuel' rest with
            | Some (b, rest') => Some (Alt a b, rest')
            | None => None
            end
          else Some (a, c :: rest)
      | other => other
      end
  end
with parseAlternative (fuel : nat) (p : list ascii) : option (node * list ascii) :=
  match fuel with
  | O => None
  | S fuel' =>
      match p with
      | [] => Some (Empty, [])
      | c :: rest =>
          if Ascii.eqb c "|" || Ascii.eqb c ")" then Some (Empty, p)
          else if Ascii.eqb c "(" then
            match parseDisjunction fuel' rest with
            | Some (d, c' :: rest') =>
                if Ascii.eqb c' ")" then
                  match parseAlternative fuel' rest' with
                  | Some (tl, rest'') => Some (Seq (Group d) tl, rest'')
                  | None => None
                  end
                else None
            | _ => None
            end
          else if isSyntaxChar c then None
          else
            match parseAlternative fuel' rest with
            | Some (tl, rest') => Some (Seq (Char c) tl, rest')
            | None => None
            end
      end
  end.

Definition parse (pattern : string) : option node :=
  let p := list_ascii_of_string pattern in
  match parseDisjunction (2 * length p + 2) p with
  | Some (r, []) => Some r
  | _ => None
  end.

(** Backtracking matcher with the [i] flag: [k] is what remains to be matched
    after [r]. *)
Fixpoint matchNode (r : node) (s : list ascii) (k : list ascii -> bool) : bool :=
  match r with
  | Empty => k s
  | Char c =>
      match s with
      | c' :: s' => if Ascii.eqb (JS.toLowerChar c) (JS.toLowerChar c') then k s' else false
      | [] => false
      end
  | Seq a b => matchNode a s (fun s' => matchNode b s' k)
  | Alt a b => matchNode a s k || matchNode b s k
  | Group a => matchNode a s k
  end.

(** A match may start at any position. *)
Fixpoint searchNode (r : node) (s : list ascii) : bool :=
  matchNode r s (fun _ => true)
  || match s with
     | [] => false
     | _ :: s' => searchNode r s'
     end.

Fixpoint countGroups (r : node) : nat :=
  match r with
  | Empty | Char _ => 0
  | Seq a b | Alt a b => countGroups a + countGroups b
  | Group a => S (countGroups a)
  end.

(** What the runtime says of an ill-formed pattern of the fragment: its
    parentheses do not match, with a [")"] too many or a ["("] left open. *)
Definition syntaxError (pattern : string) : string :=
  let p := list_ascii_of_string pattern in
  match parseDisjunction (2 * length p + 2) p with
  | Some (_, _ :: _) => "Unmatched ')'"
  | _ => "Unterminated group"
  end.

(** [new RegExp(pattern, "i")] on the fragment: a well-formed pattern is
    compiled, an ill-formed one throws the [SyntaxError] of the runtime.  A
    pattern that holds one of the other syntax characters is outside the
    fragment; it is refused here, whatever the runtime does with it, and no
    statement below is about such a pattern. *)
Definition ofFragment (pattern : string) : outcome t :=
  match parse pattern with
  | Some r => Ok (mk (fun s => searchNode r (list_ascii_of_string s)) (countGroups r))
  | None =>
      if existsb isSyntaxChar (list_ascii_of_string pattern)
      then Throw ("Pattern outside the fragment: " +:+ pattern)
      else Throw ("Invalid regular expression: /" +:+ pattern +:+ "/i: "
                  +:+ syntaxError pattern)
  end.

End RegExp.

(** ** Search results (src/qa-bot-ts/src/types/search.ts) *)

(** ["keyword" | "vector" | "hybrid"], and ["llm-reranked"] which the
    re-ranker writes through a cast. *)
Inductive MatchType : Type := Keyword | Vector | Hybrid | LlmReranked.

(** [extractedInfo] of the re-ranker's schema, after its transforms. *)
Record ExtractedInfo : Type := mkExtractedInfo {
  currentCompany : option string;
  location : option string;
  skills : option (list string);
  experience : option string;
  keyHighlights : option (list string)
}.

(** [result.llmAnalysis], written by the retrieval pipeline. *)
Record LLMAnalysis : Type := mkLLMAnalysis {
  analysis_reasoning : string;
  analysis_extractedInfo : option ExtractedInfo
}.

(** [SearchResultItem], with the fields the re-ranker and the pipeline add to
    it at run time ([llmReasoning], [extractedInfo], [llmAnalysis]). *)
Record SearchResultItem : Type := mkItem {
  name : string;
  email : string;
  phoneNumber : string;
  content : string;
  score : Q;
  matchType : MatchType;
  llmReasoning : option string;
  extractedInfo : option ExtractedInfo;
  llmAnalysis : option LLMAnalysis
}.

(** [{ ...item, score: s, matchType: t }] *)
Definition withScore (item : SearchResultItem) (s : Q) (t : MatchType) : SearchResultItem :=
  mkItem (name item) (email item) (phoneNumber item) (content item) s t
    (llmReasoning item) (extractedInfo item) (llmAnalysis item).

(** The comparator [(a, b) => b.score - a.score]. *)
Definition byScoreDesc (a b : SearchResultItem) : Q := (score b - score a)%Q.

(** ** Keyword engine (src/qa-bot-ts/src/pipelines/retrieval/keywordSearch.ts) *)

Module KeywordSearchEngine.

(** A document of the collection, with the fields the engine reads. *)
Record Document : Type := mkDocument {
  doc_text : option string;
  doc_name : option string;
  doc_email : option string;
  doc_skills : option string;
  doc_role : option string;
  doc_phone : option string
}.

(** [collection.find({ $or: [...] }).limit(n).toArray()] for a regex. *)
Definition Collection : Type := RegExp.t -> nat -> outcome (list Document).

(** The loop of [extractSnippet] that looks for the first keyword found: it
    leaves in [position] the result of the last [indexOf] it ran. *)
Fixpoint firstPosition (lowerContent : string) (lowerKeywords : list string) : option nat :=
  match lowerKeywords with
  | [] => None
  | keyword :: rest =>
      match JS.indexOf keyword lowerContent with
      | Some position => Some position
      | None => firstPosition lowerContent rest
      end
  end.

Definition extractSnippet (content : string) (keywords : list string) (maxLength : nat) : string :=
  match content with
  | EmptyString => EmptyString
  | _ =>
      let lowerContent := JS.toLowerCase content in
      let lowerKeywords := map JS.toLowerCase keywords in
      match firstPosition lowerContent lowerKeywords with
      | None => JS.substring 0 maxLength content +:+ "..."
      | Some position =>
          let start := Nat.max 0 (position - 50) in
          let end_ := Nat.min (String.length content) (position + maxLength - 50) in
          let snippet := JS.substring start end_ content in
          let snippet := if (0 <? start)%nat then "..." +:+ snippet else snippet in
          let snippet := if (end_ <? String.length content)%nat then snippet +:+ "..." else snippet in
          JS.trim snippet
      end
  end.

Definition ofCount (n : nat) : Q := inject_Z (Z.of_nat n).

(** The weighted sum of the five match counts. *)
Definition totalScore (searchRegex : RegExp.t) (doc : Document) : Q :=
  let contentMatches := RegExp.matchLength searchRegex (JS.orEmpty (doc_text doc)) in
  let nameMatches := RegExp.matchLength searchRegex (JS.orEmpty (doc_name doc)) in
  let emailMatches := RegExp.matchLength searchRegex (JS.orEmpty (doc_email doc)) in
  let skillsMatches := RegExp.matchLength searchRegex (JS.orEmpty (doc_skills doc)) in
  let roleMatches := RegExp.matchLength searchRegex (JS.orEmpty (doc_role doc)) in
  (ofCount contentMatches * 1
   + ofCount nameMatches * 2
   + ofCount emailMatches * (3 # 2)
   + ofCount skillsMatches * 3
   + ofCount roleMatches * (5 # 2))%Q.

Definition normalizedScore (searchRegex : RegExp.t) (doc : Document) : Q :=
  Qmin (totalScore searchRegex doc / 30) 1.

(** The body of [documents.map((doc) => ...)]. *)
Definition toResult (searchRegex : RegExp.t) (keywords : list string) (doc : Document) : SearchResultItem :=
  let content := JS.orEmpty (doc_text doc) in
  let name := JS.orEmpty (doc_name doc) in
  let email := JS.orEmpty (doc_email doc) in
  mkItem (JS.orElse name "Unknown")
         (JS.orElse email "Not found")
         (JS.orElse (JS.orEmpty (doc_phone doc)) "Not found")
         (extractSnippet content keywords 200)
         (normalizedScore searchRegex doc)
         Keyword None None None.

Definition keywordsOf (query : string) : list string := JS.splitWhiteSpace (JS.trim query).

Definition search (RegExp_new : string -> outcome RegExp.t) (collection : Collection)
    (query : string) (topK : nat) : outcome (list SearchResultItem) :=
  rethrow "Keyword search failed: "
    (let keywords := keywordsOf query in
     let* searchRegex := RegExp_new (JS.join "|" keywords) in
     let* documents := collection searchRegex (topK * 2) in
     let results := map (toResult searchRegex keywords) documents in
     Ok (JS.slice0 topK (JS.sort byScoreDesc results))).

End KeywordSearchEngine.

(** ** Vector engine (src/qa-bot-ts/src/pipelines/retrieval/vectorSearch.ts) *)

Module VectorSearchEngine.

(** A stored document as the vector store returns it: [pageContent] and the
    fields of [metadata] the engine reads. *)
Record Document : Type := mkDocument {
  pageContent : string;
  meta_name : option string;
  meta_email : option string;
  meta_phone : option string;
  meta_phoneNumber : option string
}.

(** [vectorStore.searchWithScores(query, topK)] *)
Definition VectorStore : Type := string -> nat -> outcome (list (Document * Q)).

Definition normalizeVectorScore (score : Q) : Q := Qmax 0 (Qmin 1 score).

Definition extractSnippet (content : string) (maxLength : nat) : string :=
  match content with
  | EmptyString => EmptyString
  | _ =>
      let snippet := JS.trim (JS.substring 0 maxLength content) in
      snippet +:+ (if (maxLength <? String.length content)%nat then "..." else "")
  end.

Definition toItem (hit : Document * Q) : SearchResultItem :=
  let (doc, score) := hit in
  mkItem (JS.orElse (JS.orEmpty (meta_name doc)) "Unknown")
         (JS.orElse (JS.orEmpty (meta_email doc)) "Not found")
         (JS.orElse (JS.orEmpty (meta_phone doc))
            (JS.orElse (JS.orEmpty (meta_phoneNumber doc)) "Not found"))
         (extractSnippet (pageContent doc) 200)
         (normalizeVectorScore score)
         Vector None None None.

Definition search (vectorStore : VectorStore) (query : string) (topK : nat)
    : outcome (list SearchResultItem) :=
  rethrow "Vector search failed: "
    (let* results := vectorStore query topK in
     Ok (map toItem results)).

End VectorSearchEngine.

(** ** Hybrid engine (src/unnamed/part_005, hybridSearch.ts) *)

Module HybridSearchEngine.

Record HybridSearchConfig : Type := mkConfig {
  vectorWeight : Q;
  keywordWeight : Q
}.

(** The first [forEach] of [mergeResults]: one [mergedMap.set] per vector
    result. *)
Definition addVector (config : HybridSearchConfig)
    (mergedMap : JS.Map SearchResultItem) (result : SearchResultItem) : JS.Map SearchResultItem :=
  let weightedScore := (score result * vectorWeight config)%Q in
  JS.Map_set (name result) (withScore result weightedScore Hybrid) mergedMap.

(** The second [forEach]: a keyword result either updates the entry of its
    name in place or is added. *)
Definition addKeyword (config : HybridSearchConfig)
    (mergedMap : JS.Map SearchResultItem) (result : SearchResultItem) : JS.Map SearchResultItem :=
  let weightedScore := (score result * keywordWeight config)%Q in
  match JS.Map_get (name result) mergedMap with
  | Some existing =>
      let newScore := (score existing + weightedScore)%Q in
      let newContent :=
        if (String.length (content existing) <? String.length (content result))%nat
        then content result else content existing in
      JS.Map_set (name result)
        (mkItem (name existing) (email existing) (phoneNumber existing) newContent
           newScore (matchType existing)
           (llmReasoning existing) (extractedInfo existing) (llmAnalysis existing))
        mergedMap
  | None =>
      JS.Map_set (name result) (withScore result weightedScore Hybrid) mergedMap
  end.

Definition mergeResults (config : HybridSearchConfig)
    (vectorResults keywordResults : list SearchResultItem) : list SearchResultItem :=
  let mergedMap := foldl (addVector config) [] vectorResults in
  let mergedMap := foldl (addKeyword config) mergedMap keywordResults in
  JS.Map_values mergedMap.

(** [search]: both engines are asked for [topK * 3] results; [Promise.all]
    rejects when either of them rejects, with the rejection that settles
    first.  When both reject, the keyword engine's rejection is the one taken
    here: it is the first to settle when the regular expression is refused,
    which happens before the first [await] of the keyword engine; when both
    engines fail on their stores the order depends on their timing. *)
Definition search (config : HybridSearchConfig)
    (vectorEngine keywordEngine : string -> nat -> outcome (list SearchResultItem))
    (query : string) (topK : nat) : outcome (list SearchResultItem) :=
  rethrow "Hybrid search failed: "
    (let fetchSize := topK * 3 in
     match vectorEngine query fetchSize, keywordEngine query fetchSize with
     | Ok vectorResults, Ok keywordResults =>
         let mergedResults := mergeResults config vectorResults keywordResults in
         Ok (JS.slice0 topK (JS.sort byScoreDesc mergedResults))
     | _, Throw msg => Throw msg
     | Throw msg, Ok _ => Throw msg
     end).

End HybridSearchEngine.

(** ** JSON values and the chat model *)

Module Json.

#[local] Unset Elimination Schemes.
Inductive value : Type :=
| Null
| Bool (b : bool)
| Number (q : Q)
| Str (s : string)
| Array (items : list value)
| Object (fields : list (string * value)).
#[local] Set Elimination Schemes.

(** [obj[key]]; [None] is [undefined]. *)
Fixpoint lookup (key : string) (fields : list (string * value)) : option value :=
  match fields with
  | [] => None
  | (k, v) :: rest => if String.eqb key k then Some v else lookup key rest
  end.

End Json.

(** What one [model.invoke(prompt)] followed by the extraction of the JSON text
    and [JSON.parse] comes to. *)
Inductive ModelReply : Type :=
| InvokeFails (message : string)     (* the call to the model rejects *)
| NotJson (responseText : string)    (* [JSON.parse] throws *)
| Parsed (rawJson : Json.value).     (* [JSON.parse] returns [rawJson] *)

(** ** Schemas (zod) *)

Module Zod.

Definition string_ (v : option Json.value) : option string :=
  match v with Some (Json.Str s) => Some s | _ => None end.

Definition boolean (v : option Json.value) : option bool :=
  match v with Some (Json.Bool b) => Some b | _ => None end.

(** [z.number().min(0).max(1)] *)
Definition number01 (v : option Json.value) : option Q :=
  match v with
  | Some (Json.Number q) => if Qle_bool 0 q && Qle_bool q 1 then Some q else None
  | _ => None
  end.

(** [schema.optional()]: a missing property is accepted. *)
Definition optional {A : Type} (schema : option Json.value -> option A)
    (v : option Json.value) : option (option A) :=
  match v with
  | None => Some None
  | Some _ => Some <$> schema v
  end.

Definition array {A : Type} (schema : option Json.value -> option A)
    (v : option Json.value) : option (list A) :=
  match v with
  | Some (Json.Array items) => mapM (fun item => schema (Some item)) items
  | _ => None
  end.

Definition object {A : Type} (schema : list (string * Json.value) -> option A)
    (v : option Json.value) : option A :=
  match v with
  | Some (Json.Object fields) => schema fields
  | _ => None
  end.

Definition nonEmpty (s : string) : bool :=
  match s with EmptyString => false | _ => true end.

(** [z.union([z.array(z.string()), z.string()]).optional().transform(...)]:
    a string is split on commas, trimmed, and its empty pieces dropped. *)
Definition stringList (v : option Json.value) : option (option (list string)) :=
  match v with
  | None => Some None
  | Some (Json.Str val) => Some (Some (List.filter nonEmpty (map JS.trim (JS.splitComma val))))
  | Some _ => Some <$> array string_ v
  end.

End Zod.

(** ** LLM re-ranker (src/qa-bot-ts/src/pipelines/retrieval/llmReranker.ts) *)

Module ResumeMatch.

Record t : Type := mk {
  name : string;
  relevanceScore : Q;
  reasoning : string;
  matchesCriteria : bool;
  extractedInfo : option ExtractedInfo
}.

End ResumeMatch.

Module LLMReranker.

Definition ExtractedInfoSchema (fields : list (string * Json.value)) : option ExtractedInfo :=
  currentCompany ← Zod.optional Zod.string_ (Json.lookup "currentCompany" fields);
  location ← Zod.optional Zod.string_ (Json.lookup "location" fields);
  skills ← Zod.stringList (Json.lookup "skills" fields);
  experience ← Zod.optional Zod.string_ (Json.lookup "experience" fields);
  keyHighlights ← Zod.stringList (Json.lookup "keyHighlights" fields);
  Some (mkExtractedInfo currentCompany location skills experience keyHighlights).

Definition ResumeMatchSchema (fields : list (string * Json.value)) : option ResumeMatch.t :=
  name ← Zod.string_ (Json.lookup "name" fields);
  relevanceScore ← Zod.number01 (Json.lookup "relevanceScore" fields);
  reasoning ← Zod.string_ (Json.lookup "reasoning" fields);
  matchesCriteria ← Zod.boolean (Json.lookup "matchesCriteria" fields);
  extractedInfo ← Zod.optional (Zod.object ExtractedInfoSchema) (Json.lookup "extractedInfo" fields);
  Some (ResumeMatch.mk name relevanceScore reasoning matchesCriteria extractedInfo).

Record LLMRerankResponse : Type := mkResponse {
  matches : list ResumeMatch.t;
  summary : string
}.

Definition LLMRerankResponseSchema (fields : list (string * Json.value)) : option LLMRerankResponse :=
  matches ← Zod.array (Zod.object ResumeMatchSchema) (Json.lookup "matches" fields);
  summary ← Zod.string_ (Json.lookup "summary" fields);
  Some (mkResponse matches summary).

(** The chat model as the re-ranker uses it: the prompt is built from the
    query and the candidates. *)
Definition Model : Type := string -> list SearchResultItem -> ModelReply.

Record Output : Type := mkOutput {
  results : list SearchResultItem;
  llmAnalysis_summary : string;
  llmAnalysis_matches : list ResumeMatch.t
}.

(** The verdicts the two fallbacks report: every candidate with its own
    score. *)
Definition fallbackMatches (reasoning : string) (candidates : list SearchResultItem)
    : list ResumeMatch.t :=
  map (fun c => ResumeMatch.mk (name c) (score c) reasoning true None) candidates.

(** One round of the [for (const match of parsedResponse.matches)] loop: what
    it pushes, if anything. *)
Definition rerankOne (candidates : list SearchResultItem) (match_ : ResumeMatch.t)
    : option SearchResultItem :=
  if negb (ResumeMatch.matchesCriteria match_) then None
  else
    match JS.find (fun c => String.eqb (name c) (ResumeMatch.name match_)) candidates with
    | None => None
    | Some originalCandidate =>
        Some (mkItem (name originalCandidate) (email originalCandidate)
                (phoneNumber originalCandidate) (content originalCandidate)
                (ResumeMatch.relevanceScore match_) LlmReranked
                (Some (ResumeMatch.reasoning match_))
                (ResumeMatch.extractedInfo match_)
                (llmAnalysis originalCandidate))
    end.

Definition parseFailureSummary : string :=
  "Failed to parse LLM response. Returning original vector search results without filtering.".

Definition errorSummary (message : string) : string :=
  "Error during LLM analysis: " +:+ message +:+ ". Returning unfiltered results.".

Definition rerankAndFilter (model : Model) (query : string)
    (candidates : list SearchResultItem) : Output :=
  match candidates with
  | [] => mkOutput [] "No candidates to analyze" []
  | _ =>
      let parseFailure :=
        mkOutput candidates parseFailureSummary
          (fallbackMatches "LLM parsing failed - using original vector search score" candidates) in
      match model query candidates with
      | InvokeFails message =>
          mkOutput candidates (errorSummary message)
            (fallbackMatches "Error during LLM analysis - score from vector search" candidates)
      | NotJson _ => parseFailure
      | Parsed rawJson =>
          match Zod.object LLMRerankResponseSchema (Some rawJson) with
          | None => parseFailure
          | Some parsedResponse =>
              let rerankedResults := omap (rerankOne candidates) (matches parsedResponse) in
              mkOutput (JS.sort byScoreDesc rerankedResults)
                (summary parsedResponse) (matches parsedResponse)
          end
      end
  end.

End LLMReranker.

(** ** Retrieval pipeline (src/unnamed/part_004, pipeline.ts) *)

Module RetrievalPipeline.

Inductive SearchType : Type := keyword | vector | hybrid.

(** What the pipeline reaches of the outer world: the regex constructor of the
    runtime, the collection, and the vector store. *)
Record Backend : Type := mkBackend {
  RegExp_new : string -> outcome RegExp.t;
  collection : KeywordSearchEngine.Collection;
  vectorStore : VectorSearchEngine.VectorStore
}.

Record t : Type := mk {
  backend : Backend;
  hybridConfig : HybridSearchEngine.HybridSearchConfig;
  llmReranker : option LLMReranker.Model;
  enabled : bool;            (* llmRerankConfig.enabled *)
  retrievalTopK : nat        (* llmRerankConfig.retrievalTopK *)
}.

(** The constructor: re-ranking is enabled only with a chat model, by default
    when there is one, and the re-ranker exists exactly when it is enabled. *)
Definition new (backend : Backend) (hybridConfig : HybridSearchEngine.HybridSearchConfig)
    (chatModel : option LLMReranker.Model)
    (config_enabled : option bool) (config_retrievalTopK : option nat) : t :=
  let enabled :=
    match chatModel with
    | Some _ => default true config_enabled
    | None => false
    end in
  mk backend hybridConfig
     (match chatModel with
      | Some model => if enabled then Some model else None
      | None => None
      end)
     enabled (default 10 config_retrievalTopK).

Definition keywordEngine (p : t) : string -> nat -> outcome (list SearchResultItem) :=
  KeywordSearchEngine.search (RegExp_new (backend p)) (collection (backend p)).

Definition vectorEngine (p : t) : string -> nat -> outcome (list SearchResultItem) :=
  VectorSearchEngine.search (vectorStore (backend p)).

Definition hybridEngine (p : t) : string -> nat -> outcome (list SearchResultItem) :=
  HybridSearchEngine.search (hybridConfig p) (vectorEngine p) (keywordEngine p).

(** [result.llmAnalysis = { reasoning, extractedInfo }] for the first verdict
    of the result's name. *)
Definition attach (matches : list ResumeMatch.t) (result : SearchResultItem) : SearchResultItem :=
  match JS.find (fun m => String.eqb (ResumeMatch.name m) (name result)) matches with
  | Some matchInfo =>
      mkItem (name result) (email result) (phoneNumber result) (content result)
        (score result) (matchType result) (llmReasoning result) (extractedInfo result)
        (Some (mkLLMAnalysis (ResumeMatch.reasoning matchInfo) (ResumeMatch.extractedInfo matchInfo)))
  | None => result
  end.

Definition search (p : t) (query : string) (searchType : SearchType) (topK : nat)
    : outcome (list SearchResultItem) :=
  let retrievalCount := if enabled p then retrievalTopK p else topK in
  let* results :=
    match searchType with
    | keyword => keywordEngine p query retrievalCount
    | vector => vectorEngine p query retrievalCount
    | hybrid => hybridEngine p query retrievalCount
    end in
  let staged :=
    match llmReranker p with
    | Some model =>
        if enabled p && (0 <? length results)%nat then
          let rerankedData := LLMReranker.rerankAndFilter model query results in
          (LLMReranker.results rerankedData,
           Some (LLMReranker.llmAnalysis_matches rerankedData))
        else (results, None)
    | None => (results, None)
    end in
  let results := JS.slice0 topK staged.1 in
  Ok (match staged.2 with
      | Some matches => map (attach matches) results
      | None => results
      end).

End RetrievalPipeline.

(** ** Chat memory (src/qa-bot-ts/src/lib/memory/chatMemory.ts) *)

Module ChatMemory.

Inductive Role : Type := HumanMessage | AIMessage.

Record BaseMessage : Type := mkMessage {
  role : Role;
  content : string
}.

(** A cached, structured search result, as the chat endpoint stores it. *)
Record ChatMemoryManager (R : Type) : Type := mkManager {
  conversationId : string;
  maxMessages : nat;
  chatHistory : list BaseMessage;      (* BufferMemory's ChatMessageHistory *)
  lastSearchResults : list R
}.

Arguments mkManager {R}.
Arguments conversationId {R}.
Arguments maxMessages {R}.
Arguments chatHistory {R}.
Arguments lastSearchResults {R}.

Section Manager.
Context {R : Type}.

(** [constructor(conversationId, config?)]: [config?.maxMessages ?? 10]. *)
Definition new (conversationId : string) (config_maxMessages : option nat) : ChatMemoryManager R :=
  mkManager conversationId (default 10 config_maxMessages) [] [].

(** [BufferMemory.saveContext({input}, {output})] appends a human message and
    then an AI message to the history.  This is the call for a user input
    that is not empty, which is all the server passes on (a chat message is
    validated to hold a character); the library refuses an empty input. *)
Definition saveContext (userInput aiOutput : string) (m : ChatMemoryManager R) : ChatMemoryManager R :=
  mkManager (conversationId m) (maxMessages m)
    (chatHistory m ++ [mkMessage HumanMessage userInput; mkMessage AIMessage aiOutput])
    (lastSearchResults m).

Definition getMessages (m : ChatMemoryManager R) : list BaseMessage := chatHistory m.

Definition getMessageCount (m : ChatMemoryManager R) : nat := length (getMessages m).

(** [trimMessages]: when the history is longer than [maxMessages], clear it and
    re-add [messages.slice(toRemove)]. *)
Definition trimMessages (m : ChatMemoryManager R) : ChatMemoryManager R :=
  let messages := getMessages m in
  if (maxMessages m <? length messages)%nat then
    let toRemove := length messages - maxMessages m in
    let recentMessages := drop toRemove messages in
    mkManager (conversationId m) (maxMessages m) ([] ++ recentMessages) (lastSearchResults m)
  else m.

Definition addExchange (userInput aiOutput : string) (m : ChatMemoryManager R) : ChatMemoryManager R :=
  trimMessages (saveContext userInput aiOutput m).

(** [clear()]: [await this.memory.clear()], which empties the message history. *)
Definition clear (m : ChatMemoryManager R) : ChatMemoryManager R :=
  mkManager (conversationId m) (maxMessages m) [] (lastSearchResults m).

Definition setLastSearchResults (results : list R) (m : ChatMemoryManager R) : ChatMemoryManager R :=
  mkManager (conversationId m) (maxMessages m) (chatHistory m) results.

Definition getLastSearchResults (m : ChatMemoryManager R) : list R := lastSearchResults m.

Definition hasSearchResults (m : ChatMemoryManager R) : bool :=
  (0 <? length (lastSearchResults m))%nat.

Definition clearSearchResults (m : ChatMemoryManager R) : ChatMemoryManager R :=
  mkManager (conversationId m) (maxMessages m) (chatHistory m) [].

(** A run of [addExchange] calls, oldest first. *)
Definition addExchanges (exchanges : list (string * string)) (m : ChatMemoryManager R) : ChatMemoryManager R :=
  foldl (fun acc e => addExchange e.1 e.2 acc) m exchanges.

(** Every message a run of exchanges appends, oldest first. *)
Definition transcript (exchanges : list (string * string)) : list BaseMessage :=
  exchanges ≫= (fun e => [mkMessage HumanMessage e.1; mkMessage AIMessage e.2]).

End Manager.

End ChatMemory.

(** ** Cached results of a conversation (src/qa-bot-ts/src/server.ts)

    The chat endpoint caches and returns [structuredResults]: the fields of a
    result without its content. *)

Module StructuredResult.

Record t : Type := mk {
  name : string;
  email : string;
  phoneNumber : string;
  score : Q;
  matchType : MatchType;
  extractedInfo : option ExtractedInfo;
  llmReasoning : option string
}.

End StructuredResult.

(** ** Conversational filter (src/qa-bot-ts/src/lib/conversationalFilter.ts) *)

Module FilteredResult.

Record t : Type := mk {
  name : string;
  reasoning : string;
  matches : bool
}.

End FilteredResult.

Module ConversationalFilter.

Definition FilteredResultSchema (fields : list (string * Json.value)) : option FilteredResult.t :=
  name ← Zod.string_ (Json.lookup "name" fields);
  reasoning ← Zod.string_ (Json.lookup "reasoning" fields);
  matches ← Zod.boolean (Json.lookup "matches" fields);
  Some (FilteredResult.mk name reasoning matches).

Record FilterResponse : Type := mkResponse {
  filteredResults : list FilteredResult.t;
  summary : string
}.

Definition FilterResponseSchema (fields : list (string * Json.value)) : option FilterResponse :=
  filteredResults ← Zod.array (Zod.object FilteredResultSchema) (Json.lookup "filteredResults" fields);
  summary ← Zod.string_ (Json.lookup "summary" fields);
  Some (mkResponse filteredResults summary).

(** The chat model as the filter uses it: the prompt is built from the filter
    criteria and the cached results. *)
Definition Model : Type := string -> list StructuredResult.t -> ModelReply.

(** The callback of [cachedResults.filter(...)]: the first decision carrying
    the result's name decides; a result without a decision is left out. *)
Definition keeps (parsedResponse : FilterResponse) (result : StructuredResult.t) : bool :=
  match JS.find (fun fr => String.eqb (FilteredResult.name fr) (StructuredResult.name result))
          (filteredResults parsedResponse) with
  | Some filterDecision => FilteredResult.matches filterDecision
  | None => false
  end.

Definition parseFailureSummary : string :=
  "Failed to parse filter response. Returning all cached results.".

Definition errorSummary (message : string) : string :=
  "Error during filtering: " +:+ message.

Definition filterResults (model : Model) (filterCriteria : string)
    (cachedResults : list StructuredResult.t) : list StructuredResult.t * string :=
  match cachedResults with
  | [] => ([], "No cached results to filter")
  | _ =>
      match model filterCriteria cachedResults with
      | InvokeFails message => (cachedResults, errorSummary message)
      | NotJson _ => (cachedResults, parseFailureSummary)
      | Parsed rawJson =>
          match Zod.object FilterResponseSchema (Some rawJson) with
          | None => (cachedResults, parseFailureSummary)
          | Some parsedResponse =>
              (List.filter (keeps parsedResponse) cachedResults, summary parsedResponse)
          end
      end
  end.

Definition filterKeywords : list string :=
  [ "only"; "filter"; "show me"; "display"; "from those"; "from the above";
    "from previous"; "from these"; "among them"; "out of these"; "narrow down";
    "refine" ].

Definition isFilterQuery (query : string) : bool :=
  let lowerQuery := JS.toLowerCase query in
  JS.some (fun keyword => JS.includes keyword lowerQuery) filterKeywords.

End ConversationalFilter.

(** ** Conversation store (src/qa-bot-ts/src/lib/memory/chatMemory.ts) *)

Module ConversationStore.

Abbreviation Manager := (ChatMemory.ChatMemoryManager StructuredResult.t).
Abbreviation t := (gmap string Manager).

(** [getOrCreate(conversationId)]: the store afterwards and the manager. *)
Definition getOrCreate (conversationId : string) (conversations : t) : t * Manager :=
  match conversations !! conversationId with
  | Some manager => (conversations, manager)
  | None =>
      let manager := ChatMemory.new conversationId None in
      (<[conversationId := manager]> conversations, manager)
  end.

Definition has (conversationId : string) (conversations : t) : bool :=
  bool_decide (is_Some (conversations !! conversationId)).

(** [delete(conversationId)]: the store afterwards, and whether an entry was
    removed. *)
Definition delete_ (conversationId : string) (conversations : t) : t * bool :=
  (delete conversationId conversations, has conversationId conversations).

End ConversationStore.

(** ** Conversational RAG chain (src/unnamed/part_008) *)

Module ConversationalRAGChainManager.

(** The chain [prompt | model | parser] that writes the reply from the input,
    the chat history and the search results. *)
Definition Chain : Type :=
  string -> list ChatMemory.BaseMessage -> list SearchResultItem -> outcome string.

(** [chat(input, searchType, topK)] of a manager whose own [lastSearchResults]
    is [lastSearchResults]: the reply, the results, and the memory manager
    after the exchange was saved. *)
Definition chat (isFollowUpQuery : string -> bool) (chain : Chain)
    (retrievalPipeline : string -> RetrievalPipeline.SearchType -> nat -> outcome (list SearchResultItem))
    (lastSearchResults : list SearchResultItem)
    (memoryManager : ConversationStore.Manager)
    (input : string) (searchType : RetrievalPipeline.SearchType) (topK : nat)
    : outcome (string * list SearchResultItem * ConversationStore.Manager) :=
  let isFollowUp := isFollowUpQuery input in
  let* searchResults :=
    if isFollowUp && (0 <? length lastSearchResults)%nat then Ok lastSearchResults
    else retrievalPipeline input searchType topK in
  let* response := chain input (ChatMemory.getMessages memoryManager) searchResults in
  Ok (response, searchResults, ChatMemory.addExchange input response memoryManager).

End ConversationalRAGChainManager.

(** ** The chat endpoint (src/qa-bot-ts/src/server.ts, [app.post("/chat")]) *)

Module Server.

Record ConversationalQuery : Type := mkQuery {
  message : string;
  conversationId : option string
}.

Inductive Path : Type := filter | hybrid.

Record ConversationalQueryResult : Type := mkResult {
  response : string;
  result_conversationId : string;
  messageCount : nat;
  searchResults : list StructuredResult.t;
  searchType : Path;
  resultCount : nat
}.

(** What one request meets outside of the conversation store. *)
Record Environment : Type := mkEnvironment {
  (* [retrievalPipeline], when it was initialized *)
  retrievalPipeline :
    option (string -> RetrievalPipeline.SearchType -> nat -> outcome (list SearchResultItem));
  (* the id generated for a request that brings none *)
  generatedId : string;
  (* [createChatModel()]: it throws when the configuration of the model is
     wrong (provider, temperature, API key) *)
  createChatModel : outcome unit;
  (* the chat model it returns, as the filter and the chain use it *)
  filterModel : ConversationalFilter.Model;
  chain : ConversationalRAGChainManager.Chain;
  isFollowUpQuery : string -> bool
}.

(** The fields the endpoint keeps of a result. *)
Definition structured (result : SearchResultItem) : StructuredResult.t :=
  StructuredResult.mk (name result) (email result) (phoneNumber result) (score result)
    (matchType result) (extractedInfo result) (llmReasoning result).

(** The same projection, applied to results that are already structured. *)
Definition restructured (result : StructuredResult.t) : StructuredResult.t :=
  StructuredResult.mk (StructuredResult.name result) (StructuredResult.email result)
    (StructuredResult.phoneNumber result) (StructuredResult.score result)
    (StructuredResult.matchType result) (StructuredResult.extractedInfo result)
    (StructuredResult.llmReasoning result).

(** [parsed.conversationId || generated]: an empty id counts as none. *)
Definition isNewConversation (parsed : ConversationalQuery) : bool :=
  match conversationId parsed with
  | None | Some EmptyString => true
  | Some _ => false
  end.

Definition effectiveId (env : Environment) (parsed : ConversationalQuery) : string :=
  if isNewConversation parsed then generatedId env else default EmptyString (conversationId parsed).

Definition shouldUseFilter (parsed : ConversationalQuery) (memoryManager : ConversationStore.Manager) : bool :=
  let isFilterQuery := ConversationalFilter.isFilterQuery (message parsed) in
  let hasCachedResults := ChatMemory.hasSearchResults memoryManager in
  let isExistingConversation := negb (isNewConversation parsed) in
  hasCachedResults && (isFilterQuery || isExistingConversation).

(** The handler: the conversation store after the request and the response, or
    the error the client receives. *)
Definition chat (env : Environment) (conversations : ConversationStore.t)
    (parsed : ConversationalQuery) : ConversationStore.t * outcome ConversationalQueryResult :=
  match message parsed with
  | EmptyString => (conversations, Throw "String must contain at least 1 character(s)")
  | _ =>
  match retrievalPipeline env with
  | None =>
      (conversations,
       Throw "Retrieval pipeline not initialized. Please ensure MongoDB is connected.")
  | Some pipeline =>
      let conversationId := effectiveId env parsed in
      let (conversations, memoryManager) :=
        ConversationStore.getOrCreate conversationId conversations in
      match createChatModel env with
      | Throw msg => (conversations, Throw msg)
      | Ok _ =>
      if shouldUseFilter parsed memoryManager then
        let cachedResults := ChatMemory.getLastSearchResults memoryManager in
        let (filtered, summary) :=
          ConversationalFilter.filterResults (filterModel env) (message parsed) cachedResults in
        let memoryManager := ChatMemory.addExchange (message parsed) summary memoryManager in
        (<[conversationId := memoryManager]> conversations,
         Ok (mkResult summary conversationId (ChatMemory.getMessageCount memoryManager)
               (map restructured filtered) filter (length filtered)))
      else
        match ConversationalRAGChainManager.chat (isFollowUpQuery env) (chain env) pipeline
                [] memoryManager (message parsed) RetrievalPipeline.hybrid 10 with
        | Throw msg => (conversations, Throw msg)
        | Ok (response, searchResults, memoryManager) =>
            let structuredResults := map structured searchResults in
            let memoryManager := ChatMemory.setLastSearchResults structuredResults memoryManager in
            (<[conversationId := memoryManager]> conversations,
             Ok (mkResult response conversationId (ChatMemory.getMessageCount memoryManager)
                   (map structured searchResults) hybrid (length searchResults)))
        end
      end
  end
  end.

End Server.

(** ** The chain manager with its own state (src/unnamed/part_008)

    [ConversationalRAGChainManager] keeps the results of its last search in
    [lastSearchResults] and the query that produced them in [lastQuery]. *)

Module RAGChainState.

Record t : Type := mk {
  memoryManager : ConversationStore.Manager;
  lastSearchResults : list SearchResultItem;
  lastQuery : string
}.

(** The constructor. *)
Definition new (memoryManager : ConversationStore.Manager) : t := mk memoryManager [] "".

(** The second half of [chat]: the chain is invoked on the history and the
    results, and the exchange is saved when it returned. *)
Definition answer (chain : ConversationalRAGChainManager.Chain) (s : t) (input : string)
    (searchResults : list SearchResultItem) : t * outcome (string * list SearchResultItem) :=
  match chain input (ChatMemory.getMessages (memoryManager s)) searchResults with
  | Throw msg => (s, Throw msg)
  | Ok response =>
      (mk (ChatMemory.addExchange input response (memoryManager s))
          (lastSearchResults s) (lastQuery s),
       Ok (response, searchResults))
  end.

(** [chat(input, searchType, topK)]: the manager afterwards and what the call
    returns or throws.  The results of a new search are stored before the
    chain is invoked. *)
Definition chat (isFollowUpQuery : string -> bool) (chain : ConversationalRAGChainManager.Chain)
    (retrievalPipeline : string -> RetrievalPipeline.SearchType -> nat -> outcome (list SearchResultItem))
    (s : t) (input : string) (searchType : RetrievalPipeline.SearchType) (topK : nat)
    : t * outcome (string * list SearchResultItem) :=
  let isFollowUp := isFollowUpQuery input in
  if isFollowUp && (0 <? length (lastSearchResults s))%nat then
    answer chain s input (lastSearchResults s)
  else
    match retrievalPipeline input searchType topK with
    | Throw msg => (s, Throw msg)
    | Ok searchResults =>
        answer chain (mk (memoryManager s) searchResults input) input searchResults
    end.

(** [clear()] *)
Definition clear (s : t) : t := mk (ChatMemory.clear (memoryManager s)) [] "".

Definition getLastSearchResults (s : t) : list SearchResultItem := lastSearchResults s.

End RAGChainState.

(** ** The other endpoints of the server (src/qa-bot-ts/src/server.ts) *)

Module Endpoints.

(** What the client receives: a JSON body, or a status code with an error
    message. *)
Inductive Reply (A : Type) : Type :=
| Sent (body : A)
| Refused (status : nat) (error : string).

Arguments Sent {A} body.
Arguments Refused {A} status error.

(** [conversationStore.size()] *)
Definition size (conversations : ConversationStore.t) : nat := base.size conversations.

(** [conversationStore.clear()] *)
Definition clear (conversations : ConversationStore.t) : ConversationStore.t := ∅.

(** *** [app.get("/health")] *)

Record Health : Type := mkHealth {
  health_retrievalPipeline : string;
  activeConversations : nat
}.

Definition health (retrievalPipeline : option RetrievalPipeline.t)
    (conversations : ConversationStore.t) : Health :=
  mkHealth (match retrievalPipeline with Some _ => "ready" | None => "not initialized" end)
           (size conversations).

(** *** [app.post("/search/resumes")] *)

(** The request body; [topK] may be missing. *)
Record SearchRequest : Type := mkSearchRequest {
  query : string;
  searchType : RetrievalPipeline.SearchType;
  topK : option nat
}.

Record SearchResponse : Type := mkSearchResponse {
  response_query : string;
  response_searchType : RetrievalPipeline.SearchType;
  response_topK : nat;
  resultCount : nat;
  results : list SearchResultItem;
  hybridWeights : option HybridSearchEngine.HybridSearchConfig
}.

(** [SearchRequestSchema.parse]: the query is not empty and [topK], 3 when it
    is missing, is positive.  The message of a refusal stands for the list of
    issues that zod reports. *)
Definition SearchRequestSchema (body : SearchRequest) : outcome (string * RetrievalPipeline.SearchType * nat) :=
  match query body with
  | EmptyString => Throw "Query cannot be empty"
  | _ =>
      let topK := default 3 (topK body) in
      if (0 <? topK)%nat then Ok (query body, searchType body, topK)
      else Throw "Number must be greater than 0"
  end.

(** The handler; [config_hybridSearch] is the configuration the server was
    started with. *)
Definition searchResumes (config_hybridSearch : HybridSearchEngine.HybridSearchConfig)
    (retrievalPipeline : option RetrievalPipeline.t) (body : SearchRequest)
    : Reply SearchResponse :=
  let run :=
    let* parsed := SearchRequestSchema body in
    let '(query, searchType, topK) := parsed in
    let* pipeline :=
      match retrievalPipeline with
      | Some pipeline => Ok pipeline
      | None => Throw "Retrieval pipeline not initialized. Please ensure MongoDB is connected."
      end in
    let* results := RetrievalPipeline.search pipeline query searchType topK in
    Ok (mkSearchResponse query searchType topK (length results) results
          (match searchType with
           | RetrievalPipeline.hybrid => Some config_hybridSearch
           | _ => None
           end)) in
  match run with
  | Ok response => Sent response
  | Throw msg => Refused 400 msg
  end.

(** *** [app.post("/chat/history")] *)

Inductive ChatRole : Type := user | assistant.

Record ChatMessage : Type := mkChatMessage {
  role : ChatRole;
  content : string
}.

Record ConversationHistoryResult : Type := mkHistory {
  history_conversationId : string;
  messages : list ChatMessage;
  messageCount : nat
}.

Definition toChatMessage (msg : ChatMemory.BaseMessage) : ChatMessage :=
  mkChatMessage
    (match ChatMemory.role msg with
     | ChatMemory.HumanMessage => user
     | ChatMemory.AIMessage => assistant
     end)
    (ChatMemory.content msg).

(** The handler: the conversation store afterwards and the reply. *)
Definition chatHistory (conversations : ConversationStore.t) (conversationId : string)
    : ConversationStore.t * Reply ConversationHistoryResult :=
  match conversationId with
  | EmptyString => (conversations, Refused 400 "String must contain at least 1 character(s)")
  | _ =>
      if negb (ConversationStore.has conversationId conversations) then
        (conversations, Refused 404 ("Conversation not found: " +:+ conversationId))
      else
        let (conversations, memoryManager) :=
          ConversationStore.getOrCreate conversationId conversations in
        let messages := ChatMemory.getMessages memoryManager in
        let chatMessages := map toChatMessage messages in
        (conversations, Sent (mkHistory conversationId chatMessages (length chatMessages)))
  end.

(** *** [app.delete("/chat/:conversationId")] *)

Record Deleted : Type := mkDeleted {
  success : bool;
  deleted_conversationId : string;
  message : string
}.

Definition deleteConversation (conversations : ConversationStore.t) (conversationId : string)
    : ConversationStore.t * Reply Deleted :=
  let (conversations, deleted) := ConversationStore.delete_ conversationId conversations in
  if negb deleted then
    (conversations, Refused 404 ("Conversation not found: " +:+ conversationId))
  else
    (conversations, Sent (mkDeleted true conversationId "Conversation deleted successfully")).

(** *** The server as a whole

    One request to one of the endpoints that read or write the conversation
    store, and the store after a run of such requests. *)
Inductive Request : Type :=
| PostChat (env : Server.Environment) (parsed : Server.ConversationalQuery)
| PostChatHistory (conversationId : string)
| DeleteChat (conversationId : string).

Definition handle (conversations : ConversationStore.t) (request : Request) : ConversationStore.t :=
  match request with
  | PostChat env parsed => (Server.chat env conversations parsed).1
  | PostChatHistory conversationId => (chatHistory conversations conversationId).1
  | DeleteChat conversationId => (deleteConversation conversations conversationId).1
  end.

Definition run (requests : list Request) (conversations : ConversationStore.t) : ConversationStore.t :=
  foldl handle conversations requests.

End Endpoints.

(** ** Sample data: the scenarios of the specification *)

Module Sample.

Definition item (n : string) (s : Q) (t : MatchType) (c : string) : SearchResultItem :=
  mkItem n (n +:+ "@example.com") "Not found" c s t None None None.

Definition cached (n : string) (s : Q) : StructuredResult.t :=
  StructuredResult.mk n (n +:+ "@example.com") "Not found" s LlmReranked None None.

(** One verdict of the re-ranker's reply. *)
Definition verdict (n : string) (s : Q) (ok : bool) : Json.value :=
  Json.Object [("name", Json.Str n); ("relevanceScore", Json.Number s);
               ("reasoning", Json.Str "why"); ("matchesCriteria", Json.Bool ok)].

(** One decision of the filter's reply. *)
Definition decision (n : string) (ok : bool) : Json.value :=
  Json.Object [("name", Json.Str n); ("matches", Json.Bool ok);
               ("reasoning", Json.Str "why")].

(** Scenario 4: of the candidates A, B, C the model keeps A (0.9) and C (0.7). *)
Definition strictReply : Json.value :=
  Json.Object
    [("matches", Json.Array [verdict "A" (9 # 10) true; verdict "B" (2 # 10) false;
                             verdict "C" (7 # 10) true]);
     ("summary", Json.Str "2 of 3")].

Definition candidatesABC : list SearchResultItem :=
  [item "A" (78 # 100) Hybrid "resume of A"; item "B" (12 # 100) Hybrid "resume of B";
   item "C" (49 # 100) Hybrid "resume of C"].

(** Scenario 5: the model answers in prose. *)
Definition proseReply : ModelReply := NotJson "sorry I cannot comply".

(** A filter reply that decides twice about A: first no, then yes. *)
Definition twoDecisionsReply : Json.value :=
  Json.Object
    [("filteredResults", Json.Array [decision "A" false; decision "A" true]);
     ("summary", Json.Str "1 of 1")].

(** A filter reply that keeps A and drops B. *)
Definition onlyAReply : Json.value :=
  Json.Object
    [("filteredResults", Json.Array [decision "A" true; decision "B" false]);
     ("summary", Json.Str "1 of 2")].

(** Scenario 1, with the keyword twice in the skills of A. *)
Definition resumeA : KeywordSearchEngine.Document :=
  KeywordSearchEngine.mkDocument (Some "Automation engineer") (Some "A") (Some "a@example.com")
    (Some "Java, Selenium, Selenium Grid") (Some "QA") None.

(** A document with the keyword in each of its five scored fields. *)
Definition resumeJava : KeywordSearchEngine.Document :=
  KeywordSearchEngine.mkDocument (Some "java") (Some "java") (Some "java")
    (Some "java") (Some "java") None.

(** Scenario 1: C has the keyword in its text only. *)
Definition resumeC : KeywordSearchEngine.Document :=
  KeywordSearchEngine.mkDocument (Some "Tester with Selenium experience") (Some "C")
    (Some "c@example.com") (Some "Python") (Some "QA") None.

(** A document without a name, with the keyword in its other scored fields. *)
Definition resumeNameless (text : string) : KeywordSearchEngine.Document :=
  KeywordSearchEngine.mkDocument (Some text) None (Some "java@example.com")
    (Some "java") (Some "java developer") None.

Definition stored (n : option string) : VectorSearchEngine.Document :=
  VectorSearchEngine.mkDocument "resume text" n None None None.

(** A store holding A and C for the keyword query, and A (0.95) and B (0.55)
    for the vector query. *)
Definition backend : RetrievalPipeline.Backend :=
  RetrievalPipeline.mkBackend RegExp.ofFragment
    (fun _ _ => Ok [resumeA; resumeC])
    (fun _ _ => Ok [(stored (Some "A"), (95 # 100)%Q); (stored (Some "B"), (55 # 100)%Q)]).

(** The pipeline with the default weights, 0.7 and 0.3, and no chat model. *)
Definition pipeline : RetrievalPipeline.t :=
  RetrievalPipeline.new backend (HybridSearchEngine.mkConfig (7 # 10) (3 # 10)) None None None.

(** The same pipeline with both weights set to 1. *)
Definition pipelineBothOne : RetrievalPipeline.t :=
  RetrievalPipeline.new backend (HybridSearchEngine.mkConfig 1 1) None None None.

(** The default weights over a store with four documents that have no name. *)
Definition pipelineNameless : RetrievalPipeline.t :=
  RetrievalPipeline.new
    (RetrievalPipeline.mkBackend RegExp.ofFragment
       (fun _ _ => Ok [resumeNameless "java one"; resumeNameless "java two";
                       resumeNameless "java three"; resumeNameless "java four"])
       (fun _ _ => Ok [(stored None, 1%Q)]))
    (HybridSearchEngine.mkConfig (7 # 10) (3 # 10)) None None None.

(** A conversation "c1" that holds two cached results and one exchange. *)
Definition conversations : ConversationStore.t :=
  {[ "c1" := ChatMemory.mkManager "c1" 10
               [ChatMemory.mkMessage ChatMemory.HumanMessage "Find QA engineers";
                ChatMemory.mkMessage ChatMemory.AIMessage "Here are two candidates"]
               [cached "A" (9 # 10); cached "B" (7 # 10)] ]}.

Definition environment : Server.Environment :=
  Server.mkEnvironment
    (Some (RetrievalPipeline.search pipeline))
    "conv_1_abc"
    (Ok tt)
    (fun _ _ => Parsed onlyAReply)
    (fun _ _ _ => Ok "These candidates match")
    (fun _ => false).

End Sample.

(** ** Vocabulary of the properties *)

(** [a] may stand before [b] in a list sorted by score, highest first. *)
Definition scoreDesc (a b : SearchResultItem) : Prop := (score b <= score a)%Q.

Definition sortedDesc (xs : list SearchResultItem) : Prop := StronglySorted scoreDesc xs.

Definition scoreIn01 (x : SearchResultItem) : Prop := (0 <= score x <= 1)%Q.

(** A failing interaction with the chat model: the call rejects, the reply is
    no JSON, or its JSON does not conform to [schema]. *)
Definition failed {A : Type} (schema : list (string * Json.value) -> option A)
    (reply : ModelReply) : Prop :=
  match reply with
  | InvokeFails _ | NotJson _ => True
  | Parsed rawJson => Zod.object schema (Some rawJson) = None
  end.

(** A reply that parses and conforms to [schema], read as [parsed]. *)
Definition answered {A : Type} (schema : list (string * Json.value) -> option A)
    (reply : ModelReply) (parsed : A) : Prop :=
  exists rawJson, reply = Parsed rawJson /\ Zod.object schema (Some rawJson) = Some parsed.

(** The first decision of the filter's reply that carries the name [n]. *)
Definition firstDecision (decisions : list FilteredResult.t) (n : string)
    (fr : FilteredResult.t) : Prop :=
  exists before after,
    decisions = before ++ fr :: after
    /\ FilteredResult.name fr = n
    /\ Forall (fun fr' => FilteredResult.name fr' <> n) before.

(** A verdict of the re-ranker that yields a result: it matches the criteria
    and names one of the candidates. *)
Definition contributes (candidates : list SearchResultItem) (v : ResumeMatch.t) : bool :=
  ResumeMatch.matchesCriteria v
  && existsb (fun c => String.eqb (name c) (ResumeMatch.name v)) candidates.

(** Every entry of the merge map is filed under its own name. *)
Definition keyedByName (m : JS.Map SearchResultItem) : Prop :=
  Forall (fun entry => name entry.2 = entry.1) m.

(** The longer of two snippets, the first one when they are equally long. *)
Definition longer (a b : string) : string :=
  if (String.length a <? String.length b)%nat then b else a.

(** What the keyword pass of the merge writes over an entry [existing] found
    under the name of [result]. *)
Definition combined (config : HybridSearchEngine.HybridSearchConfig)
    (existing result : SearchResultItem) : SearchResultItem :=
  mkItem (name existing) (email existing) (phoneNumber existing)
    (longer (content existing) (content result))
    (score existing + score result * HybridSearchEngine.keywordWeight config)%Q
    (matchType existing)
    (llmReasoning existing) (extractedInfo existing) (llmAnalysis existing).

(** The two invariants of the merge map: keys are distinct, and every entry
    is filed under its own name. *)
Definition wellKeyed (m : JS.Map SearchResultItem) : Prop :=
  NoDup (map fst m) /\ keyedByName m.

(** The number of occurrences of any of the [keywords] in [field], as the
    specification words it: occurrences are found from left to right, without
    regard to case, and do not overlap.  [skip] is the number of characters
    still covered by the occurrence found last. *)
Fixpoint countIn_aux (lowerKeywords : list string) (lowerField : string) (skip : nat) : nat :=
  match lowerField with
  | EmptyString => 0
  | String _ rest =>
      match skip with
      | S skip' => countIn_aux lowerKeywords rest skip'
      | O =>
          match JS.find (fun k => Zod.nonEmpty k && JS.startsWith k lowerField) lowerKeywords with
          | Some k => S (countIn_aux lowerKeywords rest (String.length k - 1))
          | None => countIn_aux lowerKeywords rest 0
          end
      end
  end.

Definition countIn (keywords : list string) (field : string) : nat :=
  countIn_aux (map JS.toLowerCase keywords) (JS.toLowerCase field) 0.

(** The raw score of the specification:
    [1.0 countIn(text) + 2.0 countIn(name) + 1.5 countIn(email)
     + 3.0 countIn(skills) + 2.5 countIn(role)]. *)
Definition specifiedRawScore (keywords : list string) (doc : KeywordSearchEngine.Document) : Q :=
  (KeywordSearchEngine.ofCount (countIn keywords (JS.orEmpty (KeywordSearchEngine.doc_text doc))) * 1
   + KeywordSearchEngine.ofCount (countIn keywords (JS.orEmpty (KeywordSearchEngine.doc_name doc))) * 2
   + KeywordSearchEngine.ofCount (countIn keywords (JS.orEmpty (KeywordSearchEngine.doc_email doc))) * (3 # 2)
   + KeywordSearchEngine.ofCount (countIn keywords (JS.orEmpty (KeywordSearchEngine.doc_skills doc))) * 3
   + KeywordSearchEngine.ofCount (countIn keywords (JS.orEmpty (KeywordSearchEngine.doc_role doc))) * (5 # 2))%Q.

(** The vector store answers with its hits in descending order of
    similarity. *)
Definition storeSortedDesc (vectorStore : VectorSearchEngine.VectorStore) : Prop :=
  forall query n hits,
    vectorStore query n = Ok hits ->
    StronglySorted (fun a b : VectorSearchEngine.Document * Q => (b.2 <= a.2)%Q) hits.

(** The name the keyword engine gives the result of a document. *)
Definition resultName (doc : KeywordSearchEngine.Document) : string :=
  JS.orElse (JS.orEmpty (KeywordSearchEngine.doc_name doc)) "Unknown".

(** No two documents the collection returns for a query give results of the
    same name. *)
Definition distinctNames (collection : KeywordSearchEngine.Collection) : Prop :=
  forall searchRegex n documents,
    collection searchRegex n = Ok documents -> NoDup (map resultName documents).

(** The weights are non-negative and sum to at most 1. *)
Definition convexWeights (config : HybridSearchEngine.HybridSearchConfig) : Prop :=
  (0 <= HybridSearchEngine.vectorWeight config)%Q
  /\ (0 <= HybridSearchEngine.keywordWeight config)%Q
  /\ (HybridSearchEngine.vectorWeight config + HybridSearchEngine.keywordWeight config <= 1)%Q.

(** Two characters that differ in case at most: the same character, or a
    capital letter (codes 65 to 90) and its small letter (32 more). *)
Definition sameLetter (a b : ascii) : Prop :=
  a = b
  \/ (65 <= nat_of_ascii a <= 90 /\ nat_of_ascii b = nat_of_ascii a + 32)
  \/ (65 <= nat_of_ascii b <= 90 /\ nat_of_ascii a = nat_of_ascii b + 32).

(** [token] occurs in [query] as a substring when case is ignored. *)
Definition containsIgnoringCase (token query : string) : Prop :=
  exists before occurrence after,
    query = before +:+ occurrence +:+ after
    /\ Forall2 sameLetter (list_ascii_of_string occurrence) (list_ascii_of_string token).

(** The filter-intent tokens of the specification. *)
Definition filterIntentTokens : list string :=
  [ "only"; "filter"; "show me"; "display"; "from those"; "from the above";
    "from previous"; "from these"; "among them"; "out of these"; "narrow down";
    "refine" ].

(** The client sent a conversation id (an empty id counts as none). *)
Definition suppliedId (parsed : Server.ConversationalQuery) : Prop :=
  exists id, Server.conversationId parsed = Some id /\ id <> EmptyString.

(** The message asks to filter: it contains one of the filter-intent tokens. *)
Definition filterIntent (message : string) : Prop :=
  exists token, token ∈ filterIntentTokens /\ containsIgnoringCase token message.

(** The fields of a result that the chat endpoint returns and caches. *)
Definition structuredOf (result : SearchResultItem) (structured : StructuredResult.t) : Prop :=
  StructuredResult.name structured = name result
  /\ StructuredResult.email structured = email result
  /\ StructuredResult.phoneNumber structured = phoneNumber result
  /\ StructuredResult.score structured = score result
  /\ StructuredResult.matchType structured = matchType result
  /\ StructuredResult.extractedInfo structured = extractedInfo result
  /\ StructuredResult.llmReasoning structured = llmReasoning result.

(** The requests served one after the other, each with what it meets: the
    conversation store at the end and the replies in order. *)
Fixpoint serve (requests : list (Server.Environment * Server.ConversationalQuery))
    (conversations : ConversationStore.t)
    : ConversationStore.t * list (outcome Server.ConversationalQueryResult) :=
  match requests with
  | [] => (conversations, [])
  | (env, parsed) :: rest =>
      let step := Server.chat env conversations parsed in
      let later := serve rest step.1 in
      (later.1, step.2 :: later.2)
  end.

(** The cached results of a conversation, none when it does not exist. *)
Definition cacheOf (id : string) (conversations : ConversationStore.t)
    : list StructuredResult.t :=
  match conversations !! id with
  | Some memoryManager => ChatMemory.getLastSearchResults memoryManager
  | None => []
  end.

(** The results of a reply that reports a retrieval for the conversation
    [id]. *)
Definition retrievalFor (id : string) (reply : outcome Server.ConversationalQueryResult)
    : option (list StructuredResult.t) :=
  match reply with
  | Ok result =>
      match Server.searchType result with
      | Server.hybrid =>
          if String.eqb (Server.result_conversationId result) id
          then Some (Server.searchResults result) else None
      | Server.filter => None
      end
  | Throw _ => None
  end.

(** The results of the last retrieval for [id] among [replies], [initial] when
    there is none. *)
Definition lastRetrieval (id : string) (initial : list StructuredResult.t)
    (replies : list (outcome Server.ConversationalQueryResult)) : list StructuredResult.t :=
  foldl (fun acc reply => default acc (retrievalFor id reply)) initial replies.

(** The weighted score of the last vector result named [n], 0 when there is
    none. *)
Definition vectorShare (config : HybridSearchEngine.HybridSearchConfig) (n : string)
    (vectorResults : list SearchResultItem) : Q :=
  match JS.find (fun v => String.eqb (name v) n) (rev vectorResults) with
  | Some v => (score v * HybridSearchEngine.vectorWeight config)%Q
  | None => 0%Q
  end.

(** The sum of the weighted scores of the keyword results named [n]. *)
Definition keywordShare (config : HybridSearchEngine.HybridSearchConfig) (n : string)
    (keywordResults : list SearchResultItem) : Q :=
  foldr (fun k acc => (score k * HybridSearchEngine.keywordWeight config + acc)%Q) 0%Q
    (List.filter (fun k => String.eqb (name k) n) keywordResults).

(** The score filed under [n] in the merge map, 0 when there is no entry. *)
Definition scoreOf (n : string) (m : JS.Map SearchResultItem) : Q :=
  match JS.Map_get n m with
  | Some e => score e
  | None => 0%Q
  end.

(** Every entry of the merge map is tagged [Hybrid]. *)
Definition allHybrid (m : JS.Map SearchResultItem) : Prop :=
  Forall (fun entry => matchType entry.2 = Hybrid) m.

(** ** More sample data *)

Module Scenario.

(** The sample store behind a pipeline that re-ranks with [model]. *)
Definition reranking (model : LLMReranker.Model) : RetrievalPipeline.t :=
  RetrievalPipeline.new Sample.backend (HybridSearchEngine.mkConfig (7 # 10) (3 # 10))
    (Some model) None None.

(** The sample environment with a retrieval pipeline that is down. *)
Definition environmentDown : Server.Environment :=
  Server.mkEnvironment
    (Some (fun _ _ _ => Throw "Hybrid search failed: store unreachable"))
    "conv_2_xyz"
    (Ok tt)
    (fun _ _ => Parsed Sample.onlyAReply)
    (fun _ _ _ => Ok "These candidates match")
    (fun _ => false).

(** The conversation whose id the sample environment generates next, with
    two cached results. *)
Definition conversationsGenerated : ConversationStore.t :=
  {[ "conv_1_abc" := ChatMemory.mkManager "conv_1_abc" 10
                       [ChatMemory.mkMessage ChatMemory.HumanMessage "Find QA engineers";
                        ChatMemory.mkMessage ChatMemory.AIMessage "Here are two candidates"]
                       [Sample.cached "A" (9 # 10); Sample.cached "B" (7 # 10)] ]}.

(** The sample pipeline with a chat model whose reply chain throws. *)
Definition environmentMute : Server.Environment :=
  Server.mkEnvironment
    (Some (RetrievalPipeline.search Sample.pipeline))
    "conv_3_def"
    (Ok tt)
    (fun _ _ => Parsed Sample.onlyAReply)
    (fun _ _ _ => Throw "model overloaded")
    (fun _ => false).

End Scenario.

(** The engine the pipeline asks for a search of type [searchType]. *)
Definition retrieve (p : RetrievalPipeline.t) (searchType : RetrievalPipeline.SearchType)
    : string -> nat -> outcome (list SearchResultItem) :=
  match searchType with
  | RetrievalPipeline.keyword => RetrievalPipeline.keywordEngine p
  | RetrievalPipeline.vector => RetrievalPipeline.vectorEngine p
  | RetrievalPipeline.hybrid => RetrievalPipeline.hybridEngine p
  end.

(** [result] with [llmAnalysis] set. *)
Definition withAnalysis (analysis : LLMAnalysis) (result : SearchResultItem) : SearchResultItem :=
  mkItem (name result) (email result) (phoneNumber result) (content result)
    (score result) (matchType result) (llmReasoning result) (extractedInfo result)
    (Some analysis).

(** The reasoning the re-ranker reports for every candidate when the
    interaction with the chat model failed. *)
Definition fallbackReasoning (reply : ModelReply) : string :=
  match reply with
  | InvokeFails _ => "Error during LLM analysis - score from vector search"
  | _ => "LLM parsing failed - using original vector search score"
  end.

(** A history made of complete exchanges, at most five of them: a user message
    followed by the assistant's reply, and so on. *)
Definition completeExchanges (messages : list ChatMemory.BaseMessage) : Prop :=
  exists exchanges, messages = ChatMemory.transcript exchanges /\ length exchanges <= 5.

(** Every conversation is filed under its own id, keeps at most 10 messages,
    and holds complete exchanges only. *)
Definition wellFormed (conversations : ConversationStore.t) : Prop :=
  map_Forall (fun id (m : ConversationStore.Manager) =>
                ChatMemory.conversationId m = id
                /\ ChatMemory.maxMessages m = 10
                /\ completeExchanges (ChatMemory.chatHistory m)) conversations.

(** The manager [getOrCreate] hands out for [id]. *)
Definition managerOf (id : string) (conversations : ConversationStore.t) : ConversationStore.Manager :=
  default (ChatMemory.new id None) (conversations !! id).

(** The content of a result is a snippet of at most [n] characters. *)
Definition snippetWithin (n : nat) (result : SearchResultItem) : Prop :=
  String.length (content result) <= n.


(** A chat request meets, if any, a retrieval pipeline of this program. *)
Definition meetsPipeline (env : Server.Environment) : Prop :=
  match Server.retrievalPipeline env with
  | Some pipeline => exists p, pipeline = RetrievalPipeline.search p
  | None => True
  end.

Definition servedByPipeline (request : Endpoints.Request) : Prop :=
  match request with
  | Endpoints.PostChat env _ => meetsPipeline env
  | _ => True
  end.

(** No conversation caches more than [n] results. *)
Definition cacheWithin (n : nat) (conversations : ConversationStore.t) : Prop :=
  map_Forall (fun _ (m : ConversationStore.Manager) =>
                length (ChatMemory.lastSearchResults m) <= n) conversations.


(* ================================================================== *)
(** * Properties *)
(* ================================================================== *)

Section ChatMemoryFacts.
Import ChatMemory.
Context {R : Type}.
Implicit Types m : ChatMemoryManager R.

Lemma trimMessages_history m :
  chatHistory (trimMessages m)
  = drop (length (chatHistory m) - maxMessages m) (chatHistory m).
Proof.
  unfold trimMessages, getMessages.
  destruct (Nat.ltb_spec (maxMessages m) (length (chatHistory m))) as [Hlen|Hlen]; simpl.
  - reflexivity.
  - replace (length (chatHistory m) - maxMessages m)%nat with 0%nat by lia.
    reflexivity.
Qed.

Lemma addExchange_history u a m :
  chatHistory (addExchange u a m)
  = drop (length (chatHistory m) + 2 - maxMessages m)
      (chatHistory m ++ [mkMessage HumanMessage u; mkMessage AIMessage a]).
Proof.
  unfold addExchange. rewrite trimMessages_history. simpl.
  rewrite length_app. reflexivity.
Qed.

Lemma addExchange_maxMessages u a m :
  maxMessages (addExchange u a m) = maxMessages m.
Proof.
  unfold addExchange, trimMessages. case (_ <? _)%nat; reflexivity.
Qed.

Lemma addExchanges_maxMessages exchanges m :
  maxMessages (addExchanges exchanges m) = maxMessages m.
Proof.
  revert m. induction exchanges as [|e exchanges IH]; intros m; simpl.
  - reflexivity.
  - unfold addExchanges in *. simpl. rewrite IH. apply addExchange_maxMessages.
Qed.

(** Dropping in two steps what overflows is dropping it at once: the messages
    kept are always the last ones. *)
Lemma drop_overflow_app {A : Type} (N : nat) (l extra : list A) :
  drop (length (drop (length l - N) l ++ extra) - N) (drop (length l - N) l ++ extra)
  = drop (length (l ++ extra) - N) (l ++ extra).
Proof.
  rewrite !length_app, length_drop.
  destruct (decide (length l <= N)) as [Hle|Hgt].
  - replace (length l - N) with 0 by lia. rewrite drop_0.
    f_equal. lia.
  - rewrite <- (drop_app_le l extra (length l - N)) by lia.
    rewrite drop_drop. f_equal. lia.
Qed.

Lemma transcript_cons e exchanges :
  transcript (e :: exchanges)
  = [mkMessage HumanMessage e.1; mkMessage AIMessage e.2] ++ transcript exchanges.
Proof. reflexivity. Qed.

Lemma addExchanges_history exchanges m :
  exchanges <> [] ->
  chatHistory (addExchanges exchanges m)
  = drop (length (chatHistory m ++ transcript exchanges) - maxMessages m)
      (chatHistory m ++ transcript exchanges).
Proof.
  revert m. induction exchanges as [|e exchanges IH]; intros m Hne; [done|].
  destruct exchanges as [|e' exchanges].
  - unfold addExchanges. simpl. rewrite addExchange_history, length_app.
    reflexivity.
  - change (addExchanges (e :: e' :: exchanges) m)
      with (addExchanges (e' :: exchanges) (addExchange e.1 e.2 m)).
    rewrite IH by done.
    rewrite addExchange_maxMessages, addExchange_history.
    rewrite (transcript_cons e), (assoc_L (++) (chatHistory m)).
    replace (length (chatHistory m) + 2)
      with (length (chatHistory m ++ [mkMessage HumanMessage e.1; mkMessage AIMessage e.2]))
      by (rewrite length_app; reflexivity).
    apply drop_overflow_app.
Qed.

End ChatMemoryFacts.

(** C7 (conversation memory is bounded and first-in first-out).
    Whatever the state of a memory manager, after [addExchange] it holds at
    most [maxMessages] messages, and they are the last ones of the old history
    followed by the new user and assistant messages: what is dropped is dropped
    from the front.  A run of exchanges on a new manager of capacity [N]
    leaves exactly the last [N] messages sent (all of them when fewer were
    sent).  With capacity 4 and three earlier exchanges, a fourth exchange
    evicts the messages at positions 0 and 1 and puts the new pair at
    positions 2 and 3. *)
Theorem addExchange_bounded_fifo :
  (forall (R : Type) (m : ChatMemory.ChatMemoryManager R) (u a : string),
      ChatMemory.getMessageCount (ChatMemory.addExchange u a m) <= ChatMemory.maxMessages m
      /\ ChatMemory.getMessages (ChatMemory.addExchange u a m)
         = drop (length (ChatMemory.getMessages m) + 2 - ChatMemory.maxMessages m)
             (ChatMemory.getMessages m
              ++ [ChatMemory.mkMessage ChatMemory.HumanMessage u;
                  ChatMemory.mkMessage ChatMemory.AIMessage a]))
  /\ (forall (R : Type) (N : nat) (id : string) (exchanges : list (string * string)),
        let m : ChatMemory.ChatMemoryManager R :=
          ChatMemory.addExchanges exchanges (ChatMemory.new id (Some N)) in
        ChatMemory.getMessageCount m <= N
        /\ ChatMemory.getMessages m
           = drop (length (ChatMemory.transcript exchanges) - N) (ChatMemory.transcript exchanges))
  /\ (forall (R : Type) (id u1 a1 u2 a2 u3 a3 u4 a4 : string),
        let before : ChatMemory.ChatMemoryManager R :=
          ChatMemory.addExchanges [(u1, a1); (u2, a2); (u3, a3)] (ChatMemory.new id (Some 4)) in
        ChatMemory.getMessages before
        = [ChatMemory.mkMessage ChatMemory.HumanMessage u2;
           ChatMemory.mkMessage ChatMemory.AIMessage a2;
           ChatMemory.mkMessage ChatMemory.HumanMessage u3;
           ChatMemory.mkMessage ChatMemory.AIMessage a3]
        /\ ChatMemory.getMessages (ChatMemory.addExchange u4 a4 before)
           = [ChatMemory.mkMessage ChatMemory.HumanMessage u3;
              ChatMemory.mkMessage ChatMemory.AIMessage a3;
              ChatMemory.mkMessage ChatMemory.HumanMessage u4;
              ChatMemory.mkMessage ChatMemory.AIMessage a4]).
Proof.
  split; [|split].
  - intros R m u a. unfold ChatMemory.getMessageCount, ChatMemory.getMessages.
    rewrite addExchange_history. split; [|reflexivity].
    rewrite length_drop, length_app. simpl. lia.
  - intros R N id exchanges m.
    assert (Hhist : ChatMemory.getMessages m
                    = drop (length (ChatMemory.transcript exchanges) - N)
                        (ChatMemory.transcript exchanges)).
    { subst m. unfold ChatMemory.getMessages.
      destruct exchanges as [|e exchanges]; [reflexivity|].
      rewrite addExchanges_history by done. reflexivity. }
    split; [|exact Hhist].
    unfold ChatMemory.getMessageCount. rewrite Hhist, length_drop. lia.
  - intros R id u1 a1 u2 a2 u3 a3 u4 a4 before. split; reflexivity.
Qed.

(** C8, as the code has it.  [clear] empties the message history and leaves
    the cached results as they were; [clearSearchResults] empties the cached
    results and leaves the history as it was; after both, no message and no
    cached result is left. *)
Theorem clear_keeps_cached_results :
  forall (R : Type) (m : ChatMemory.ChatMemoryManager R),
    (ChatMemory.getMessages (ChatMemory.clear m) = []
     /\ ChatMemory.getLastSearchResults (ChatMemory.clear m) = ChatMemory.getLastSearchResults m
     /\ ChatMemory.hasSearchResults (ChatMemory.clear m) = ChatMemory.hasSearchResults m)
    /\ (ChatMemory.getLastSearchResults (ChatMemory.clearSearchResults m) = []
        /\ ChatMemory.hasSearchResults (ChatMemory.clearSearchResults m) = false
        /\ ChatMemory.getMessages (ChatMemory.clearSearchResults m) = ChatMemory.getMessages m)
    /\ (ChatMemory.getMessages (ChatMemory.clearSearchResults (ChatMemory.clear m)) = []
        /\ ChatMemory.hasSearchResults (ChatMemory.clearSearchResults (ChatMemory.clear m)) = false).
Proof.
  intros R m. repeat split.
Qed.

(** C8 does not hold as stated: a manager holding one message and one cached result
    still has its cached result after [clear]. *)
Lemma clear_leaves_results_cached :
  let m : ChatMemory.ChatMemoryManager nat :=
    ChatMemory.mkManager "c1" 10 [ChatMemory.mkMessage ChatMemory.HumanMessage "hi"] [7] in
  ChatMemory.getMessages (ChatMemory.clear m) = []
  /\ ChatMemory.hasSearchResults (ChatMemory.clear m) = true
  /\ ChatMemory.getLastSearchResults (ChatMemory.clear m) = [7].
Proof.
  repeat split.
Qed.

(** ** Arrays: [find], [sort] *)

Section ArrayFacts.
Context {A : Type}.

Lemma find_first (p : A -> bool) (xs : list A) (x : A) :
  JS.find p xs = Some x <->
  exists before after, xs = before ++ x :: after /\ p x = true /\ Forall (fun y => p y = false) before.
Proof.
  unfold JS.find. split.
  - revert x. induction xs as [|y ys IH]; intros x Hfind; simpl in Hfind; [done|].
    destruct (p y) eqn:Hy.
    + injection Hfind as <-. exists [], ys. repeat split; [done|constructor].
    + destruct (IH x Hfind) as (before & after & -> & Hx & Hbefore).
      exists (y :: before), after. repeat split; [done|]. by constructor.
  - intros (before & after & -> & Hx & Hbefore).
    induction Hbefore as [|y before Hy _ IH]; simpl.
    + by rewrite Hx.
    + by rewrite Hy.
Qed.

Lemma find_none (p : A -> bool) (xs : list A) :
  JS.find p xs = None <-> Forall (fun y => p y = false) xs.
Proof.
  unfold JS.find. induction xs as [|y ys IH]; simpl.
  - split; [constructor|done].
  - destruct (p y) eqn:Hy.
    + split; [done|]. intros H. inversion H; congruence.
    + rewrite IH. split; [by constructor|]. intros H. by inversion H.
Qed.

Lemma find_elem (p : A -> bool) (xs : list A) (x : A) :
  JS.find p xs = Some x -> x ∈ xs /\ p x = true.
Proof.
  intros (before & after & -> & Hx & _)%find_first. split; [|done].
  apply elem_of_app. right. left.
Qed.

Lemma filter_sublist (p : A -> bool) (xs : list A) : sublist (List.filter p xs) xs.
Proof.
  induction xs as [|x xs IH]; simpl; [constructor|].
  destruct (p x); by constructor.
Qed.

Lemma insertSorted_perm (compareFn : A -> A -> Q) (x : A) (xs : list A) :
  JS.insertSorted compareFn x xs ≡ₚ x :: xs.
Proof.
  induction xs as [|y ys IH]; simpl; [done|].
  destruct (compareFn x y ?= 0)%Q; try done.
  rewrite IH. apply Permutation_swap.
Qed.

Lemma sort_perm (compareFn : A -> A -> Q) (xs : list A) :
  JS.sort compareFn xs ≡ₚ xs.
Proof.
  unfold JS.sort. induction xs as [|x xs IH]; simpl; [done|].
  by rewrite insertSorted_perm, IH.
Qed.

Lemma sort_length (compareFn : A -> A -> Q) (xs : list A) :
  length (JS.sort compareFn xs) = length xs.
Proof. by rewrite sort_perm. Qed.

Lemma sort_elem (compareFn : A -> A -> Q) (xs : list A) (x : A) :
  x ∈ JS.sort compareFn xs <-> x ∈ xs.
Proof. by rewrite sort_perm. Qed.

End ArrayFacts.

(** ** Results in descending order of score *)

Section ScoreOrder.

Lemma scoreDesc_trans : Transitive scoreDesc.
Proof. intros a b c Hab Hbc. unfold scoreDesc in *. lra. Qed.

Lemma insertSorted_sorted (x : SearchResultItem) (xs : list SearchResultItem) :
  Sorted scoreDesc xs -> Sorted scoreDesc (JS.insertSorted byScoreDesc x xs).
Proof.
  induction xs as [|y ys IH]; intros Hs; simpl.
  - repeat constructor.
  - apply Sorted_inv in Hs as [Hys Hhd].
    destruct (byScoreDesc x y ?= 0)%Q eqn:Hcmp.
    + constructor; [by constructor|]. constructor.
      apply Qeq_alt in Hcmp. unfold scoreDesc, byScoreDesc in *. lra.
    + constructor; [by constructor|]. constructor.
      apply Qlt_alt in Hcmp. unfold scoreDesc, byScoreDesc in *. lra.
    + apply Qgt_alt in Hcmp.
      constructor; [by apply IH|].
      destruct ys as [|z zs]; simpl.
      * constructor. unfold scoreDesc, byScoreDesc in *. lra.
      * destruct (byScoreDesc x z ?= 0)%Q.
        -- constructor. unfold scoreDesc, byScoreDesc in *. lra.
        -- constructor. unfold scoreDesc, byScoreDesc in *. lra.
        -- constructor. by inversion Hhd.
Qed.

Lemma sort_sortedDesc (xs : list SearchResultItem) :
  sortedDesc (JS.sort byScoreDesc xs).
Proof.
  apply Sorted_StronglySorted; [apply scoreDesc_trans|].
  unfold JS.sort. induction xs as [|x xs IH]; simpl.
  - constructor.
  - by apply insertSorted_sorted.
Qed.

Lemma sortedDesc_take (n : nat) (xs : list SearchResultItem) :
  sortedDesc xs -> sortedDesc (JS.slice0 n xs).
Proof.
  unfold sortedDesc, JS.slice0. revert n.
  induction xs as [|x xs IH]; intros [|n] Hs; simpl; try constructor.
  - apply IH. by inversion Hs.
  - inversion Hs as [|? ? _ Hall]; subst.
    eapply Forall_impl; [|done].
    by apply Forall_take.
Qed.

Lemma slice0_length {A : Type} (n : nat) (xs : list A) :
  length (JS.slice0 n xs) <= n.
Proof. unfold JS.slice0. rewrite length_take. lia. Qed.

End ScoreOrder.

(** ** Conversational filter *)

Section FilterFacts.
Import ConversationalFilter.

Lemma keeps_firstDecision (parsedResponse : FilterResponse) (result : StructuredResult.t) :
  keeps parsedResponse result = true <->
  exists fr, firstDecision (filteredResults parsedResponse) (StructuredResult.name result) fr
             /\ FilteredResult.matches fr = true.
Proof.
  unfold keeps, firstDecision. split.
  - destruct (JS.find _ _) as [fr|] eqn:Hfind; [|done].
    intros Hm. apply find_first in Hfind as (before & after & -> & Hname & Hbefore).
    exists fr. split; [|done]. exists before, after.
    repeat split; [by apply String.eqb_eq|].
    eapply Forall_impl; [done|]. simpl. intros fr' Hfr'. by apply String.eqb_neq.
  - intros (fr & (before & after & Heq & Hname & Hbefore) & Hm).
    assert (Hfind : JS.find
              (fun fr0 => String.eqb (FilteredResult.name fr0) (StructuredResult.name result))
              (filteredResults parsedResponse) = Some fr).
    { apply find_first. exists before, after. repeat split; [done|by apply String.eqb_eq|].
      eapply Forall_impl; [done|]. simpl. intros fr' Hfr'. by apply String.eqb_neq. }
    by rewrite Hfind.
Qed.

Lemma firstDecision_unique_name (decisions : list FilteredResult.t) (n : string)
    (fr : FilteredResult.t) :
  NoDup (map FilteredResult.name decisions) ->
  fr ∈ decisions -> FilteredResult.name fr = n -> firstDecision decisions n fr.
Proof.
  intros Hnodup (before & after & ->)%list_elem_of_split Hname.
  exists before, after. repeat split; [done|].
  rewrite map_app in Hnodup. simpl in Hnodup.
  apply NoDup_app in Hnodup as (_ & Hdisj & _).
  apply Forall_forall. intros fr' Hfr' Heq.
  apply (Hdisj (FilteredResult.name fr')).
  - apply list_elem_of_fmap. by exists fr'.
  - rewrite Heq, <- Hname. left.
Qed.

Lemma filterResults_answered (model : Model) (filterCriteria : string)
    (cachedResults : list StructuredResult.t) (parsedResponse : FilterResponse) :
  answered FilterResponseSchema (model filterCriteria cachedResults) parsedResponse ->
  (filterResults model filterCriteria cachedResults).1
  = List.filter (keeps parsedResponse) cachedResults.
Proof.
  intros (rawJson & Hreply & Hschema). unfold filterResults.
  destruct cachedResults as [|r rs]; [done|].
  by rewrite Hreply, Hschema.
Qed.

Lemma filterResults_failed (model : Model) (filterCriteria : string)
    (cachedResults : list StructuredResult.t) :
  failed FilterResponseSchema (model filterCriteria cachedResults) ->
  (filterResults model filterCriteria cachedResults).1 = cachedResults
  /\ (cachedResults <> [] ->
      (filterResults model filterCriteria cachedResults).2
      = match model filterCriteria cachedResults with
        | InvokeFails message => errorSummary message
        | _ => parseFailureSummary
        end).
Proof.
  unfold failed, filterResults. intros Hfail.
  destruct cachedResults as [|r rs]; [done|].
  destruct (model filterCriteria (r :: rs)) as [message|text|rawJson]; try done.
  by rewrite Hfail.
Qed.

Lemma filterResults_sublist (model : Model) (filterCriteria : string)
    (cachedResults : list StructuredResult.t) :
  sublist (filterResults model filterCriteria cachedResults).1 cachedResults.
Proof.
  unfold filterResults.
  destruct cachedResults as [|r rs]; [simpl; constructor|].
  destruct (model filterCriteria (r :: rs)) as [message|text|rawJson]; try reflexivity.
  destruct (Zod.object _ _) as [parsedResponse|]; [|reflexivity].
  apply (filter_sublist (keeps parsedResponse) (r :: rs)).
Qed.

End FilterFacts.

(** C6, as the code has it.  When the chat model's reply parses against the
    filter's schema, the filter returns the cached results whose first decision
    of the same name has [matches = true], in the order of the cache, with the
    reply's summary.  When no two decisions carry the same name this is: the
    cached results for which a decision of the same name with [matches = true]
    exists. *)
Theorem filterResults_first_decision :
  forall (model : ConversationalFilter.Model) (filterCriteria : string)
         (cachedResults : list StructuredResult.t)
         (parsedResponse : ConversationalFilter.FilterResponse),
    answered ConversationalFilter.FilterResponseSchema
      (model filterCriteria cachedResults) parsedResponse ->
    let decisions := ConversationalFilter.filteredResults parsedResponse in
    let filtered := (ConversationalFilter.filterResults model filterCriteria cachedResults).1 in
    filtered = List.filter (ConversationalFilter.keeps parsedResponse) cachedResults
    /\ sublist filtered cachedResults
    /\ (forall result,
          ConversationalFilter.keeps parsedResponse result = true <->
          exists fr, firstDecision decisions (StructuredResult.name result) fr
                     /\ FilteredResult.matches fr = true)
    /\ (NoDup (map FilteredResult.name decisions) ->
        forall result,
          ConversationalFilter.keeps parsedResponse result = true <->
          exists fr, fr ∈ decisions
                     /\ FilteredResult.name fr = StructuredResult.name result
                     /\ FilteredResult.matches fr = true)
    /\ (cachedResults <> [] ->
        (ConversationalFilter.filterResults model filterCriteria cachedResults).2
        = ConversationalFilter.summary parsedResponse).
Proof.
  intros model filterCriteria cachedResults parsedResponse Hanswered decisions filtered.
  split; [by apply filterResults_answered|].
  split; [apply filterResults_sublist|].
  split; [apply keeps_firstDecision|].
  split.
  - intros Hnodup result. rewrite keeps_firstDecision. split.
    + intros (fr & (before & after & Heq & Hname & _) & Hm).
      exists fr. repeat split; [|done..].
      fold decisions in Heq. rewrite Heq. apply elem_of_app. right. left.
    + intros (fr & Hin & Hname & Hm). exists fr. split; [|done].
      by apply firstDecision_unique_name.
  - intros Hne. destruct Hanswered as (rawJson & Hreply & Hschema).
    unfold ConversationalFilter.filterResults.
    destruct cachedResults as [|r rs]; [done|].
    by rewrite Hreply, Hschema.
Qed.

(** C6 does not hold as stated: the cached result A is left out although the reply
    holds a decision named A with [matches = true], because an earlier decision
    named A says otherwise. *)
Lemma filterResults_later_decision_ignored :
  let cachedResults := [Sample.cached "A" (9 # 10)] in
  let model : ConversationalFilter.Model := fun _ _ => Parsed Sample.twoDecisionsReply in
  Zod.object ConversationalFilter.FilterResponseSchema (Some Sample.twoDecisionsReply)
  = Some (ConversationalFilter.mkResponse
            [FilteredResult.mk "A" "why" false; FilteredResult.mk "A" "why" true] "1 of 1")
  /\ ConversationalFilter.filterResults model "only A" cachedResults = ([], "1 of 1").
Proof.
  split; reflexivity.
Qed.

(** A reply that keeps A and drops B, on a cache holding A and B. *)
Lemma filterResults_first_decision_witness :
  (ConversationalFilter.filterResults (fun _ _ => Parsed Sample.onlyAReply) "only A"
     [Sample.cached "A" (9 # 10); Sample.cached "B" (7 # 10)]).1
  = [Sample.cached "A" (9 # 10)].
Proof.
  pose proof (filterResults_first_decision (fun _ _ => Parsed Sample.onlyAReply) "only A"
                [Sample.cached "A" (9 # 10); Sample.cached "B" (7 # 10)]
                (ConversationalFilter.mkResponse
                   [FilteredResult.mk "A" "why" true; FilteredResult.mk "B" "why" false]
                   "1 of 2")) as H.
  destruct H as [H _].
  - exists Sample.onlyAReply. split; reflexivity.
  - rewrite H. reflexivity.
Defined.

(** ** LLM re-ranker *)

Section RerankerFacts.
Import LLMReranker.

Lemma rerankOne_Some (candidates : list SearchResultItem) (v : ResumeMatch.t)
    (r : SearchResultItem) :
  rerankOne candidates v = Some r ->
  ResumeMatch.matchesCriteria v = true
  /\ exists c,
      JS.find (fun c => String.eqb (name c) (ResumeMatch.name v)) candidates = Some c
      /\ r = mkItem (name c) (email c) (phoneNumber c) (content c)
               (ResumeMatch.relevanceScore v) LlmReranked
               (Some (ResumeMatch.reasoning v)) (ResumeMatch.extractedInfo v) (llmAnalysis c).
Proof.
  unfold rerankOne. destruct (ResumeMatch.matchesCriteria v); simpl; [|done].
  destruct (JS.find _ _) as [c|]; [|done].
  intros [= <-]. split; [done|]. by exists c.
Qed.

Lemma rerankOne_contributes (candidates : list SearchResultItem) (v : ResumeMatch.t) :
  contributes candidates v = true <-> is_Some (rerankOne candidates v).
Proof.
  unfold contributes, rerankOne.
  destruct (ResumeMatch.matchesCriteria v); simpl; [|split; [done|by intros [? ?]]].
  destruct (JS.find _ _) as [c|] eqn:Hfind.
  - split; [by eexists|]. intros _.
    apply find_elem in Hfind as [Hin Hname].
    apply existsb_exists. exists c. split; [by apply list_elem_of_In|done].
  - split; [|by intros [? ?]]. intros (c & Hin & Hname)%existsb_exists.
    apply find_none in Hfind.
    rewrite Forall_forall in Hfind. apply list_elem_of_In in Hin.
    specialize (Hfind c Hin). simpl in Hfind. congruence.
Qed.

(** Every contributing verdict yields exactly one result, under the name and
    with the score the verdict gives. *)
Lemma rerankOne_verdicts (candidates : list SearchResultItem) (verdicts : list ResumeMatch.t) :
  map (fun r => (name r, score r)) (omap (rerankOne candidates) verdicts)
  = map (fun v => (ResumeMatch.name v, ResumeMatch.relevanceScore v))
      (List.filter (contributes candidates) verdicts).
Proof.
  induction verdicts as [|v verdicts IH]; [done|].
  cbn [omap list_omap List.filter].
  destruct (rerankOne candidates v) as [r|] eqn:Hone.
  - assert (Hc : contributes candidates v = true)
      by (apply rerankOne_contributes; by eexists).
    rewrite Hc. cbn [map]. rewrite IH. f_equal.
    apply rerankOne_Some in Hone as (_ & c & Hfind & ->). simpl.
    apply find_elem in Hfind as [_ Hname]. apply String.eqb_eq in Hname.
    by rewrite Hname.
  - destruct (contributes candidates v) eqn:Hc; [|exact IH].
    apply rerankOne_contributes in Hc as [r Hr]. congruence.
Qed.

Lemma number01_range (v : option Json.value) (q : Q) :
  Zod.number01 v = Some q -> (0 <= q <= 1)%Q.
Proof.
  unfold Zod.number01. destruct v as [[| |q'| | |]|]; try done.
  destruct (Qle_bool 0 q') eqn:H0; simpl; [|done].
  destruct (Qle_bool q' 1) eqn:H1; simpl; [|done].
  intros [= <-]. split; by apply Qle_bool_iff.
Qed.

Lemma ResumeMatchSchema_range (v : option Json.value) (m : ResumeMatch.t) :
  Zod.object ResumeMatchSchema v = Some m ->
  (0 <= ResumeMatch.relevanceScore m <= 1)%Q.
Proof.
  unfold Zod.object, ResumeMatchSchema.
  destruct v as [[| | | | |fields]|]; try done.
  destruct (Zod.string_ (Json.lookup "name" fields)) as [n|]; simpl; [|done].
  destruct (Zod.number01 (Json.lookup "relevanceScore" fields)) as [q|] eqn:Hq; simpl; [|done].
  destruct (Zod.string_ (Json.lookup "reasoning" fields)) as [r|]; simpl; [|done].
  destruct (Zod.boolean (Json.lookup "matchesCriteria" fields)) as [b|]; simpl; [|done].
  destruct (Zod.optional _ _) as [e|]; simpl; [|done].
  intros [= <-]. simpl. by apply number01_range in Hq.
Qed.

Lemma LLMRerankResponseSchema_range (rawJson : Json.value) (parsedResponse : LLMRerankResponse) :
  Zod.object LLMRerankResponseSchema (Some rawJson) = Some parsedResponse ->
  Forall (fun m => (0 <= ResumeMatch.relevanceScore m <= 1)%Q) (matches parsedResponse).
Proof.
  unfold Zod.object at 1, LLMRerankResponseSchema.
  destruct rawJson as [| | | | |fields]; try done.
  destruct (Zod.array _ _) as [ms|] eqn:Hms; simpl; [|done].
  destruct (Zod.string_ _) as [sm|]; simpl; [|done].
  intros [= <-]. simpl.
  unfold Zod.array in Hms. destruct (Json.lookup "matches" fields) as [[| | | |items|]|]; try done.
  apply mapM_Some in Hms.
  eapply Forall2_Forall_r; [exact Hms|].
  apply Forall_forall. intros item _ m Hm. by apply ResumeMatchSchema_range in Hm.
Qed.

Lemma rerankAndFilter_answered (model : Model) (query : string)
    (candidates : list SearchResultItem) (parsedResponse : LLMRerankResponse) :
  candidates <> [] ->
  answered LLMRerankResponseSchema (model query candidates) parsedResponse ->
  rerankAndFilter model query candidates
  = mkOutput (JS.sort byScoreDesc (omap (rerankOne candidates) (matches parsedResponse)))
      (summary parsedResponse) (matches parsedResponse).
Proof.
  intros Hne (rawJson & Hreply & Hschema). unfold rerankAndFilter.
  destruct candidates as [|c cs]; [done|].
  by rewrite Hreply, Hschema.
Qed.

Lemma rerankAndFilter_failed (model : Model) (query : string)
    (candidates : list SearchResultItem) :
  failed LLMRerankResponseSchema (model query candidates) ->
  results (rerankAndFilter model query candidates) = candidates
  /\ map ResumeMatch.name (llmAnalysis_matches (rerankAndFilter model query candidates))
     = map name candidates
  /\ (candidates <> [] ->
      llmAnalysis_summary (rerankAndFilter model query candidates)
      = match model query candidates with
        | InvokeFails message => errorSummary message
        | _ => parseFailureSummary
        end).
Proof.
  unfold failed, rerankAndFilter. intros Hfail.
  destruct candidates as [|c cs]; [done|].
  destruct (model query (c :: cs)) as [message|text|rawJson];
    [| |rewrite Hfail]; cbn [results llmAnalysis_matches llmAnalysis_summary];
    (repeat split; unfold fallbackMatches; rewrite map_map; done).
Qed.

End RerankerFacts.

(** A reply either fails or is read as some parsed response. *)
Lemma reply_failed_or_answered {A : Type} (schema : list (string * Json.value) -> option A)
    (reply : ModelReply) :
  failed schema reply \/ exists parsed, answered schema reply parsed.
Proof.
  destruct reply as [message|text|rawJson]; [by left..|].
  destruct (Zod.object schema (Some rawJson)) as [parsed|] eqn:Hschema.
  - right. exists parsed, rawJson. by split.
  - by left.
Qed.

(** Scores and order of the results of a reply that parses. *)
Lemma rerankAndFilter_parsed_reply_facts (model : LLMReranker.Model) (query : string)
    (candidates : list SearchResultItem) (parsedResponse : LLMReranker.LLMRerankResponse) :
  candidates <> [] ->
  answered LLMReranker.LLMRerankResponseSchema (model query candidates) parsedResponse ->
  Forall scoreIn01 (LLMReranker.results (LLMReranker.rerankAndFilter model query candidates))
  /\ sortedDesc (LLMReranker.results (LLMReranker.rerankAndFilter model query candidates)).
Proof.
  intros Hne Hanswered.
  rewrite (rerankAndFilter_answered _ _ _ _ Hne Hanswered). simpl.
  split; [|apply sort_sortedDesc].
  rewrite sort_perm. destruct Hanswered as (rawJson & _ & Hschema).
  apply LLMRerankResponseSchema_range in Hschema. rewrite Forall_forall in Hschema.
  apply Forall_forall. intros r (v & Hv & Hone)%list_elem_of_omap.
  apply rerankOne_Some in Hone as (_ & c & _ & ->).
  unfold scoreIn01. simpl. by apply Hschema.
Qed.

(** C3, as the code has it.  Whatever the candidates and the reply of the
    chat model, every returned item is one of the input candidates: it has the
    name, email, phone and content of a candidate of the list.  When moreover
    the candidate list is not empty and the reply parses against the
    re-ranker's schema: every returned item is a candidate that a verdict with
    [matchesCriteria = true] names, with the verdict's [relevanceScore] as
    score, its reasoning and extracted info, and match type llm-reranked; the
    returned items are, one for one, the verdicts that match and name an input
    candidate (a verdict naming no candidate is ignored); scores lie in [0,1];
    the list is in descending order of score; the analysis returned is the
    reply's. *)
Theorem rerankAndFilter_returns_candidates :
  forall (model : LLMReranker.Model) (query : string)
         (candidates : list SearchResultItem),
    let output := LLMReranker.rerankAndFilter model query candidates in
    Forall (fun r =>
              exists c,
                c ∈ candidates
                /\ name r = name c /\ email r = email c
                /\ phoneNumber r = phoneNumber c /\ content r = content c)
      (LLMReranker.results output)
    /\ (forall parsedResponse : LLMReranker.LLMRerankResponse,
          candidates <> [] ->
          answered LLMReranker.LLMRerankResponseSchema (model query candidates) parsedResponse ->
          let verdicts := LLMReranker.matches parsedResponse in
          Forall (fun r =>
                    exists c v,
                      c ∈ candidates /\ v ∈ verdicts
                      /\ ResumeMatch.matchesCriteria v = true
                      /\ ResumeMatch.name v = name c
                      /\ name r = name c
                      /\ score r = ResumeMatch.relevanceScore v
                      /\ matchType r = LlmReranked
                      /\ llmReasoning r = Some (ResumeMatch.reasoning v)
                      /\ extractedInfo r = ResumeMatch.extractedInfo v)
            (LLMReranker.results output)
          /\ map (fun r => (name r, score r)) (LLMReranker.results output)
             ≡ₚ map (fun v => (ResumeMatch.name v, ResumeMatch.relevanceScore v))
                  (List.filter (contributes candidates) verdicts)
          /\ Forall scoreIn01 (LLMReranker.results output)
          /\ sortedDesc (LLMReranker.results output)
          /\ LLMReranker.llmAnalysis_summary output = LLMReranker.summary parsedResponse
          /\ LLMReranker.llmAnalysis_matches output = verdicts).
Proof.
  intros model query candidates output. split.
  - (* any reply: the fallbacks return the input, a parsed reply picks from it *)
    destruct (reply_failed_or_answered LLMReranker.LLMRerankResponseSchema (model query candidates))
      as [Hfailed|[parsed Hanswered]].
    + subst output. destruct (rerankAndFilter_failed model query candidates Hfailed) as [-> _].
      apply Forall_forall. intros r Hr. by exists r.
    + destruct candidates as [|c0 cs]; [constructor|].
      subst output. rewrite (rerankAndFilter_answered model query (c0 :: cs) parsed); [|done..].
      cbn [LLMReranker.results]. rewrite sort_perm.
      apply Forall_forall. intros r (v & Hv & Hone)%list_elem_of_omap.
      apply rerankOne_Some in Hone as (_ & c & Hfind & ->).
      apply find_elem in Hfind as [Hc _]. by exists c.
  - intros parsedResponse Hne Hanswered verdicts.
    destruct (rerankAndFilter_parsed_reply_facts model query candidates parsedResponse
                Hne Hanswered) as [Hin01 Hsorted].
    subst output. rewrite (rerankAndFilter_answered _ _ _ _ Hne Hanswered) in *.
    cbn [LLMReranker.results LLMReranker.llmAnalysis_summary LLMReranker.llmAnalysis_matches] in *.
    split; [|split; [|done]].
    + rewrite sort_perm.
      apply Forall_forall. intros r (v & Hv & Hone)%list_elem_of_omap.
      apply rerankOne_Some in Hone as (Hm & c & Hfind & ->).
      apply find_elem in Hfind as [Hc Hname]. apply String.eqb_eq in Hname.
      exists c, v. by repeat split.
    + rewrite sort_perm. by rewrite rerankOne_verdicts.
Qed.

(** Scenario 4 of the specification: of A, B and C the reply keeps A (0.9)
    and C (0.7). *)
Lemma rerankAndFilter_returns_candidates_witness :
  map (fun r => (name r, score r, matchType r))
    (LLMReranker.results
       (LLMReranker.rerankAndFilter (fun _ _ => Parsed Sample.strictReply)
          "QA engineers in Bengaluru" Sample.candidatesABC))
  ≡ₚ [("A", (9 # 10)%Q, LlmReranked); ("C", (7 # 10)%Q, LlmReranked)]
  /\ sortedDesc
       (LLMReranker.results
          (LLMReranker.rerankAndFilter (fun _ _ => Parsed Sample.strictReply)
             "QA engineers in Bengaluru" Sample.candidatesABC)).
Proof.
  pose proof (proj2 (rerankAndFilter_returns_candidates (fun _ _ => Parsed Sample.strictReply)
                       "QA engineers in Bengaluru" Sample.candidatesABC)
                (LLMReranker.mkResponse
                   [ResumeMatch.mk "A" (9 # 10) "why" true None;
                    ResumeMatch.mk "B" (2 # 10) "why" false None;
                    ResumeMatch.mk "C" (7 # 10) "why" true None] "2 of 3")) as H.
  destruct H as (_ & _ & _ & Hsorted & _).
  - discriminate.
  - exists Sample.strictReply. split; reflexivity.
  - split; [reflexivity|exact Hsorted].
Defined.

(** C3 does not hold as stated: when the reply is no JSON the re-ranker returns its
    input, so the items returned keep their match type and their order, here
    an ascending one. *)
Lemma rerankAndFilter_prose_reply_keeps_input :
  let candidates := [Sample.item "A" (2 # 10) Hybrid "resume of A";
                     Sample.item "B" (9 # 10) Hybrid "resume of B"] in
  let output := LLMReranker.rerankAndFilter (fun _ _ => Sample.proseReply) "top candidates" candidates in
  LLMReranker.results output = candidates
  /\ map matchType (LLMReranker.results output) = [Hybrid; Hybrid]
  /\ map score (LLMReranker.results output) = [(2 # 10)%Q; (9 # 10)%Q]
  /\ (2 # 10 < 9 # 10)%Q.
Proof.
  repeat split.
Qed.

(** C4 (no candidate is dropped when the chat model fails).  When the call to
    the model rejects, or its reply is no JSON or does not conform to the
    schema, the re-ranker returns its candidates as they are, with one verdict
    per candidate that keeps the candidate's score and says that the analysis
    failed, and the filter returns the cached results as they are.  The
    summary tells of the fallback: for the re-ranker "Failed to parse LLM
    response. Returning original vector search results without filtering."
    or "Error during LLM analysis: ", the error message, ". Returning
    unfiltered results."; for the filter "Failed to parse filter response.
    Returning all cached results." or "Error during filtering: " and the error
    message.  For an empty input no call is made, and the summary says that
    there was nothing to analyze or to filter. *)
Theorem llm_failure_keeps_all_candidates :
  forall (rerankModel : LLMReranker.Model) (filterModel : ConversationalFilter.Model)
         (query filterCriteria : string)
         (candidates : list SearchResultItem) (cachedResults : list StructuredResult.t),
    (failed LLMReranker.LLMRerankResponseSchema (rerankModel query candidates) ->
     let output := LLMReranker.rerankAndFilter rerankModel query candidates in
     LLMReranker.results output = candidates
     /\ (candidates <> [] ->
         LLMReranker.llmAnalysis_summary output
         = match rerankModel query candidates with
           | InvokeFails message =>
               "Error during LLM analysis: " +:+ message +:+ ". Returning unfiltered results."
           | _ =>
               "Failed to parse LLM response. Returning original vector search results without filtering."
           end
         /\ LLMReranker.llmAnalysis_matches output
            = map (fun c =>
                     ResumeMatch.mk (name c) (score c)
                       match rerankModel query candidates with
                       | InvokeFails _ => "Error during LLM analysis - score from vector search"
                       | _ => "LLM parsing failed - using original vector search score"
                       end
                       true None)
                candidates)
     /\ (candidates = [] ->
         LLMReranker.llmAnalysis_summary output = "No candidates to analyze"))
    /\ (failed ConversationalFilter.FilterResponseSchema (filterModel filterCriteria cachedResults) ->
        let output := ConversationalFilter.filterResults filterModel filterCriteria cachedResults in
        output.1 = cachedResults
        /\ (cachedResults <> [] ->
            output.2
            = match filterModel filterCriteria cachedResults with
              | InvokeFails message => "Error during filtering: " +:+ message
              | _ => "Failed to parse filter response. Returning all cached results."
              end)
        /\ (cachedResults = [] -> output.2 = "No cached results to filter")).
Proof.
  intros rerankModel filterModel query filterCriteria candidates cachedResults. split.
  - intros Hfail output. subst output. unfold LLMReranker.rerankAndFilter.
    destruct candidates as [|c cs]; [by repeat split|].
    destruct (rerankModel query (c :: cs)) as [message|responseText|rawJson];
      [by repeat split..|].
    cbn [failed] in Hfail. rewrite Hfail. by repeat split.
  - intros Hfail output. subst output. unfold ConversationalFilter.filterResults.
    destruct cachedResults as [|r rs]; [by repeat split|].
    destruct (filterModel filterCriteria (r :: rs)) as [message|responseText|rawJson];
      [by repeat split..|].
    cbn [failed] in Hfail. rewrite Hfail. by repeat split.
Qed.

(** Scenario 5 of the specification (a reply in prose to the re-ranker), and
    a filter whose call to the model times out. *)
Lemma llm_failure_keeps_all_candidates_witness :
  let candidates := [Sample.item "A" (78 # 100) Hybrid "resume of A";
                     Sample.item "B" (12 # 100) Hybrid "resume of B"] in
  let cachedResults := [Sample.cached "A" (9 # 10); Sample.cached "B" (7 # 10)] in
  LLMReranker.results
    (LLMReranker.rerankAndFilter (fun _ _ => Sample.proseReply) "top candidates" candidates)
  = candidates
  /\ LLMReranker.llmAnalysis_summary
       (LLMReranker.rerankAndFilter (fun _ _ => Sample.proseReply) "top candidates" candidates)
     = "Failed to parse LLM response. Returning original vector search results without filtering."
  /\ (ConversationalFilter.filterResults (fun _ _ => InvokeFails "timeout")
        "only those in Bengaluru" cachedResults)
     = (cachedResults, "Error during filtering: timeout").
Proof.
  intros candidates cachedResults.
  destruct (llm_failure_keeps_all_candidates
              (fun _ _ => Sample.proseReply) (fun _ _ => InvokeFails "timeout")
              "top candidates" "only those in Bengaluru" candidates cachedResults)
    as [Hrerank Hfilter].
  destruct (Hrerank I) as (Hkept & Hsummary & _).
  destruct (Hfilter I) as (Hall & Hnotice & _).
  split; [exact Hkept|]. split.
  - apply Hsummary. discriminate.
  - apply injective_projections; [exact Hall|].
    apply Hnotice. discriminate.
Defined.

(** ** Insertion-ordered maps *)

Section MapFacts.
Context {V : Type}.
Implicit Types (m : JS.Map V) (key : string) (v : V).

Lemma Map_get_set_eq key v m : JS.Map_get key (JS.Map_set key v m) = Some v.
Proof.
  induction m as [|[k v'] m IH]; simpl.
  - by rewrite String.eqb_refl.
  - destruct (String.eqb key k) eqn:Hk; simpl; rewrite Hk; [done|exact IH].
Qed.

Lemma Map_get_set_ne key key' v m :
  key <> key' -> JS.Map_get key' (JS.Map_set key v m) = JS.Map_get key' m.
Proof.
  intros Hne. induction m as [|[k v'] m IH]; simpl.
  - by apply String.eqb_neq in Hne; rewrite String.eqb_sym, Hne.
  - destruct (String.eqb key k) eqn:Hk; simpl.
    + apply String.eqb_eq in Hk as <-.
      apply String.eqb_neq in Hne. by rewrite String.eqb_sym, Hne.
    + by rewrite IH.
Qed.

Lemma Map_get_elem key v m : JS.Map_get key m = Some v -> (key, v) ∈ m.
Proof.
  induction m as [|[k v'] m IH]; simpl; [done|].
  destruct (String.eqb key k) eqn:Hk.
  - apply String.eqb_eq in Hk as <-. intros [= <-]. left.
  - intros H. right. by apply IH.
Qed.

(** An entry of [m.set(key, v)] is the one set or an entry of [m]. *)
Lemma Map_set_elem key v m key' v' :
  (key', v') ∈ JS.Map_set key v m -> (key' = key /\ v' = v) \/ (key', v') ∈ m.
Proof.
  induction m as [|[k w] m IH]; simpl.
  - intros Hin%list_elem_of_singleton. injection Hin as -> ->. by left.
  - destruct (String.eqb key k) eqn:Hk.
    + apply String.eqb_eq in Hk as <-.
      intros [Heq|Hin]%elem_of_cons.
      * injection Heq as -> ->. by left.
      * right. by right.
    + intros [Heq|Hin]%elem_of_cons.
      * right. rewrite Heq. left.
      * destruct (IH Hin) as [?|?]; [by left|]. right. by right.
Qed.

Lemma Map_set_keys key v m :
  map fst (JS.Map_set key v m)
  = if JS.Map_has key m then map fst m else map fst m ++ [key].
Proof.
  unfold JS.Map_has. induction m as [|[k w] m IH]; simpl; [done|].
  destruct (String.eqb key k) eqn:Hk; simpl; [done|].
  rewrite IH. by destruct (JS.Map_get key m).
Qed.

Lemma Map_get_None_keys key m : JS.Map_get key m = None -> key ∉ map fst m.
Proof.
  induction m as [|[k w] m IH]; simpl.
  - intros _. apply not_elem_of_nil.
  - destruct (String.eqb key k) eqn:Hk; [done|].
    intros H. apply not_elem_of_cons. split; [by apply String.eqb_neq|by apply IH].
Qed.

Lemma Map_set_NoDup key v m :
  NoDup (map fst m) -> NoDup (map fst (JS.Map_set key v m)).
Proof.
  intros Hnd. rewrite Map_set_keys. unfold JS.Map_has.
  destruct (JS.Map_get key m) eqn:Hget; [done|].
  apply NoDup_app. repeat split; [done| |apply NoDup_singleton].
  intros k Hk ->%list_elem_of_singleton. by apply Map_get_None_keys in Hget.
Qed.

Lemma Map_values_elem v m : v ∈ JS.Map_values m <-> exists key, (key, v) ∈ m.
Proof.
  unfold JS.Map_values. rewrite list_elem_of_fmap. split.
  - intros ([k w] & -> & Hin). by exists k.
  - intros (k & Hin). by exists (k, v).
Qed.

End MapFacts.

(** ** Hybrid engine: [mergeResults] *)

Section MergeFacts.
Import HybridSearchEngine.
Variable config : HybridSearchConfig.
Implicit Types (m : JS.Map SearchResultItem) (n : string).


Lemma addVector_get_eq m (v : SearchResultItem) :
  JS.Map_get (name v) (addVector config m v)
  = Some (withScore v (score v * vectorWeight config)%Q Hybrid).
Proof. apply Map_get_set_eq. Qed.

Lemma addVector_get_ne m (v : SearchResultItem) n :
  name v <> n -> JS.Map_get n (addVector config m v) = JS.Map_get n m.
Proof. apply Map_get_set_ne. Qed.

Lemma addKeyword_get_eq m (k : SearchResultItem) :
  JS.Map_get (name k) (addKeyword config m k)
  = Some (match JS.Map_get (name k) m with
          | Some existing => combined config existing k
          | None => withScore k (score k * keywordWeight config)%Q Hybrid
          end).
Proof.
  unfold addKeyword. destruct (JS.Map_get (name k) m); apply Map_get_set_eq.
Qed.

Lemma addKeyword_get_ne m (k : SearchResultItem) n :
  name k <> n -> JS.Map_get n (addKeyword config m k) = JS.Map_get n m.
Proof.
  intros Hne. unfold addKeyword.
  destruct (JS.Map_get (name k) m); by apply Map_get_set_ne.
Qed.

Lemma foldl_addVector_other (vs : list SearchResultItem) m n :
  n ∉ map name vs -> JS.Map_get n (foldl (addVector config) m vs) = JS.Map_get n m.
Proof.
  revert m. induction vs as [|v vs IH]; intros m Hn; simpl; [done|].
  simpl in Hn. apply not_elem_of_cons in Hn as [Hne Hn].
  rewrite IH by done. by apply addVector_get_ne.
Qed.

Lemma foldl_addVector_get (vs : list SearchResultItem) m (v : SearchResultItem) :
  NoDup (map name vs) -> v ∈ vs ->
  JS.Map_get (name v) (foldl (addVector config) m vs)
  = Some (withScore v (score v * vectorWeight config)%Q Hybrid).
Proof.
  revert m. induction vs as [|x vs IH]; intros m Hnd Hin; [by apply elem_of_nil in Hin|].
  simpl in Hnd. apply NoDup_cons in Hnd as [Hx Hnd]. simpl.
  apply elem_of_cons in Hin as [-> | Hin].
  - rewrite foldl_addVector_other by done. apply addVector_get_eq.
  - by apply IH.
Qed.

Lemma foldl_addKeyword_other (ks : list SearchResultItem) m n :
  n ∉ map name ks -> JS.Map_get n (foldl (addKeyword config) m ks) = JS.Map_get n m.
Proof.
  revert m. induction ks as [|k ks IH]; intros m Hn; simpl; [done|].
  simpl in Hn. apply not_elem_of_cons in Hn as [Hne Hn].
  rewrite IH by done. by apply addKeyword_get_ne.
Qed.

Lemma foldl_addKeyword_get (ks : list SearchResultItem) m (k : SearchResultItem) :
  NoDup (map name ks) -> k ∈ ks ->
  JS.Map_get (name k) (foldl (addKeyword config) m ks)
  = Some (match JS.Map_get (name k) m with
          | Some existing => combined config existing k
          | None => withScore k (score k * keywordWeight config)%Q Hybrid
          end).
Proof.
  revert m. induction ks as [|x ks IH]; intros m Hnd Hin; [by apply elem_of_nil in Hin|].
  simpl in Hnd. apply NoDup_cons in Hnd as [Hx Hnd]. simpl.
  apply elem_of_cons in Hin as [-> | Hin].
  - rewrite foldl_addKeyword_other by done. apply addKeyword_get_eq.
  - rewrite IH by done.
    rewrite addKeyword_get_ne; [done|].
    intros Heq. apply Hx. rewrite Heq. apply list_elem_of_fmap. by exists k.
Qed.

Lemma Map_set_wellKeyed m (x : SearchResultItem) :
  wellKeyed m -> wellKeyed (JS.Map_set (name x) x m).
Proof.
  intros [Hnd Hkeyed]. split; [by apply Map_set_NoDup|].
  apply Forall_forall. intros [k e] Hin. simpl.
  apply Map_set_elem in Hin as [[-> ->]|Hin]; [done|].
  unfold keyedByName in Hkeyed. rewrite Forall_forall in Hkeyed. by apply (Hkeyed (k, e)).
Qed.

Lemma addVector_wellKeyed m (v : SearchResultItem) :
  wellKeyed m -> wellKeyed (addVector config m v).
Proof.
  intros Hm. unfold addVector.
  by apply (Map_set_wellKeyed m (withScore v (score v * vectorWeight config)%Q Hybrid)).
Qed.

Lemma addKeyword_wellKeyed m (k : SearchResultItem) :
  wellKeyed m -> wellKeyed (addKeyword config m k).
Proof.
  intros Hm. unfold addKeyword.
  destruct (JS.Map_get (name k) m) as [existing|] eqn:Hget.
  - assert (Hname : name existing = name k).
    { apply Map_get_elem in Hget. destruct Hm as [_ Hkeyed].
      unfold keyedByName in Hkeyed. rewrite Forall_forall in Hkeyed.
      by apply (Hkeyed (name k, existing)). }
    rewrite <- Hname.
    by apply (Map_set_wellKeyed m
                (mkItem (name existing) (email existing) (phoneNumber existing) _ _
                   (matchType existing) (llmReasoning existing) (extractedInfo existing)
                   (llmAnalysis existing))).
  - by apply (Map_set_wellKeyed m (withScore k (score k * keywordWeight config)%Q Hybrid)).
Qed.

Lemma foldl_wellKeyed (step : JS.Map SearchResultItem -> SearchResultItem -> JS.Map SearchResultItem)
    (xs : list SearchResultItem) m :
  (forall m x, wellKeyed m -> wellKeyed (step m x)) ->
  wellKeyed m -> wellKeyed (foldl step m xs).
Proof.
  intros Hstep. revert m. induction xs as [|x xs IH]; intros m Hm; simpl; [done|].
  apply IH. by apply Hstep.
Qed.

Lemma wellKeyed_values_NoDup m : wellKeyed m -> NoDup (map name (JS.Map_values m)).
Proof.
  intros [Hnd Hkeyed]. unfold JS.Map_values. rewrite map_map.
  replace (map (fun x => name x.2) m) with (map fst m); [done|].
  unfold keyedByName in Hkeyed.
  induction Hkeyed as [|[k e] m Hke _ IH]; simpl; [done|].
  simpl in Hke. rewrite Hke. f_equal. apply IH. simpl in Hnd. by apply NoDup_cons in Hnd as [_ ?].
Qed.

Lemma Map_get_value n (e : SearchResultItem) m :
  JS.Map_get n m = Some e -> e ∈ JS.Map_values m.
Proof. intros Hget%Map_get_elem. apply Map_values_elem. by exists n. Qed.

(** Keys come from the results merged. *)
Lemma foldl_addVector_keys (vs : list SearchResultItem) m key :
  key ∈ map fst (foldl (addVector config) m vs) -> key ∈ map fst m \/ key ∈ map name vs.
Proof.
  revert m. induction vs as [|v vs IH]; intros m; simpl; [by left|].
  intros [Hin|Hin]%IH; [|right; by right].
  unfold addVector in Hin. rewrite Map_set_keys in Hin.
  destruct (JS.Map_has _ _); [by left|].
  apply elem_of_app in Hin as [? | ->%list_elem_of_singleton]; [by left|right; left].
Qed.

Lemma foldl_addKeyword_keys (ks : list SearchResultItem) m key :
  key ∈ map fst (foldl (addKeyword config) m ks) -> key ∈ map fst m \/ key ∈ map name ks.
Proof.
  revert m. induction ks as [|k ks IH]; intros m; simpl; [by left|].
  intros [Hin|Hin]%IH; [|right; by right].
  unfold addKeyword in Hin.
  destruct (JS.Map_get (name k) m); rewrite Map_set_keys in Hin;
    (destruct (JS.Map_has _ _); [by left|]);
    (apply elem_of_app in Hin as [? | ->%list_elem_of_singleton]; [by left|right; left]).
Qed.

End MergeFacts.

(** C1, as the code has it.  When no name occurs twice in the vector list and
    none twice in the keyword list, the merge holds exactly one entry per name
    met, and: a name present in both lists gets the score
    [v.score * w_v + k.score * w_k] and the longer of the two snippets (the
    vector one when equally long); a name only in the vector list gets
    [v.score * w_v]; a name only in the keyword list gets [k.score * w_k].
    Scores are exact rationals, so the equalities hold without tolerance. *)
Theorem mergeResults_scores :
  forall (config : HybridSearchEngine.HybridSearchConfig)
         (vectorResults keywordResults : list SearchResultItem),
    NoDup (map name vectorResults) ->
    NoDup (map name keywordResults) ->
    let merged := HybridSearchEngine.mergeResults config vectorResults keywordResults in
    let w_v := HybridSearchEngine.vectorWeight config in
    let w_k := HybridSearchEngine.keywordWeight config in
    NoDup (map name merged)
    /\ (forall e, e ∈ merged ->
          name e ∈ map name vectorResults \/ name e ∈ map name keywordResults)
    /\ (forall v k, v ∈ vectorResults -> k ∈ keywordResults -> name v = name k ->
          exists e, e ∈ merged /\ name e = name v
                    /\ score e = (score v * w_v + score k * w_k)%Q
                    /\ content e = longer (content v) (content k)
                    /\ matchType e = Hybrid)
    /\ (forall v, v ∈ vectorResults -> name v ∉ map name keywordResults ->
          exists e, e ∈ merged /\ name e = name v
                    /\ score e = (score v * w_v)%Q
                    /\ content e = content v /\ matchType e = Hybrid)
    /\ (forall k, k ∈ keywordResults -> name k ∉ map name vectorResults ->
          exists e, e ∈ merged /\ name e = name k
                    /\ score e = (score k * w_k)%Q
                    /\ content e = content k /\ matchType e = Hybrid).
Proof.
  intros config vectorResults keywordResults Hv Hk merged w_v w_k.
  subst merged. unfold HybridSearchEngine.mergeResults.
  set (m1 := foldl (HybridSearchEngine.addVector config) [] vectorResults).
  set (m2 := foldl (HybridSearchEngine.addKeyword config) m1 keywordResults).
  assert (Hm1 : wellKeyed m1).
  { apply foldl_wellKeyed; [apply addVector_wellKeyed|]. split; [constructor|constructor]. }
  assert (Hm2 : wellKeyed m2).
  { apply foldl_wellKeyed; [apply addKeyword_wellKeyed|done]. }
  split; [by apply wellKeyed_values_NoDup|].
  split.
  { intros e (key & Hin)%Map_values_elem.
    assert (Hname : name e = key).
    { destruct Hm2 as [_ Hkeyed]. unfold keyedByName in Hkeyed.
      rewrite Forall_forall in Hkeyed. by apply (Hkeyed (key, e)). }
    assert (Hkey : key ∈ map fst m2) by (apply list_elem_of_fmap; by exists (key, e)).
    rewrite Hname.
    apply foldl_addKeyword_keys in Hkey as [Hkey|Hkey]; [|by right].
    apply foldl_addVector_keys in Hkey as [Hkey|Hkey]; [|by left].
    by apply elem_of_nil in Hkey. }
  split; [|split].
  - intros v k Hvin Hkin Hname.
    assert (Hget : JS.Map_get (name k) m2
                   = Some (combined config (withScore v (score v * w_v)%Q Hybrid) k)).
    { subst m2. rewrite foldl_addKeyword_get by done.
      subst m1. rewrite <- Hname. by rewrite foldl_addVector_get. }
    eexists. split; [by eapply Map_get_value|]. by repeat split.
  - intros v Hvin Hnotin.
    assert (Hget : JS.Map_get (name v) m2 = Some (withScore v (score v * w_v)%Q Hybrid)).
    { subst m2. rewrite foldl_addKeyword_other by done.
      subst m1. by apply foldl_addVector_get. }
    eexists. split; [by eapply Map_get_value|]. by repeat split.
  - intros k Hkin Hnotin.
    assert (Hget : JS.Map_get (name k) m2 = Some (withScore k (score k * w_k)%Q Hybrid)).
    { subst m2. rewrite foldl_addKeyword_get by done.
      subst m1. by rewrite foldl_addVector_other. }
    eexists. split; [by eapply Map_get_value|]. by repeat split.
Qed.

(** Scenario 3 of the specification: keyword [(A, 0.5), (B, 0.4)], vector
    [(A, 0.9), (C, 0.7)], weights 0.7 and 0.3. *)
Lemma mergeResults_scores_witness :
  exists e, e ∈ HybridSearchEngine.mergeResults (HybridSearchEngine.mkConfig (7 # 10) (3 # 10))
                  [Sample.item "A" (9 # 10) Vector "vector snippet of A";
                   Sample.item "C" (7 # 10) Vector "vector snippet of C"]
                  [Sample.item "A" (5 # 10) Keyword "a longer keyword snippet of A";
                   Sample.item "B" (4 # 10) Keyword "keyword snippet of B"]
            /\ name e = "A"
            /\ score e = ((9 # 10) * (7 # 10) + (5 # 10) * (3 # 10))%Q
            /\ (score e == 78 # 100)%Q
            /\ content e = "a longer keyword snippet of A".
Proof.
  pose proof (mergeResults_scores (HybridSearchEngine.mkConfig (7 # 10) (3 # 10))
                [Sample.item "A" (9 # 10) Vector "vector snippet of A";
                 Sample.item "C" (7 # 10) Vector "vector snippet of C"]
                [Sample.item "A" (5 # 10) Keyword "a longer keyword snippet of A";
                 Sample.item "B" (4 # 10) Keyword "keyword snippet of B"]) as H.
  destruct H as (_ & _ & Hboth & _).
  - apply (NoDup_cons_2 "A" ["C"]); [|apply NoDup_singleton].
    intros Hin%list_elem_of_singleton. discriminate.
  - apply (NoDup_cons_2 "A" ["B"]); [|apply NoDup_singleton].
    intros Hin%list_elem_of_singleton. discriminate.
  - destruct (Hboth (Sample.item "A" (9 # 10) Vector "vector snippet of A")
                (Sample.item "A" (5 # 10) Keyword "a longer keyword snippet of A"))
      as (e & Hin & Hname & Hscore & Hcontent & _).
    + left.
    + left.
    + reflexivity.
    + exists e. split; [exact Hin|]. split; [exact Hname|]. split; [exact Hscore|].
      split; [|exact Hcontent]. rewrite Hscore. reflexivity.
Defined.

(** C1 does not hold as stated: two keyword results carry the name "Unknown" (the
    engine's name for a document without one); the merge holds one entry for
    them whose score is the sum of both weighted scores, which is the weighted
    score of neither. *)
Lemma mergeResults_same_name_summed :
  let config := HybridSearchEngine.mkConfig (7 # 10) (3 # 10) in
  let k1 := Sample.item "Unknown" (1 # 10) Keyword "first" in
  let k2 := Sample.item "Unknown" (2 # 10) Keyword "second" in
  map (fun e => (name e, score e)) (HybridSearchEngine.mergeResults config [] [k1; k2])
  = [("Unknown", ((1 # 10) * (3 # 10) + (2 # 10) * (3 # 10))%Q)]
  /\ ((1 # 10) * (3 # 10) < (1 # 10) * (3 # 10) + (2 # 10) * (3 # 10))%Q
  /\ ((2 # 10) * (3 # 10) < (1 # 10) * (3 # 10) + (2 # 10) * (3 # 10))%Q.
Proof.
  repeat split.
Qed.

(** ** Keyword engine *)

Section KeywordFacts.
Import KeywordSearchEngine.

Lemma matchLength_le (r : RegExp.t) (field : string) :
  RegExp.matchLength r field <= S (RegExp.captureGroups r).
Proof. unfold RegExp.matchLength. destruct (RegExp.test r field); lia. Qed.

Lemma matchLength_no_groups (r : RegExp.t) (field : string) :
  RegExp.captureGroups r = 0 -> RegExp.matchLength r field <= 1.
Proof. intros Hg. pose proof (matchLength_le r field). lia. Qed.

Lemma ofCount_nonneg (n : nat) : (0 <= ofCount n)%Q.
Proof. unfold ofCount, Qle. simpl. lia. Qed.

Lemma ofCount_le (n k : nat) : n <= k -> (ofCount n <= ofCount k)%Q.
Proof. intros Hle. unfold ofCount, Qle. simpl. lia. Qed.

Lemma totalScore_nonneg (r : RegExp.t) (doc : Document) : (0 <= totalScore r doc)%Q.
Proof.
  unfold totalScore.
  pose proof (ofCount_nonneg (RegExp.matchLength r (JS.orEmpty (doc_text doc)))).
  pose proof (ofCount_nonneg (RegExp.matchLength r (JS.orEmpty (doc_name doc)))).
  pose proof (ofCount_nonneg (RegExp.matchLength r (JS.orEmpty (doc_email doc)))).
  pose proof (ofCount_nonneg (RegExp.matchLength r (JS.orEmpty (doc_skills doc)))).
  pose proof (ofCount_nonneg (RegExp.matchLength r (JS.orEmpty (doc_role doc)))).
  lra.
Qed.

Lemma normalizedScore_range (r : RegExp.t) (doc : Document) :
  (0 <= normalizedScore r doc <= 1)%Q.
Proof.
  unfold normalizedScore. split; [|apply Q.le_min_r].
  apply Q.min_glb; [|lra].
  pose proof (totalScore_nonneg r doc). unfold Qdiv.
  apply Qmult_le_0_compat; [done|]. unfold Qle. simpl. lia.
Qed.

Lemma totalScore_no_groups (r : RegExp.t) (doc : Document) :
  RegExp.captureGroups r = 0 -> (totalScore r doc <= 10)%Q.
Proof.
  intros Hg. unfold totalScore.
  pose proof (ofCount_le _ 1 (matchLength_no_groups r (JS.orEmpty (doc_text doc)) Hg)).
  pose proof (ofCount_le _ 1 (matchLength_no_groups r (JS.orEmpty (doc_name doc)) Hg)).
  pose proof (ofCount_le _ 1 (matchLength_no_groups r (JS.orEmpty (doc_email doc)) Hg)).
  pose proof (ofCount_le _ 1 (matchLength_no_groups r (JS.orEmpty (doc_skills doc)) Hg)).
  pose proof (ofCount_le _ 1 (matchLength_no_groups r (JS.orEmpty (doc_role doc)) Hg)).
  change (ofCount 1) with 1%Q in *.
  lra.
Qed.

Lemma normalizedScore_no_groups (r : RegExp.t) (doc : Document) :
  RegExp.captureGroups r = 0 -> (normalizedScore r doc <= 1 # 3)%Q.
Proof.
  intros Hg. unfold normalizedScore.
  apply (Qle_trans _ (totalScore r doc / 30)); [apply Q.le_min_l|].
  pose proof (totalScore_no_groups r doc Hg).
  apply Qle_shift_div_r; [reflexivity|]. lra.
Qed.

(** What a successful [search] went through. *)
Lemma search_Ok (RegExp_new : string -> outcome RegExp.t) (collection : Collection)
    (query : string) (topK : nat) (results : list SearchResultItem) :
  search RegExp_new collection query topK = Ok results ->
  exists searchRegex documents,
    RegExp_new (JS.join "|" (keywordsOf query)) = Ok searchRegex
    /\ collection searchRegex (topK * 2) = Ok documents
    /\ results = JS.slice0 topK
                   (JS.sort byScoreDesc (map (toResult searchRegex (keywordsOf query)) documents)).
Proof.
  unfold search, rethrow, outcome_bind.
  destruct (RegExp_new _) as [searchRegex|msg] eqn:Hregex; [|done].
  destruct (collection searchRegex (topK * 2)) as [documents|msg] eqn:Hdocs; [|done].
  intros [= <-]. exists searchRegex, documents. repeat split; done.
Qed.

End KeywordFacts.

(** For a query whose regular expression has no capturing group, each
    field's match count is at most 1, whatever the number of occurrences of
    the tokens in the field; the raw score is then at most 10 and the score of
    every result of the keyword engine at most 1/3. *)
Lemma keyword_scores_without_groups
    (RegExp_new : string -> outcome RegExp.t) (collection : KeywordSearchEngine.Collection)
    (query : string) (topK : nat) (searchRegex : RegExp.t) :
  RegExp_new (JS.join "|" (KeywordSearchEngine.keywordsOf query)) = Ok searchRegex ->
  RegExp.captureGroups searchRegex = 0 ->
  (forall field, RegExp.matchLength searchRegex field <= 1)
  /\ (forall doc, (KeywordSearchEngine.totalScore searchRegex doc <= 10)%Q)
  /\ (forall doc, (KeywordSearchEngine.normalizedScore searchRegex doc <= 1 # 3)%Q)
  /\ (forall results,
        KeywordSearchEngine.search RegExp_new collection query topK = Ok results ->
        Forall (fun r => (score r <= 1 # 3)%Q) results).
Proof.
  intros Hregex Hgroups.
  split; [intros field; by apply matchLength_no_groups|].
  split; [intros doc; by apply totalScore_no_groups|].
  split; [intros doc; by apply normalizedScore_no_groups|].
  intros results (searchRegex' & documents & Hregex' & _ & ->)%search_Ok.
  rewrite Hregex in Hregex'. injection Hregex' as <-.
  unfold JS.slice0. apply Forall_take.
  apply Forall_forall. intros r Hr. apply sort_elem in Hr.
  apply list_elem_of_fmap in Hr as (doc & -> & _). simpl.
  by apply normalizedScore_no_groups.
Qed.

(** C10 on the code: the query "(((java)))" compiles to an expression with
    three capturing groups, and [match] returns the whole match followed by
    one entry per group.  A field that holds the token "java" once (one
    occurrence, as the specification counts) gets the match count 4, above
    the bound 1 of the claim; with the token in all five fields the raw score
    is 40, above the bound 10, and the score of the result is 1, above the
    bound 1/3. *)
Lemma keyword_count_with_groups :
  exists searchRegex,
    RegExp.ofFragment (JS.join "|" (KeywordSearchEngine.keywordsOf "(((java)))")) = Ok searchRegex
    /\ countIn ["java"] "java" = 1
    /\ RegExp.matchLength searchRegex "java" = 4
    /\ 1 < RegExp.matchLength searchRegex "java"
    /\ (KeywordSearchEngine.totalScore searchRegex Sample.resumeJava == 40)%Q
    /\ (10 < KeywordSearchEngine.totalScore searchRegex Sample.resumeJava)%Q
    /\ map score (default []
                    (match KeywordSearchEngine.search RegExp.ofFragment
                             (fun _ _ => Ok [Sample.resumeJava]) "(((java)))" 1 with
                     | Ok results => Some results
                     | Throw _ => None
                     end))
       = [1%Q]
    /\ (1 # 3 < 1)%Q.
Proof.
  eexists. split; [reflexivity|]. split; [reflexivity|]. split; [reflexivity|].
  split; [vm_compute; lia|]. repeat split.
Qed.

(** C9 on the code: for the query "Selenium" and a resume whose skills name
    Selenium twice, the engine scores the skills once (raw score 3, score 3/30)
    where the specified count of occurrences is 2 (raw score 6, score 6/30). *)
Lemma keyword_repeats_counted_once :
  exists searchRegex,
    RegExp.ofFragment (JS.join "|" (KeywordSearchEngine.keywordsOf "Selenium")) = Ok searchRegex
    /\ (KeywordSearchEngine.totalScore searchRegex Sample.resumeA == 3)%Q
    /\ (KeywordSearchEngine.normalizedScore searchRegex Sample.resumeA == 3 # 30)%Q
    /\ countIn (KeywordSearchEngine.keywordsOf "Selenium") "Java, Selenium, Selenium Grid" = 2
    /\ (specifiedRawScore (KeywordSearchEngine.keywordsOf "Selenium") Sample.resumeA == 6)%Q
    /\ (Qmin (specifiedRawScore (KeywordSearchEngine.keywordsOf "Selenium") Sample.resumeA / 30) 1
        == 6 # 30)%Q.
Proof.
  eexists. split; [reflexivity|]. repeat split.
Qed.

(** ** Scores of the engines *)

Section EngineFacts.

Lemma weighted_range (s w : Q) : (0 <= s <= 1)%Q -> (0 <= w)%Q -> (0 <= s * w <= w)%Q.
Proof. intros [Hs0 Hs1] Hw. split; nra. Qed.

Lemma keyword_results (RegExp_new : string -> outcome RegExp.t)
    (collection : KeywordSearchEngine.Collection) (query : string) (topK : nat)
    (results : list SearchResultItem) :
  KeywordSearchEngine.search RegExp_new collection query topK = Ok results ->
  length results <= topK /\ Forall scoreIn01 results /\ sortedDesc results
  /\ (distinctNames collection -> NoDup (map name results)).
Proof.
  intros (searchRegex & documents & _ & Hdocs & ->)%search_Ok.
  split; [apply slice0_length|].
  split; [|split].
  - unfold JS.slice0. apply Forall_take.
    apply Forall_forall. intros r Hr. apply sort_elem in Hr.
    apply list_elem_of_fmap in Hr as (doc & -> & _).
    apply normalizedScore_range.
  - apply sortedDesc_take, sort_sortedDesc.
  - intros Hdistinct. specialize (Hdistinct _ _ _ Hdocs).
    unfold JS.slice0.
    eapply sublist_NoDup; [|apply (fmap_sublist name), sublist_take].
    change (NoDup (map name (JS.sort byScoreDesc
              (map (KeywordSearchEngine.toResult searchRegex (KeywordSearchEngine.keywordsOf query))
                 documents)))).
    rewrite sort_perm, map_map. exact Hdistinct.
Qed.

Lemma normalizeVectorScore_range (s : Q) :
  (0 <= VectorSearchEngine.normalizeVectorScore s <= 1)%Q.
Proof.
  unfold VectorSearchEngine.normalizeVectorScore. split.
  - apply Q.le_max_l.
  - apply Q.max_lub; [lra|apply Q.le_min_l].
Qed.

Lemma normalizeVectorScore_mono (s t : Q) :
  (s <= t)%Q ->
  (VectorSearchEngine.normalizeVectorScore s <= VectorSearchEngine.normalizeVectorScore t)%Q.
Proof.
  intros Hst. unfold VectorSearchEngine.normalizeVectorScore.
  apply Q.max_le_compat_l. by apply Q.min_le_compat_l.
Qed.

Lemma vector_results (vectorStore : VectorSearchEngine.VectorStore) (query : string)
    (topK : nat) (results : list SearchResultItem) :
  VectorSearchEngine.search vectorStore query topK = Ok results ->
  Forall scoreIn01 results /\ (storeSortedDesc vectorStore -> sortedDesc results).
Proof.
  unfold VectorSearchEngine.search, rethrow, outcome_bind.
  destruct (vectorStore query topK) as [hits|msg] eqn:Hhits; [|done].
  intros [= <-]. split.
  - apply Forall_forall. intros r (hit & -> & _)%list_elem_of_fmap.
    destruct hit as [doc s]. apply normalizeVectorScore_range.
  - intros Hsorted. specialize (Hsorted _ _ _ Hhits). clear Hhits.
    unfold sortedDesc. induction Hsorted as [|hit hits _ IH Hall]; simpl; constructor.
    + exact IH.
    + apply Forall_forall. intros r (hit' & -> & Hin)%list_elem_of_fmap.
      rewrite Forall_forall in Hall. specialize (Hall hit' Hin).
      destruct hit as [doc s], hit' as [doc' s']. unfold scoreDesc. simpl in *.
      by apply normalizeVectorScore_mono.
Qed.

End EngineFacts.

Section HybridBounds.
Import HybridSearchEngine.
Variable config : HybridSearchConfig.
Hypothesis Hconvex : convexWeights config.

Lemma foldl_addVector_bound (vs : list SearchResultItem) (m : JS.Map SearchResultItem) :
  Forall scoreIn01 vs ->
  Forall (fun entry => (0 <= score entry.2 <= vectorWeight config)%Q) m ->
  Forall (fun entry => (0 <= score entry.2 <= vectorWeight config)%Q)
    (foldl (addVector config) m vs).
Proof.
  destruct Hconvex as (Hv & Hk & Hsum).
  revert m. induction vs as [|v vs IH]; intros m Hvs Hm; simpl; [done|].
  apply Forall_cons in Hvs as [Hv01 Hvs]. apply IH; [done|].
  apply Forall_forall. intros [key e] Hin. unfold addVector in Hin.
  apply Map_set_elem in Hin as [[-> ->]|Hin]; simpl.
  - by apply weighted_range.
  - rewrite Forall_forall in Hm. by apply (Hm (key, e)).
Qed.

(** While the keyword pass runs, an entry whose name is still to come has
    only its vector score. *)
Lemma foldl_addKeyword_bound (ks : list SearchResultItem) (m : JS.Map SearchResultItem) :
  NoDup (map name ks) ->
  Forall scoreIn01 ks ->
  Forall (fun entry =>
            (0 <= score entry.2 <= vectorWeight config + keywordWeight config)%Q
            /\ (entry.1 ∈ map name ks -> (score entry.2 <= vectorWeight config)%Q)) m ->
  Forall (fun entry => (0 <= score entry.2 <= vectorWeight config + keywordWeight config)%Q)
    (foldl (addKeyword config) m ks).
Proof.
  destruct Hconvex as (Hv & Hk & Hsum).
  revert m. induction ks as [|k ks IH]; intros m Hnd Hks Hm; simpl.
  - eapply Forall_impl; [exact Hm|]. simpl. by intros entry [? _].
  - simpl in Hnd. apply NoDup_cons in Hnd as [Hfresh Hnd].
    apply Forall_cons in Hks as [Hk01 Hks].
    pose proof (weighted_range _ _ Hk01 Hk) as Hweighted.
    rewrite Forall_forall in Hm.
    apply IH; [done..|].
    apply Forall_forall. intros [key e] Hin. unfold addKeyword in Hin.
    destruct (JS.Map_get (name k) m) as [existing|] eqn:Hget.
    + apply Map_set_elem in Hin as [[-> ->]|Hin]; simpl.
      * apply Map_get_elem in Hget.
        destruct (Hm _ Hget) as [[Hlo _] Hhi]. simpl in Hlo, Hhi.
        specialize (Hhi ltac:(simpl; left)).
        split; [lra|done].
      * destruct (Hm _ Hin) as [Hrange Hhi]. simpl in Hrange, Hhi.
        split; [done|]. intros Hkey. apply Hhi. simpl. by right.
    + apply Map_set_elem in Hin as [[-> ->]|Hin]; simpl.
      * split; [lra|done].
      * destruct (Hm _ Hin) as [Hrange Hhi]. simpl in Hrange, Hhi.
        split; [done|]. intros Hkey. apply Hhi. simpl. by right.
Qed.

Lemma mergeResults_bound (vectorResults keywordResults : list SearchResultItem) :
  NoDup (map name keywordResults) ->
  Forall scoreIn01 vectorResults -> Forall scoreIn01 keywordResults ->
  Forall scoreIn01 (mergeResults config vectorResults keywordResults).
Proof.
  intros Hnd Hvs Hks. unfold mergeResults.
  pose proof (foldl_addVector_bound vectorResults [] Hvs (Forall_nil_2 _)) as Hm1.
  destruct Hconvex as (Hv & Hk & Hsum).
  assert (Hm2 : Forall (fun entry =>
                    (0 <= score entry.2 <= vectorWeight config + keywordWeight config)%Q)
                 (foldl (addKeyword config) (foldl (addVector config) [] vectorResults)
                    keywordResults)).
  { apply foldl_addKeyword_bound; [done..|].
    eapply Forall_impl; [exact Hm1|]. simpl. intros entry Hentry.
    split; [lra|intros _; lra]. }
  apply Forall_forall. intros e (key & Hin)%Map_values_elem.
  unfold scoreIn01. rewrite Forall_forall in Hm2. specialize (Hm2 _ Hin). simpl in Hm2.
  lra.
Qed.

End HybridBounds.

Lemma hybrid_results (config : HybridSearchEngine.HybridSearchConfig)
    (vectorEngine keywordEngine : string -> nat -> outcome (list SearchResultItem))
    (query : string) (topK : nat) (results : list SearchResultItem) :
  HybridSearchEngine.search config vectorEngine keywordEngine query topK = Ok results ->
  exists vectorResults keywordResults,
    vectorEngine query (topK * 3) = Ok vectorResults
    /\ keywordEngine query (topK * 3) = Ok keywordResults
    /\ results = JS.slice0 topK
         (JS.sort byScoreDesc
            (HybridSearchEngine.mergeResults config vectorResults keywordResults)).
Proof.
  unfold HybridSearchEngine.search, rethrow.
  destruct (vectorEngine query (topK * 3)) as [vectorResults|msg] eqn:Hv;
    destruct (keywordEngine query (topK * 3)) as [keywordResults|msg'] eqn:Hk; try done.
  intros [= <-]. exists vectorResults, keywordResults. repeat split; done.
Qed.

(** ** Re-ranking keeps what the engines established *)

Lemma rerankAndFilter_keeps (model : LLMReranker.Model) (query : string)
    (candidates : list SearchResultItem) :
  (Forall scoreIn01 candidates ->
   Forall scoreIn01 (LLMReranker.results (LLMReranker.rerankAndFilter model query candidates)))
  /\ (sortedDesc candidates ->
      sortedDesc (LLMReranker.results (LLMReranker.rerankAndFilter model query candidates))).
Proof.
  destruct (reply_failed_or_answered LLMReranker.LLMRerankResponseSchema (model query candidates))
    as [Hfailed|[parsed Hanswered]].
  - destruct (rerankAndFilter_failed model query candidates Hfailed) as [-> _]. by split.
  - destruct candidates as [|c cs]; [by split|].
    assert (Hne : c :: cs <> []) by done.
    destruct (rerankAndFilter_parsed_reply_facts model query (c :: cs) parsed Hne Hanswered)
      as (Hin01 & Hsorted).
    by split.
Qed.

(** ** Retrieval pipeline *)

Section PipelineFacts.
Import RetrievalPipeline.

Lemma attach_score (matches : list ResumeMatch.t) (result : SearchResultItem) :
  score (attach matches result) = score result.
Proof. unfold attach. by destruct (JS.find _ _). Qed.

Lemma map_keeps_scores (f : SearchResultItem -> SearchResultItem) (xs : list SearchResultItem) :
  (forall x, score (f x) = score x) ->
  (Forall scoreIn01 xs -> Forall scoreIn01 (map f xs))
  /\ (sortedDesc xs -> sortedDesc (map f xs)).
Proof.
  intros Hf. split.
  - intros Hxs. apply Forall_fmap. eapply Forall_impl; [exact Hxs|].
    intros x Hx. unfold scoreIn01, compose in *. by rewrite Hf.
  - unfold sortedDesc. induction 1 as [|x xs _ IH Hall]; simpl; constructor; [done|].
    apply Forall_fmap. eapply Forall_impl; [exact Hall|].
    intros y Hy. unfold scoreDesc, compose in *. by rewrite !Hf.
Qed.

(** What the engine asked for returns, under the conditions its search type
    needs. *)
Lemma engine_results (p : t) (query : string) (searchType : SearchType) (n : nat)
    (results : list SearchResultItem) :
  match searchType with
  | keyword => keywordEngine p query n
  | vector => vectorEngine p query n
  | hybrid => hybridEngine p query n
  end = Ok results ->
  ((searchType = vector -> storeSortedDesc (vectorStore (backend p))) -> sortedDesc results)
  /\ ((searchType = hybrid ->
       convexWeights (hybridConfig p) /\ distinctNames (collection (backend p))) ->
      Forall scoreIn01 results).
Proof.
  destruct searchType.
  - intros (_ & Hin01 & Hsorted & _)%keyword_results. by split.
  - intros [Hin01 Hsorted]%vector_results. split; [|done].
    intros Hstore. by apply Hsorted, Hstore.
  - intros (vectorResults & keywordResults & Hv & Hk & ->)%hybrid_results. split.
    + intros _. apply sortedDesc_take, sort_sortedDesc.
    + intros Hhyp. destruct (Hhyp eq_refl) as [Hconvex Hdistinct].
      apply vector_results in Hv as [Hv01 _].
      apply keyword_results in Hk as (_ & Hk01 & _ & Hnd).
      unfold JS.slice0. apply Forall_take.
      apply Forall_forall. intros r Hr%sort_elem. revert r Hr. apply Forall_forall.
      apply mergeResults_bound; [done|by apply Hnd|done..].
Qed.

Lemma search_Ok_stages (p : t) (query : string) (searchType : SearchType) (topK : nat)
    (results : list SearchResultItem) :
  search p query searchType topK = Ok results ->
  exists retrieved staged (f : SearchResultItem -> SearchResultItem),
    match searchType with
    | keyword => keywordEngine p query (if enabled p then retrievalTopK p else topK)
    | vector => vectorEngine p query (if enabled p then retrievalTopK p else topK)
    | hybrid => hybridEngine p query (if enabled p then retrievalTopK p else topK)
    end = Ok retrieved
    /\ (staged = retrieved
        \/ exists model, staged = LLMReranker.results
                                    (LLMReranker.rerankAndFilter model query retrieved))
    /\ (forall x, score (f x) = score x)
    /\ results = map f (JS.slice0 topK staged).
Proof.
  unfold search, outcome_bind.
  destruct (match searchType with
            | keyword => _ | vector => _ | hybrid => _ end) as [retrieved|msg] eqn:Hengine;
    [|done].
  intros [= <-]. exists retrieved.
  destruct (llmReranker p) as [model|].
  - destruct (enabled p && (0 <? length retrieved)%nat); simpl.
    + exists (LLMReranker.results (LLMReranker.rerankAndFilter model query retrieved)),
        (attach (LLMReranker.llmAnalysis_matches (LLMReranker.rerankAndFilter model query retrieved))).
      split; [done|]. split; [right; by exists model|]. split; [apply attach_score|done].
    + exists retrieved, id. split; [done|]. split; [by left|]. split; [done|].
      by rewrite map_id.
  - simpl. exists retrieved, id. split; [done|]. split; [by left|]. split; [done|].
    by rewrite map_id.
Qed.

End PipelineFacts.

(** C2, as the code has it.  A search of the retrieval pipeline that returns,
    returns at most [topK] results.  The results are in descending order of
    score for the keyword and hybrid search types, and for the vector search
    type when the vector store returns its hits in descending order of
    similarity.  Every score lies in [0,1] for the keyword and vector search
    types, and for the hybrid search type when the weights are non-negative
    with a sum of at most 1 and no two documents returned by the collection
    give results of the same name.  This holds with and without re-ranking. *)
Theorem pipeline_search_results :
  forall (p : RetrievalPipeline.t) (query : string)
         (searchType : RetrievalPipeline.SearchType) (topK : nat)
         (results : list SearchResultItem),
    RetrievalPipeline.search p query searchType topK = Ok results ->
    length results <= topK
    /\ ((searchType = RetrievalPipeline.vector ->
         storeSortedDesc (RetrievalPipeline.vectorStore (RetrievalPipeline.backend p))) ->
        sortedDesc results)
    /\ ((searchType = RetrievalPipeline.hybrid ->
         convexWeights (RetrievalPipeline.hybridConfig p)
         /\ distinctNames (RetrievalPipeline.collection (RetrievalPipeline.backend p))) ->
        Forall scoreIn01 results).
Proof.
  intros p query searchType topK results
    (retrieved & staged & f & Hengine & Hstaged & Hf & ->)%search_Ok_stages.
  apply engine_results in Hengine as [Hsorted Hin01].
  destruct (map_keeps_scores f (JS.slice0 topK staged) Hf) as [Hmap01 Hmapsorted].
  split; [rewrite length_map; apply slice0_length|].
  split.
  - intros Hstore. apply Hmapsorted, sortedDesc_take.
    destruct Hstaged as [->|[model ->]]; [by apply Hsorted|].
    apply rerankAndFilter_keeps. by apply Hsorted.
  - intros Hhyp. apply Hmap01. unfold JS.slice0. apply Forall_take.
    destruct Hstaged as [->|[model ->]]; [by apply Hin01|].
    apply rerankAndFilter_keeps. by apply Hin01.
Qed.

(** A hybrid search with the weights 0.7 and 0.3 over a store whose documents
    have distinct names. *)
Lemma pipeline_search_results_witness :
  exists results,
    RetrievalPipeline.search Sample.pipeline "Selenium" RetrievalPipeline.hybrid 2 = Ok results
    /\ length results <= 2 /\ sortedDesc results /\ Forall scoreIn01 results.
Proof.
  destruct (RetrievalPipeline.search Sample.pipeline "Selenium" RetrievalPipeline.hybrid 2)
    as [results|msg] eqn:Hsearch; [|discriminate Hsearch].
  exists results. split; [reflexivity|].
  destruct (pipeline_search_results Sample.pipeline "Selenium" RetrievalPipeline.hybrid 2
              results Hsearch) as (Hlength & Hsorted & Hin01).
  split; [exact Hlength|]. split.
  - apply Hsorted. intros Hvector. discriminate Hvector.
  - apply Hin01. intros _. split.
    + unfold convexWeights. simpl. repeat split; discriminate.
    + intros searchRegex n documents Hdocs. injection Hdocs as <-. simpl.
      apply (NoDup_cons_2 "A" ["C"]); [|apply NoDup_singleton].
      intros Hin%list_elem_of_singleton. discriminate Hin.
Defined.

(** C2 does not hold as stated: with both weights set to 1 (the constructor warns
    about weights that do not sum to 1 and goes on), the candidate A, found by
    the vector search with similarity 0.95 and by the keyword search with score
    0.1, comes out of a hybrid search with the score 1.05. *)
Lemma pipeline_hybrid_score_above_one :
  match RetrievalPipeline.search Sample.pipelineBothOne "Selenium" RetrievalPipeline.hybrid 1 with
  | Ok [r] => name r = "A" /\ (score r == 105 # 100)%Q /\ (1 < score r)%Q
  | _ => False
  end.
Proof.
  vm_compute. repeat split.
Qed.

(** The same with the default weights 0.7 and 0.3: four documents without a
    name all become "Unknown", and their keyword scores add up on the one
    entry of that name. *)
Lemma pipeline_hybrid_same_name_above_one :
  match RetrievalPipeline.search Sample.pipelineNameless "java" RetrievalPipeline.hybrid 3 with
  | Ok [r] => name r = "Unknown" /\ (score r == 102 # 100)%Q /\ (1 < score r)%Q
  | _ => False
  end.
Proof.
  vm_compute. repeat split.
Qed.

(** ** The chat endpoint *)

Section StringFacts.

Lemma startsWith_spec (sub s : string) :
  JS.startsWith sub s = true <-> exists after, s = sub +:+ after.
Proof.
  revert s. induction sub as [|a sub IH]; intros s; simpl.
  - split; [by exists s|done].
  - destruct s as [|b s]; simpl.
    + split; [done|]. by intros [after ?].
    + destruct (Ascii.eqb a b) eqn:Hab.
      * apply Ascii.eqb_eq in Hab as ->. rewrite IH. split.
        -- intros [after ->]. by exists after.
        -- intros [after [= ->]]. by exists after.
      * split; [done|]. intros [after [= -> _]]. by rewrite Ascii.eqb_refl in Hab.
Qed.

Lemma includes_spec (sub s : string) :
  JS.includes sub s = true <-> exists before after, s = before +:+ sub +:+ after.
Proof.
  unfold JS.includes. induction s as [|c s IH].
  - simpl. destruct (JS.startsWith sub "") eqn:Hstart.
    + split; [|done]. intros _. apply startsWith_spec in Hstart as [after Hafter].
      exists "", after. done.
    + split; [done|]. intros (before & after & Heq).
      destruct before; [|done]. simpl in Heq.
      assert (JS.startsWith sub "" = true) by (apply startsWith_spec; by exists after).
      congruence.
  - cbn [JS.indexOf]. destruct (JS.startsWith sub (String c s)) eqn:Hstart.
    + split; [|done]. intros _. apply startsWith_spec in Hstart as [after Hafter].
      exists "", after. done.
    + destruct (JS.indexOf sub s) as [i|]; simpl.
      * split; [|done]. intros _. destruct (proj1 IH eq_refl) as (before & after & ->).
        by exists (String c before), after.
      * split; [done|]. intros (before & after & Heq).
        destruct before as [|c' before]; simpl in Heq.
        -- assert (JS.startsWith sub (String c s) = true)
             by (apply startsWith_spec; by exists after).
           congruence.
        -- injection Heq as -> ->.
           assert (false = true); [|done]. apply IH. by exists before, after.
Qed.

Lemma toLowerChar_sameLetter (q t : ascii) :
  JS.toLowerChar t = t -> (JS.toLowerChar q = t <-> sameLetter q t).
Proof.
  unfold JS.toLowerChar, sameLetter.
  pose proof (nat_ascii_bounded q) as Hq. pose proof (nat_ascii_bounded t) as Ht.
  intros Hfix.
  assert (Hsmall : ~ 65 <= nat_of_ascii t <= 90).
  { intros [H1 H2]. apply Nat.leb_le in H1 as H1', H2 as H2'.
    rewrite H1', H2' in Hfix. simpl in Hfix.
    apply (f_equal nat_of_ascii) in Hfix. rewrite nat_ascii_embedding in Hfix by lia. lia. }
  destruct ((65 <=? nat_of_ascii q) && (nat_of_ascii q <=? 90))%nat eqn:Hcapital.
  - apply andb_true_iff in Hcapital as [H1%Nat.leb_le H2%Nat.leb_le]. split.
    + intros <-. right. left. split; [lia|]. rewrite nat_ascii_embedding; lia.
    + intros [-> | [[_ H] | [H _]]].
      * exfalso. apply Hsmall. lia.
      * rewrite <- H. apply ascii_nat_embedding.
      * exfalso. by apply Hsmall.
  - split.
    + intros ->. by left.
    + intros [-> | [[H _] | [H _]]]; [done| |exfalso; by apply Hsmall].
      exfalso. apply andb_false_iff in Hcapital as [H'%Nat.leb_gt | H'%Nat.leb_gt]; lia.
Qed.

Lemma toLowerCase_sameLetter (occurrence token : string) :
  JS.toLowerCase token = token ->
  (JS.toLowerCase occurrence = token
   <-> Forall2 sameLetter (list_ascii_of_string occurrence) (list_ascii_of_string token)).
Proof.
  revert token. induction occurrence as [|q occurrence IH]; intros [|t token]; simpl.
  - intros _. split; [constructor|done].
  - intros _. split; [done|]. intros H. inversion H.
  - intros _. split; [done|]. intros H. inversion H.
  - intros [= Ht Htoken]. split.
    + intros [= Hq Hrest]. constructor.
      * by apply toLowerChar_sameLetter.
      * by apply IH.
    + intros H. inversion H as [|? ? ? ? Hq Hrest]; subst. f_equal.
      * by apply toLowerChar_sameLetter.
      * by apply IH.
Qed.

Lemma toLowerCase_append (a b : string) :
  JS.toLowerCase (a +:+ b) = JS.toLowerCase a +:+ JS.toLowerCase b.
Proof. induction a as [|c a IH]; simpl; [done|]. by rewrite IH. Qed.

Lemma toLowerCase_split (query x y : string) :
  JS.toLowerCase query = x +:+ y ->
  exists a b, query = a +:+ b /\ JS.toLowerCase a = x /\ JS.toLowerCase b = y.
Proof.
  revert query. induction x as [|c x IH]; intros query; simpl.
  - intros H. by exists EmptyString, query.
  - destruct query as [|q query]; simpl; [done|].
    intros [= Hq (a & b & -> & <- & <-)%IH].
    exists (String q a), b. simpl. by rewrite Hq.
Qed.

Lemma includes_ignoring_case (token query : string) :
  JS.toLowerCase token = token ->
  JS.includes token (JS.toLowerCase query) = true <-> containsIgnoringCase token query.
Proof.
  intros Htoken. rewrite includes_spec. unfold containsIgnoringCase. split.
  - intros (before & after & (a & rest & -> & _ & (occurrence & b & -> & Hocc & _)%toLowerCase_split)
             %toLowerCase_split).
    exists a, occurrence, b. split; [done|]. by apply toLowerCase_sameLetter.
  - intros (before & occurrence & after & -> & Hocc).
    apply toLowerCase_sameLetter in Hocc; [|done].
    exists (JS.toLowerCase before), (JS.toLowerCase after).
    by rewrite !toLowerCase_append, Hocc.
Qed.

Lemma isFilterQuery_spec (query : string) :
  ConversationalFilter.isFilterQuery query = true <-> filterIntent query.
Proof.
  assert (Htokens : ConversationalFilter.filterKeywords = filterIntentTokens) by reflexivity.
  assert (Hsmall : Forall (fun token => JS.toLowerCase token = token) filterIntentTokens)
    by (repeat constructor).
  unfold ConversationalFilter.isFilterQuery, JS.some, filterIntent.
  rewrite Htokens, existsb_exists. rewrite Forall_forall in Hsmall. split.
  - intros (token & Hin%list_elem_of_In & Hincl). exists token. split; [done|].
    by apply includes_ignoring_case; [apply Hsmall|].
  - intros (token & Hin & Hincl). exists token. split; [by apply list_elem_of_In|].
    by apply includes_ignoring_case; [apply Hsmall|].
Qed.

End StringFacts.

Section ServerFacts.
Import Server.

Lemma isNewConversation_spec (parsed : ConversationalQuery) :
  isNewConversation parsed = false <-> suppliedId parsed.
Proof.
  unfold isNewConversation, suppliedId.
  destruct (conversationId parsed) as [[|c id]|].
  - split; [done|]. by intros (id & [= <-] & Hne).
  - split; [|done]. intros _. by exists (String c id).
  - split; [done|]. by intros (id & ? & _).
Qed.

Lemma hasSearchResults_spec {R : Type} (m : ChatMemory.ChatMemoryManager R) :
  ChatMemory.hasSearchResults m = true <-> ChatMemory.getLastSearchResults m <> [].
Proof.
  unfold ChatMemory.hasSearchResults, ChatMemory.getLastSearchResults.
  destruct (ChatMemory.lastSearchResults m); simpl; split; done.
Qed.

Lemma shouldUseFilter_spec (parsed : ConversationalQuery) (memoryManager : ConversationStore.Manager) :
  shouldUseFilter parsed memoryManager = true <->
  ChatMemory.getLastSearchResults memoryManager <> []
  /\ (filterIntent (message parsed) \/ suppliedId parsed).
Proof.
  unfold shouldUseFilter.
  rewrite andb_true_iff, orb_true_iff, negb_true_iff.
  by rewrite hasSearchResults_spec, isFilterQuery_spec, isNewConversation_spec.
Qed.

Lemma getOrCreate_lookup (id : string) (conversations : ConversationStore.t) :
  (ConversationStore.getOrCreate id conversations).1 !! id
  = Some (ConversationStore.getOrCreate id conversations).2.
Proof.
  unfold ConversationStore.getOrCreate.
  destruct (conversations !! id) as [manager|] eqn:Hlookup; simpl; [done|].
  apply lookup_insert_eq.
Qed.

Lemma getOrCreate_other (id other : string) (conversations : ConversationStore.t) :
  other <> id ->
  (ConversationStore.getOrCreate id conversations).1 !! other = conversations !! other.
Proof.
  intros Hne. unfold ConversationStore.getOrCreate.
  destruct (conversations !! id) as [manager|]; simpl; [done|].
  by apply lookup_insert_ne.
Qed.

Lemma restructured_id (result : StructuredResult.t) : restructured result = result.
Proof. by destruct result. Qed.

Lemma addExchange_lastSearchResults {R : Type} (u a : string) (m : ChatMemory.ChatMemoryManager R) :
  ChatMemory.lastSearchResults (ChatMemory.addExchange u a m) = ChatMemory.lastSearchResults m.
Proof.
  unfold ChatMemory.addExchange, ChatMemory.trimMessages. by destruct (_ <? _)%nat.
Qed.

End ServerFacts.



(** ** Queries of plain words

    A capturing group starts with an opening parenthesis, so a query without
    one compiles, on the fragment, to an expression without groups. *)

Section FragmentFacts.

Lemma parse_no_paren (fuel : nat) :
  (forall p r rest, RegExp.parseDisjunction fuel p = Some (r, rest) ->
     "("%char ∉ p -> RegExp.countGroups r = 0 /\ "("%char ∉ rest)
  /\ (forall p r rest, RegExp.parseAlternative fuel p = Some (r, rest) ->
     "("%char ∉ p -> RegExp.countGroups r = 0 /\ "("%char ∉ rest).
Proof.
  induction fuel as [|fuel [IHd IHa]]; [split; intros; discriminate|].
  split.
  - intros p r rest Hparse Hp. simpl in Hparse.
    destruct (RegExp.parseAlternative fuel p) as [[a [|c rest0]]|] eqn:Halt; [| |done].
    + injection Hparse as <- <-. by apply (IHa p).
    + destruct (IHa _ _ _ Halt Hp) as [Ha Hrest0].
      destruct (Ascii.eqb c "|").
      * destruct (RegExp.parseDisjunction fuel rest0) as [[b rest']|] eqn:Hd; [|done].
        injection Hparse as <- <-.
        apply not_elem_of_cons in Hrest0 as [_ Hrest0].
        destruct (IHd _ _ _ Hd Hrest0) as [Hb Hrest']. simpl. split; [lia|done].
      * injection Hparse as <- <-. done.
  - intros p r rest Hparse Hp. simpl in Hparse.
    destruct p as [|c p]; [injection Hparse as <- <-; done|].
    apply not_elem_of_cons in Hp as [Hc Hp].
    destruct (Ascii.eqb c "|" || Ascii.eqb c ")").
    + injection Hparse as <- <-. split; [done|]. by apply not_elem_of_cons.
    + destruct (Ascii.eqb c "(") eqn:Hopen; [by apply Ascii.eqb_eq in Hopen|].
      destruct (RegExp.isSyntaxChar c); [done|].
      destruct (RegExp.parseAlternative fuel p) as [[tl rest']|] eqn:Htl; [|done].
      injection Hparse as <- <-.
      destruct (IHa _ _ _ Htl Hp) as [Htl0 Hrest']. simpl. done.
Qed.

Lemma ofFragment_no_paren (pattern : string) (r : RegExp.t) :
  "("%char ∉ list_ascii_of_string pattern ->
  RegExp.ofFragment pattern = Ok r -> RegExp.captureGroups r = 0.
Proof.
  intros Hp. unfold RegExp.ofFragment, RegExp.parse.
  destruct (RegExp.parseDisjunction _ _) as [[node [|c rest]]|] eqn:Hparse;
    [|by destruct (existsb _ _)..].
  intros [= <-]. simpl.
  by destruct (proj1 (parse_no_paren _) _ _ _ Hparse Hp).
Qed.

Implicit Types (c : ascii) (s : string).

Lemma chars_append s1 s2 :
  list_ascii_of_string (s1 +:+ s2) = list_ascii_of_string s1 ++ list_ascii_of_string s2.
Proof. induction s1 as [|a s1 IH]; simpl; [done|]. by rewrite IH. Qed.

Lemma trimStart_chars c s :
  c ∈ list_ascii_of_string (JS.trimStart s) -> c ∈ list_ascii_of_string s.
Proof.
  induction s as [|a s IH]; simpl; [done|].
  destruct (JS.isWhiteSpace a); [|done]. intros Hc. right. by apply IH.
Qed.

Lemma trimEnd_chars c s :
  c ∈ list_ascii_of_string (JS.trimEnd s) -> c ∈ list_ascii_of_string s.
Proof.
  induction s as [|a s IH]; simpl; [done|].
  destruct (JS.trimEnd s) as [|b rest].
  - destruct (JS.isWhiteSpace a); simpl; [by intros ?%elem_of_nil|].
    intros ->%list_elem_of_singleton. left.
  - simpl. intros [->|Hc]%elem_of_cons; [left|]. right. by apply IH.
Qed.

Lemma elem_of_rev c (l : list ascii) : c ∈ rev l -> c ∈ l.
Proof. rewrite !list_elem_of_In. apply in_rev. Qed.

Lemma splitWhiteSpace_chars c s (cur : list ascii) (inGap : bool) (piece : string) :
  piece ∈ JS.splitWhiteSpace_aux s cur inGap ->
  c ∈ list_ascii_of_string piece -> c ∈ list_ascii_of_string s \/ c ∈ cur.
Proof.
  revert cur inGap. induction s as [|a s IH]; intros cur inGap; simpl.
  - intros ->%list_elem_of_singleton. rewrite list_ascii_of_string_of_list_ascii.
    intros Hc%elem_of_rev. by right.
  - destruct (JS.isWhiteSpace a).
    + destruct inGap.
      * intros Hpiece Hc. destruct (IH _ _ Hpiece Hc) as [?|?]; [left; by right|by right].
      * intros [->|Hpiece]%elem_of_cons Hc.
        -- rewrite list_ascii_of_string_of_list_ascii in Hc.
           apply elem_of_rev in Hc. by right.
        -- destruct (IH _ _ Hpiece Hc) as [?|Hnil]; [left; by right|].
           by apply elem_of_nil in Hnil.
    + intros Hpiece Hc. destruct (IH _ _ Hpiece Hc) as [?|Hcur]; [left; by right|].
      apply elem_of_cons in Hcur as [->|?]; [left; left|by right].
Qed.

Lemma join_chars c (sep : string) (parts : list string) :
  c ∈ list_ascii_of_string (JS.join sep parts) ->
  c ∈ list_ascii_of_string sep
  \/ exists part, part ∈ parts /\ c ∈ list_ascii_of_string part.
Proof.
  unfold JS.join. induction parts as [|x parts IH]; simpl; [by intros ?%elem_of_nil|].
  destruct parts as [|y parts].
  - intros Hc. right. exists x. split; [left|done].
  - rewrite !chars_append. intros [Hc|[Hc|Hc]%elem_of_app]%elem_of_app.
    + right. exists x. split; [left|done].
    + by left.
    + destruct (IH Hc) as [?|(part & Hpart & ?)]; [by left|].
      right. exists part. split; [by right|done].
Qed.

(** The expression of a query without an opening parenthesis has no capturing
    group, so the match count of every field is at most 1. *)
Lemma plain_query_no_groups (query : string) (searchRegex : RegExp.t) :
  "("%char ∉ list_ascii_of_string query ->
  RegExp.ofFragment (JS.join "|" (KeywordSearchEngine.keywordsOf query)) = Ok searchRegex ->
  RegExp.captureGroups searchRegex = 0
  /\ forall field, RegExp.matchLength searchRegex field <= 1.
Proof.
  intros Hquery Hregex.
  assert (Hgroups : RegExp.captureGroups searchRegex = 0).
  { revert Hregex. apply ofFragment_no_paren.
    intros [Hsep|(part & Hpart & Hc)]%join_chars.
    - apply list_elem_of_singleton in Hsep. discriminate Hsep.
    - unfold KeywordSearchEngine.keywordsOf, JS.splitWhiteSpace in Hpart.
      destruct (splitWhiteSpace_chars _ _ _ _ _ Hpart Hc) as [Hin|Hnil];
        [|by apply elem_of_nil in Hnil].
      by apply trimEnd_chars, trimStart_chars in Hin. }
  split; [done|]. intros field. by apply matchLength_no_groups.
Qed.

End FragmentFacts.

(** The query "Java  Selenium " gives the expression [Java|Selenium]. *)
Lemma plain_query_no_groups_witness :
  exists searchRegex,
    RegExp.ofFragment (JS.join "|" (KeywordSearchEngine.keywordsOf "Java  Selenium ")) = Ok searchRegex
    /\ RegExp.captureGroups searchRegex = 0
    /\ RegExp.matchLength searchRegex "Java, Selenium, Selenium Grid" <= 1.
Proof.
  destruct (RegExp.ofFragment (JS.join "|" (KeywordSearchEngine.keywordsOf "Java  Selenium ")))
    as [searchRegex|msg] eqn:Hregex; [|vm_compute in Hregex; discriminate Hregex].
  exists searchRegex. split; [reflexivity|].
  destruct (plain_query_no_groups "Java  Selenium " searchRegex) as [Hgroups Hcount];
    [|exact Hregex|].
  - apply (bool_decide_unpack _). vm_compute. exact I.
  - split; [exact Hgroups|apply Hcount].
Defined.

(** ** Ties keep the order of the store *)

Section Stability.

Lemma insertSorted_stable (q : Q) (x : SearchResultItem) (xs : list SearchResultItem) :
  List.filter (fun r => Qeq_bool (score r) q) (JS.insertSorted byScoreDesc x xs)
  = List.filter (fun r => Qeq_bool (score r) q) (x :: xs).
Proof.
  induction xs as [|y ys IH]; [done|].
  cbn [JS.insertSorted].
  destruct (byScoreDesc x y ?= 0)%Q eqn:Hcmp; [done..|].
  apply Qgt_alt in Hcmp. unfold byScoreDesc in Hcmp.
  cbn [List.filter] in *.
  destruct (Qeq_bool (score y) q) eqn:Hy; rewrite IH.
  - destruct (Qeq_bool (score x) q) eqn:Hx; [|done].
    apply Qeq_bool_iff in Hx, Hy. lra.
  - done.
Qed.

Lemma sort_stable (q : Q) (xs : list SearchResultItem) :
  List.filter (fun r => Qeq_bool (score r) q) (JS.sort byScoreDesc xs)
  = List.filter (fun r => Qeq_bool (score r) q) xs.
Proof.
  unfold JS.sort. induction xs as [|x xs IH]; [done|].
  cbn [foldr]. rewrite insertSorted_stable. cbn [List.filter]. by rewrite IH.
Qed.

End Stability.

(** The ranking of the keyword engine.  A keyword search that returns, returns
    the first [topK] of the documents the collection gave, each scored
    [min(totalScore / 30, 1)], ranked by descending score; results of equal
    score stay in the order of the collection. *)
Theorem keyword_search_ranking :
  forall (RegExp_new : string -> outcome RegExp.t)
         (collection : KeywordSearchEngine.Collection)
         (query : string) (topK : nat) (results : list SearchResultItem),
    KeywordSearchEngine.search RegExp_new collection query topK = Ok results ->
    exists searchRegex documents ranked,
      RegExp_new (JS.join "|" (KeywordSearchEngine.keywordsOf query)) = Ok searchRegex
      /\ collection searchRegex (topK * 2) = Ok documents
      /\ results = take topK ranked
      /\ length results <= topK
      /\ sortedDesc ranked
      /\ map score ranked
         ≡ₚ map (fun doc => Qmin (KeywordSearchEngine.totalScore searchRegex doc / 30) 1) documents
      /\ (forall q,
            List.filter (fun r => Qeq_bool (score r) q) ranked
            = List.filter (fun r => Qeq_bool (score r) q)
                (map (KeywordSearchEngine.toResult searchRegex
                        (KeywordSearchEngine.keywordsOf query)) documents)).
Proof.
  intros RegExp_new collection query topK results
    (searchRegex & documents & Hregex & Hdocs & ->)%search_Ok.
  exists searchRegex, documents,
    (JS.sort byScoreDesc
       (map (KeywordSearchEngine.toResult searchRegex (KeywordSearchEngine.keywordsOf query))
          documents)).
  split; [done|]. split; [done|]. split; [done|].
  split; [apply slice0_length|]. split; [apply sort_sortedDesc|].
  split; [|intros q; apply sort_stable].
  rewrite sort_perm, map_map. done.
Qed.

(** Scenario 1 of the specification: A (skills) is ranked before C (text). *)
Lemma keyword_search_ranking_witness :
  exists results,
    KeywordSearchEngine.search RegExp.ofFragment (fun _ _ => Ok [Sample.resumeC; Sample.resumeA])
      "Selenium" 2 = Ok results
    /\ map name results = ["A"; "C"]
    /\ length results <= 2.
Proof.
  destruct (KeywordSearchEngine.search RegExp.ofFragment
              (fun _ _ => Ok [Sample.resumeC; Sample.resumeA]) "Selenium" 2)
    as [results|msg] eqn:Hsearch; [|discriminate Hsearch].
  exists results. split; [reflexivity|].
  destruct (keyword_search_ranking _ _ _ _ _ Hsearch)
    as (searchRegex & documents & ranked & _ & _ & _ & Hlength & _).
  split; [|exact Hlength].
  vm_compute in Hsearch. injection Hsearch as <-. reflexivity.
Defined.

(** ** The cache over a run of requests *)

Section CacheFacts.

Lemma getOrCreate_managerOf (id : string) (conversations : ConversationStore.t) :
  ConversationStore.getOrCreate id conversations
  = (<[id := managerOf id conversations]> conversations, managerOf id conversations).
Proof.
  unfold ConversationStore.getOrCreate, managerOf.
  destruct (conversations !! id) as [manager|] eqn:Hlookup; simpl; [|done].
  by rewrite insert_id.
Qed.

Lemma managerOf_cache (id : string) (conversations : ConversationStore.t) :
  ChatMemory.getLastSearchResults (managerOf id conversations) = cacheOf id conversations.
Proof. unfold managerOf, cacheOf. by destruct (conversations !! id). Qed.

Lemma getOrCreate_cacheOf (id other : string) (conversations : ConversationStore.t) :
  cacheOf other (ConversationStore.getOrCreate id conversations).1 = cacheOf other conversations.
Proof.
  unfold cacheOf. destruct (decide (other = id)) as [->|Hne].
  - rewrite getOrCreate_lookup. unfold ConversationStore.getOrCreate.
    by destruct (conversations !! id).
  - by rewrite getOrCreate_other.
Qed.

Lemma cacheOf_insert (id other : string) (m : ConversationStore.Manager)
    (conversations : ConversationStore.t) :
  cacheOf other (<[id := m]> conversations)
  = if String.eqb id other then ChatMemory.getLastSearchResults m else cacheOf other conversations.
Proof.
  unfold cacheOf. destruct (String.eqb id other) eqn:Heq.
  - apply String.eqb_eq in Heq as ->. by rewrite lookup_insert_eq.
  - apply String.eqb_neq in Heq. by rewrite lookup_insert_ne.
Qed.

Lemma cacheOf_insert_same (id other : string) (m : ConversationStore.Manager)
    (conversations : ConversationStore.t) :
  ChatMemory.getLastSearchResults m = cacheOf id conversations ->
  cacheOf other (<[id := m]> conversations) = cacheOf other conversations.
Proof.
  intros Hsame. rewrite cacheOf_insert. destruct (String.eqb id other) eqn:Heq; [|done].
  by apply String.eqb_eq in Heq as <-.
Qed.

(** The handler, for a request that passes validation and meets an
    initialized pipeline, in terms of the manager it is served with. *)
Lemma chat_unfold (env : Server.Environment) (conversations : ConversationStore.t)
    (parsed : Server.ConversationalQuery)
    (pipeline : string -> RetrievalPipeline.SearchType -> nat -> outcome (list SearchResultItem)) :
  Server.message parsed <> EmptyString ->
  Server.retrievalPipeline env = Some pipeline ->
  let id := Server.effectiveId env parsed in
  let m := managerOf id conversations in
  Server.chat env conversations parsed
  = match Server.createChatModel env with
    | Throw msg => (<[id := m]> conversations, Throw msg)
    | Ok _ =>
        if Server.shouldUseFilter parsed m then
          let kept :=
            ConversationalFilter.filterResults (Server.filterModel env) (Server.message parsed)
              (ChatMemory.getLastSearchResults m) in
          let m' := ChatMemory.addExchange (Server.message parsed) kept.2 m in
          (<[id := m']> conversations,
           Ok (Server.mkResult kept.2 id (ChatMemory.getMessageCount m') kept.1
                 Server.filter (length kept.1)))
        else
          match pipeline (Server.message parsed) RetrievalPipeline.hybrid 10 with
          | Throw msg => (<[id := m]> conversations, Throw msg)
          | Ok results =>
              match Server.chain env (Server.message parsed) (ChatMemory.getMessages m) results with
              | Throw msg => (<[id := m]> conversations, Throw msg)
              | Ok response =>
                  let m' := ChatMemory.addExchange (Server.message parsed) response m in
                  (<[id := ChatMemory.setLastSearchResults (map Server.structured results) m']>
                     conversations,
                   Ok (Server.mkResult response id (ChatMemory.getMessageCount m')
                         (map Server.structured results) Server.hybrid (length results)))
              end
          end
    end.
Proof.
  intros Hmessage Hpipeline id m. unfold Server.chat. rewrite Hpipeline.
  destruct (Server.message parsed) as [|c rest] eqn:Hmsg; [done|].
  fold id. rewrite getOrCreate_managerOf. fold m.
  destruct (Server.createChatModel env) as [[]|msg]; [|done].
  destruct (Server.shouldUseFilter parsed m).
  - destruct (ConversationalFilter.filterResults _ _ _) as [filtered summary]. simpl.
    rewrite insert_insert_eq. do 3 f_equal.
    rewrite <- (map_id filtered) at 2. apply map_ext, restructured_id.
  - unfold ConversationalRAGChainManager.chat. rewrite andb_false_r.
    destruct (pipeline (String c rest) RetrievalPipeline.hybrid 10) as [results|msg];
      cbn [outcome_bind]; [|done].
    destruct (Server.chain env (String c rest) (ChatMemory.getMessages m) results) as [response|msg];
      cbn [outcome_bind]; [|done].
    by rewrite insert_insert_eq.
Qed.

(** One request: the cache of a conversation changes only through a retrieval
    for it that is answered. *)
Lemma chat_cache_step (env : Server.Environment) (conversations : ConversationStore.t)
    (parsed : Server.ConversationalQuery) (id : string) :
  cacheOf id (Server.chat env conversations parsed).1
  = default (cacheOf id conversations)
      (retrievalFor id (Server.chat env conversations parsed).2).
Proof.
  destruct (Server.retrievalPipeline env) as [pipeline|] eqn:Hpipeline;
    [|unfold Server.chat; rewrite Hpipeline; by destruct (Server.message parsed)].
  destruct (decide (Server.message parsed = EmptyString)) as [Hempty|Hmessage];
    [unfold Server.chat; by rewrite Hempty|].
  rewrite (chat_unfold env conversations parsed pipeline Hmessage Hpipeline).
  pose proof (managerOf_cache (Server.effectiveId env parsed) conversations) as Hcache.
  destruct (Server.createChatModel env) as [[]|msg]; [|by apply cacheOf_insert_same].
  destruct (Server.shouldUseFilter parsed _).
  - simpl. apply cacheOf_insert_same.
    unfold ChatMemory.getLastSearchResults in *. by rewrite addExchange_lastSearchResults.
  - destruct (pipeline _ _ _) as [results|msg]; [|by apply cacheOf_insert_same].
    destruct (Server.chain env _ _ _) as [response|msg]; [|by apply cacheOf_insert_same].
    simpl. rewrite cacheOf_insert. by destruct (String.eqb _ id).
Qed.

End CacheFacts.

(** After any run of requests the cache of a conversation holds the results
    of the last retrieval reported for it. *)
Lemma cache_holds_last_retrieval :
  forall (requests : list (Server.Environment * Server.ConversationalQuery))
         (conversations : ConversationStore.t) (id : string),
    cacheOf id (serve requests conversations).1
    = lastRetrieval id (cacheOf id conversations) (serve requests conversations).2.
Proof.
  intros requests. induction requests as [|[env parsed] rest IH]; intros conversations id.
  - reflexivity.
  - cbn [serve fst snd]. rewrite IH. unfold lastRetrieval. cbn [foldl].
    by rewrite chat_cache_step.
Qed.

Lemma map_structuredOf (results : list SearchResultItem) :
  Forall2 structuredOf results (map Server.structured results).
Proof. induction results as [|r results IH]; constructor; [by repeat split|done]. Qed.

(** C5, amended (the chat endpoint chooses between filter and retrieval, and
    only an answered retrieval replaces the cache).  For a request with a
    message, served with an initialized pipeline and a chat model that can be
    built, for the conversation [id] that the client names or, when it names
    none, that the server generates: the filter is used exactly when the
    conversation holds cached results and the message contains one of the
    twelve filter-intent tokens as a substring, case ignored, or the client
    sent a conversation id.  On the filter path the answer holds what the
    filter kept of the cached results and the filter's summary, and the cache
    is left as it was.  Otherwise the pipeline runs a hybrid search for 10
    results; when it and the reply chain succeed, the answer holds the seven
    structured fields of each result, in order, and these replace the cache;
    when either of them fails, the request fails and the cache is left as it
    was, whatever the retrieval found.  No other conversation is touched.  A
    request that is refused for any reason leaves every cache as it was.
    Hence, after any run of requests, the cached results of a conversation
    are those of the last answer reporting a retrieval (search type hybrid)
    for it, and what they were before the run when there is none. *)
Theorem chat_filter_or_retrieval :
  (forall (env : Server.Environment) (conversations : ConversationStore.t)
          (parsed : Server.ConversationalQuery)
          (pipeline : string -> RetrievalPipeline.SearchType -> nat -> outcome (list SearchResultItem))
          (id : string),
      Server.message parsed <> EmptyString ->
      Server.retrievalPipeline env = Some pipeline ->
      Server.createChatModel env = Ok tt ->
      (Server.conversationId parsed = Some id /\ id <> EmptyString)
      \/ (~ suppliedId parsed /\ id = Server.generatedId env) ->
      let cachedResults := cacheOf id conversations in
      let after := (Server.chat env conversations parsed).1 in
      let reply := (Server.chat env conversations parsed).2 in
      let filterChosen :=
        cachedResults <> []
        /\ (filterIntent (Server.message parsed) \/ suppliedId parsed) in
      (filterChosen ->
       exists result,
         reply = Ok result
         /\ Server.searchType result = Server.filter
         /\ Server.result_conversationId result = id
         /\ Server.searchResults result
            = (ConversationalFilter.filterResults (Server.filterModel env)
                 (Server.message parsed) cachedResults).1
         /\ Server.response result
            = (ConversationalFilter.filterResults (Server.filterModel env)
                 (Server.message parsed) cachedResults).2
         /\ Server.resultCount result = length (Server.searchResults result)
         /\ cacheOf id after = cachedResults)
      /\ (~ filterChosen ->
          match pipeline (Server.message parsed) RetrievalPipeline.hybrid 10 with
          | Throw msg => reply = Throw msg /\ cacheOf id after = cachedResults
          | Ok results =>
              match Server.chain env (Server.message parsed)
                      (ChatMemory.getMessages (managerOf id conversations)) results with
              | Throw msg => reply = Throw msg /\ cacheOf id after = cachedResults
              | Ok response =>
                  exists result,
                    reply = Ok result
                    /\ Server.searchType result = Server.hybrid
                    /\ Server.result_conversationId result = id
                    /\ Server.response result = response
                    /\ Forall2 structuredOf results (Server.searchResults result)
                    /\ Server.resultCount result = length results
                    /\ cacheOf id after = Server.searchResults result
              end
          end)
      /\ (forall other, other <> id -> after !! other = conversations !! other))
  /\ (forall (env : Server.Environment) (conversations : ConversationStore.t)
             (parsed : Server.ConversationalQuery) (msg id : string),
        (Server.chat env conversations parsed).2 = Throw msg ->
        cacheOf id (Server.chat env conversations parsed).1 = cacheOf id conversations)
  /\ (forall (requests : list (Server.Environment * Server.ConversationalQuery))
             (conversations : ConversationStore.t) (id : string),
        cacheOf id (serve requests conversations).1
        = lastRetrieval id (cacheOf id conversations) (serve requests conversations).2).
Proof.
  split; [|split].
  - intros env conversations parsed pipeline id Hmessage Hpipeline Hmodel Hid
      cachedResults after reply filterChosen.
    assert (Heffective : Server.effectiveId env parsed = id).
    { unfold Server.effectiveId.
      destruct Hid as [[Hsupplied Hne] | [Hnone ->]].
      - unfold Server.isNewConversation. rewrite Hsupplied. by destruct id.
      - destruct (Server.isNewConversation parsed) eqn:Hnew; [done|].
        by apply isNewConversation_spec in Hnew. }
    assert (Hchoice : Server.shouldUseFilter parsed (managerOf id conversations) = true
                      <-> filterChosen).
    { rewrite shouldUseFilter_spec. by rewrite managerOf_cache. }
    subst after reply.
    rewrite (chat_unfold env conversations parsed pipeline Hmessage Hpipeline).
    rewrite Heffective, Hmodel, managerOf_cache. fold cachedResults.
    split; [|split].
    + intros Hchosen. apply Hchoice in Hchosen as ->. cbn zeta. cbn [fst snd].
      eexists. split; [reflexivity|]. cbn.
      repeat split. rewrite cacheOf_insert, String.eqb_refl.
      unfold ChatMemory.getLastSearchResults. rewrite addExchange_lastSearchResults.
      apply managerOf_cache.
    + intros Hnot.
      destruct (Server.shouldUseFilter parsed (managerOf id conversations)) eqn:Huse;
        [exfalso; by apply Hnot, Hchoice|].
      assert (Hsame : cacheOf id (<[id := managerOf id conversations]> conversations)
                      = cachedResults).
      { apply cacheOf_insert_same, managerOf_cache. }
      destruct (pipeline (Server.message parsed) RetrievalPipeline.hybrid 10) as [results|msg];
        [|by split].
      destruct (Server.chain env _ _ results) as [response|msg]; [|by split].
      cbn zeta. cbn [fst snd]. eexists. split; [reflexivity|]. cbn.
      split; [done|]. split; [done|]. split; [done|].
      split; [apply map_structuredOf|]. split; [done|].
      by rewrite cacheOf_insert, String.eqb_refl.
    + intros other Hne.
      destruct (Server.shouldUseFilter parsed (managerOf id conversations)); cbn zeta.
      * cbn [fst]. by apply lookup_insert_ne.
      * destruct (pipeline _ _ _) as [results|msg]; [|by apply lookup_insert_ne].
        destruct (Server.chain env _ _ results) as [response|msg]; by apply lookup_insert_ne.
  - intros env conversations parsed msg id Hrefused.
    rewrite chat_cache_step, Hrefused. reflexivity.
  - exact cache_holds_last_retrieval.
Qed.

(** Scenario 6 of the specification, a follow-up "only those in Bengaluru" on
    the conversation "c1", which holds two cached results; and a request that
    names no conversation and asks "Show Me the Java ones", capitals
    included, of a server whose next generated id is that of a conversation
    with cached results: both take the filter path, the filter keeps A, and
    the cache keeps A and B. *)
Lemma chat_filter_or_retrieval_witness :
  (exists result,
      (Server.chat Sample.environment Sample.conversations
         (Server.mkQuery "only those in Bengaluru" (Some "c1"))).2 = Ok result
      /\ Server.searchType result = Server.filter
      /\ Server.searchResults result = [Sample.cached "A" (9 # 10)]
      /\ cacheOf "c1"
           (Server.chat Sample.environment Sample.conversations
              (Server.mkQuery "only those in Bengaluru" (Some "c1"))).1
         = [Sample.cached "A" (9 # 10); Sample.cached "B" (7 # 10)])
  /\ (exists result,
        (Server.chat Sample.environment Scenario.conversationsGenerated
           (Server.mkQuery "Show Me the Java ones" None)).2 = Ok result
        /\ Server.searchType result = Server.filter
        /\ Server.searchResults result = [Sample.cached "A" (9 # 10)]
        /\ cacheOf "conv_1_abc"
             (Server.chat Sample.environment Scenario.conversationsGenerated
                (Server.mkQuery "Show Me the Java ones" None)).1
           = [Sample.cached "A" (9 # 10); Sample.cached "B" (7 # 10)]).
Proof.
  split.
  - destruct (proj1 chat_filter_or_retrieval Sample.environment Sample.conversations
                (Server.mkQuery "only those in Bengaluru" (Some "c1"))
                (RetrievalPipeline.search Sample.pipeline) "c1")
      as ((result & Hreply & Htype & _ & Hresults & _ & _ & Hcache) & _).
    + discriminate.
    + reflexivity.
    + reflexivity.
    + left. split; [reflexivity|discriminate].
    + split; [discriminate|]. right. exists "c1". split; [reflexivity|discriminate].
    + exists result. split; [exact Hreply|]. split; [exact Htype|].
      split; [rewrite Hresults; vm_compute; reflexivity|].
      rewrite Hcache. reflexivity.
  - destruct (proj1 chat_filter_or_retrieval Sample.environment Scenario.conversationsGenerated
                (Server.mkQuery "Show Me the Java ones" None)
                (RetrievalPipeline.search Sample.pipeline) "conv_1_abc")
      as ((result & Hreply & Htype & _ & Hresults & _ & _ & Hcache) & _).
    + discriminate.
    + reflexivity.
    + reflexivity.
    + right. split; [|reflexivity]. intros (id & Hsupplied & _). discriminate Hsupplied.
    + split; [discriminate|]. left. exists "show me". split.
      * apply list_elem_of_further, list_elem_of_further, list_elem_of_here.
      * exists "", "Show Me", " the Java ones". split; [reflexivity|].
        simpl.
        repeat (apply List.Forall2_cons; [first [by left | right; left; vm_compute; lia]|]).
        apply List.Forall2_nil.
    + exists result. split; [exact Hreply|]. split; [exact Htype|].
      split; [rewrite Hresults; vm_compute; reflexivity|].
      rewrite Hcache. reflexivity.
Defined.

(** C5 does not hold as stated: a request that names no conversation is served
    by a retrieval, the hybrid search finds candidates, and the reply chain
    then throws; the request is refused and the results found do not replace
    the cache, which does not hold the most recent retrieval. *)
Lemma chat_retrieval_lost_when_reply_fails :
  match RetrievalPipeline.search Sample.pipeline "Find Selenium testers"
          RetrievalPipeline.hybrid 10 with
  | Ok (found :: _) =>
      (Server.chat Scenario.environmentMute ∅ (Server.mkQuery "Find Selenium testers" None)).2
      = Throw "model overloaded"
      /\ cacheOf "conv_3_def"
           (Server.chat Scenario.environmentMute ∅
              (Server.mkQuery "Find Selenium testers" None)).1 = []
      /\ ConversationStore.has "conv_3_def"
           (Server.chat Scenario.environmentMute ∅
              (Server.mkQuery "Find Selenium testers" None)).1 = true
  | _ => False
  end.
Proof. vm_compute. repeat split. Qed.

(** ** Hybrid engine: the merge in general *)

Section MergeInGeneral.
Import HybridSearchEngine.
Variable config : HybridSearchConfig.
Implicit Types (m : JS.Map SearchResultItem) (n : string).

Lemma Map_elem_get n (e : SearchResultItem) m :
  NoDup (map fst m) -> (n, e) ∈ m -> JS.Map_get n m = Some e.
Proof.
  induction m as [|[k w] m IH]; simpl; intros Hnd Hin; [by apply elem_of_nil in Hin|].
  apply NoDup_cons in Hnd as [Hk Hnd].
  apply elem_of_cons in Hin as [[= -> ->] | Hin].
  - by rewrite String.eqb_refl.
  - destruct (String.eqb n k) eqn:Hnk; [|by apply IH].
    apply String.eqb_eq in Hnk as ->. exfalso. apply Hk.
    apply list_elem_of_fmap. by exists (k, e).
Qed.

Lemma Map_set_keys_incl key (v : SearchResultItem) m key' :
  key' ∈ map fst (JS.Map_set key v m) <-> key' = key \/ key' ∈ map fst m.
Proof.
  rewrite Map_set_keys. unfold JS.Map_has.
  destruct (JS.Map_get key m) as [w|] eqn:Hget.
  - split; [by right|]. intros [-> | ?]; [|done].
    apply Map_get_elem in Hget. apply list_elem_of_fmap. by exists (key, w).
  - rewrite elem_of_app, list_elem_of_singleton. tauto.
Qed.

Lemma addVector_keys m (v : SearchResultItem) key :
  key ∈ map fst (addVector config m v) <-> key = name v \/ key ∈ map fst m.
Proof. unfold addVector. apply Map_set_keys_incl. Qed.

Lemma addKeyword_keys m (k : SearchResultItem) key :
  key ∈ map fst (addKeyword config m k) <-> key = name k \/ key ∈ map fst m.
Proof. unfold addKeyword. destruct (JS.Map_get (name k) m); apply Map_set_keys_incl. Qed.

Lemma foldl_keys (step : JS.Map SearchResultItem -> SearchResultItem -> JS.Map SearchResultItem)
    (xs : list SearchResultItem) m key :
  (forall m x key, key ∈ map fst (step m x) <-> key = name x \/ key ∈ map fst m) ->
  key ∈ map fst (foldl step m xs) <-> key ∈ map fst m \/ key ∈ map name xs.
Proof.
  intros Hstep. revert m. induction xs as [|x xs IH]; intros m; simpl.
  - rewrite elem_of_nil. tauto.
  - rewrite IH, Hstep, elem_of_cons. tauto.
Qed.

Lemma Map_set_allHybrid key (v : SearchResultItem) m :
  matchType v = Hybrid -> allHybrid m -> allHybrid (JS.Map_set key v m).
Proof.
  intros Hv Hm. apply Forall_forall. intros [k e] Hin.
  apply Map_set_elem in Hin as [[-> ->] | Hin]; [done|].
  unfold allHybrid in Hm. rewrite Forall_forall in Hm. by apply (Hm (k, e)).
Qed.

Lemma addVector_allHybrid m (v : SearchResultItem) : allHybrid m -> allHybrid (addVector config m v).
Proof. by apply Map_set_allHybrid. Qed.

Lemma addKeyword_allHybrid m (k : SearchResultItem) : allHybrid m -> allHybrid (addKeyword config m k).
Proof.
  intros Hm. unfold addKeyword.
  destruct (JS.Map_get (name k) m) as [existing|] eqn:Hget; apply Map_set_allHybrid; try done.
  simpl. apply Map_get_elem in Hget.
  unfold allHybrid in Hm. rewrite Forall_forall in Hm. by apply (Hm (name k, existing)).
Qed.

Lemma foldl_allHybrid (step : JS.Map SearchResultItem -> SearchResultItem -> JS.Map SearchResultItem)
    (xs : list SearchResultItem) m :
  (forall m x, allHybrid m -> allHybrid (step m x)) ->
  allHybrid m -> allHybrid (foldl step m xs).
Proof.
  intros Hstep. revert m. induction xs as [|x xs IH]; intros m Hm; simpl; [done|].
  apply IH. by apply Hstep.
Qed.

Lemma mergeMap_wellKeyed (vs ks : list SearchResultItem) :
  wellKeyed (foldl (addKeyword config) (foldl (addVector config) [] vs) ks).
Proof.
  apply foldl_wellKeyed; [apply addKeyword_wellKeyed|].
  apply foldl_wellKeyed; [apply addVector_wellKeyed|].
  split; [apply NoDup_nil_2|apply Forall_nil_2].
Qed.

Lemma scoreOf_addVector m (v : SearchResultItem) n :
  scoreOf n (addVector config m v)
  = if String.eqb (name v) n then (score v * vectorWeight config)%Q else scoreOf n m.
Proof.
  unfold scoreOf. destruct (String.eqb (name v) n) eqn:Hn.
  - apply String.eqb_eq in Hn as <-. by rewrite addVector_get_eq.
  - apply String.eqb_neq in Hn. by rewrite addVector_get_ne.
Qed.

Lemma scoreOf_addKeyword m (k : SearchResultItem) n :
  (scoreOf n (addKeyword config m k)
   == scoreOf n m + (if String.eqb (name k) n then score k * keywordWeight config else 0))%Q.
Proof.
  unfold scoreOf. destruct (String.eqb (name k) n) eqn:Hn.
  - apply String.eqb_eq in Hn as <-. rewrite addKeyword_get_eq.
    destruct (JS.Map_get (name k) m); simpl; lra.
  - apply String.eqb_neq in Hn. rewrite addKeyword_get_ne by done.
    destruct (JS.Map_get n m); lra.
Qed.

Lemma scoreOf_vectors (vs : list SearchResultItem) n :
  scoreOf n (foldl (addVector config) [] vs) = vectorShare config n vs.
Proof.
  unfold vectorShare. induction vs as [|v vs IH] using rev_ind; [done|].
  rewrite foldl_app, rev_app_distr. simpl. rewrite scoreOf_addVector, IH.
  by destruct (String.eqb (name v) n).
Qed.

Lemma scoreOf_keywords (ks : list SearchResultItem) m n :
  (scoreOf n (foldl (addKeyword config) m ks) == scoreOf n m + keywordShare config n ks)%Q.
Proof.
  unfold keywordShare. revert m. induction ks as [|k ks IH]; intros m; simpl; [lra|].
  rewrite IH, scoreOf_addKeyword.
  destruct (String.eqb (name k) n); simpl; lra.
Qed.

End MergeInGeneral.

(** X3.  For every pair of result lists, whether or not names repeat in them:
    the hybrid merge holds exactly one entry per name, the names merged are
    exactly the names of the two inputs, every entry is tagged hybrid, and
    there are at most as many entries as results were put in. *)
Theorem mergeResults_one_entry_per_name :
  forall (config : HybridSearchEngine.HybridSearchConfig)
         (vectorResults keywordResults : list SearchResultItem),
    let merged := HybridSearchEngine.mergeResults config vectorResults keywordResults in
    NoDup (map name merged)
    /\ (forall n, n ∈ map name merged
                  <-> n ∈ map name vectorResults \/ n ∈ map name keywordResults)
    /\ Forall (fun e => matchType e = Hybrid) merged
    /\ length merged <= length vectorResults + length keywordResults.
Proof.
  intros config V K merged.
  pose proof (mergeMap_wellKeyed config V K) as Hwk.
  assert (Hnames : map name merged
                   = map fst (foldl (HybridSearchEngine.addKeyword config)
                                (foldl (HybridSearchEngine.addVector config) [] V) K)).
  { subst merged. unfold HybridSearchEngine.mergeResults, JS.Map_values.
    destruct Hwk as [_ Hkeyed]. unfold keyedByName in Hkeyed. rewrite map_map.
    induction Hkeyed as [|[k e] m Hke _ IH]; simpl; [done|]. simpl in Hke. by rewrite Hke, IH. }
  assert (Hnd : NoDup (map name merged)) by (rewrite Hnames; apply Hwk).
  assert (Hiff : forall n, n ∈ map name merged <-> n ∈ map name V \/ n ∈ map name K).
  { intros n. rewrite Hnames.
    rewrite (foldl_keys _ _ _ _ (addKeyword_keys config)).
    rewrite (foldl_keys _ _ _ _ (addVector_keys config)).
    simpl. rewrite elem_of_nil. tauto. }
  split; [done|]. split; [done|]. split.
  - subst merged. unfold HybridSearchEngine.mergeResults, JS.Map_values.
    apply Forall_fmap.
    apply (foldl_allHybrid (HybridSearchEngine.addKeyword config)); [apply addKeyword_allHybrid|].
    apply (foldl_allHybrid (HybridSearchEngine.addVector config)); [apply addVector_allHybrid|].
    apply Forall_nil_2.
  - rewrite <- (length_map name merged), <- (length_map name V), <- (length_map name K).
    rewrite <- length_app. apply submseteq_length, NoDup_submseteq; [done|].
    intros n Hn. apply elem_of_app. by apply Hiff.
Qed.

(** X4.  For every pair of result lists and every merged entry: its score is
    the weighted score of the last vector result of its name (0 when there is
    none) plus the sum of the weighted scores of all keyword results of its
    name. *)
Theorem mergeResults_score_in_general :
  forall (config : HybridSearchEngine.HybridSearchConfig)
         (vectorResults keywordResults : list SearchResultItem) (e : SearchResultItem),
    e ∈ HybridSearchEngine.mergeResults config vectorResults keywordResults ->
    (score e == vectorShare config (name e) vectorResults
                + keywordShare config (name e) keywordResults)%Q.
Proof.
  intros config V K e He.
  pose proof (mergeMap_wellKeyed config V K) as [Hnd Hkeyed].
  unfold HybridSearchEngine.mergeResults in He. apply Map_values_elem in He as [key He].
  assert (key = name e) as ->.
  { unfold keyedByName in Hkeyed. rewrite Forall_forall in Hkeyed. symmetry. by apply (Hkeyed (key, e)). }
  apply Map_elem_get in He; [|done].
  pose proof (scoreOf_keywords config K (foldl (HybridSearchEngine.addVector config) [] V) (name e)) as Hs.
  rewrite scoreOf_vectors in Hs. unfold scoreOf at 1 in Hs. by rewrite He in Hs.
Qed.

Lemma mergeResults_score_in_general_witness :
  (score (Sample.item "A" (56 # 64) Hybrid "k1")
   == vectorShare (HybridSearchEngine.mkConfig (1 # 2) (1 # 2)) "A" [Sample.item "A" 1 Vector "v"]
      + keywordShare (HybridSearchEngine.mkConfig (1 # 2) (1 # 2)) "A"
          [Sample.item "A" (1 # 2) Keyword "k1"; Sample.item "A" (1 # 4) Keyword "k2"])%Q.
Proof.
  apply (mergeResults_score_in_general (HybridSearchEngine.mkConfig (1 # 2) (1 # 2))
           [Sample.item "A" 1 Vector "v"]
           [Sample.item "A" (1 # 2) Keyword "k1"; Sample.item "A" (1 # 4) Keyword "k2"]
           (Sample.item "A" (56 # 64) Hybrid "k1")).
  vm_compute. apply list_elem_of_here.
Defined.

(** ** Hybrid engine: [search] *)

Lemma mergeResults_NoDup (config : HybridSearchEngine.HybridSearchConfig)
    (vectorResults keywordResults : list SearchResultItem) :
  NoDup (map name (HybridSearchEngine.mergeResults config vectorResults keywordResults)).
Proof. apply wellKeyed_values_NoDup, mergeMap_wellKeyed. Qed.

Lemma mergeResults_allHybrid (config : HybridSearchEngine.HybridSearchConfig)
    (vectorResults keywordResults : list SearchResultItem) :
  Forall (fun e => matchType e = Hybrid)
    (HybridSearchEngine.mergeResults config vectorResults keywordResults).
Proof.
  unfold HybridSearchEngine.mergeResults, JS.Map_values. apply Forall_fmap.
  apply (foldl_allHybrid (HybridSearchEngine.addKeyword config)); [apply addKeyword_allHybrid|].
  apply (foldl_allHybrid (HybridSearchEngine.addVector config)); [apply addVector_allHybrid|].
  apply Forall_nil_2.
Qed.

Lemma sorted_slice_NoDup (k : nat) (xs : list SearchResultItem) :
  NoDup (map name xs) -> NoDup (map name (JS.slice0 k (JS.sort byScoreDesc xs))).
Proof.
  intros Hnd. unfold JS.slice0.
  eapply sublist_NoDup; [|apply (fmap_sublist name), sublist_take].
  change (NoDup (map name (JS.sort byScoreDesc xs))). by rewrite sort_perm.
Qed.

(** X5.  For every hybrid search that returns, whatever the two engines
    answered: the results are sorted by score in descending order, there are
    at most k of them, no two of them carry the same name, and every one is
    tagged hybrid. *)
Theorem hybrid_search_distinct_names :
  forall (config : HybridSearchEngine.HybridSearchConfig)
         (vectorEngine keywordEngine : string -> nat -> outcome (list SearchResultItem))
         (query : string) (topK : nat) (results : list SearchResultItem),
    HybridSearchEngine.search config vectorEngine keywordEngine query topK = Ok results ->
    length results <= topK
    /\ sortedDesc results
    /\ NoDup (map name results)
    /\ Forall (fun r => matchType r = Hybrid) results.
Proof.
  intros config vectorEngine keywordEngine query topK results
    (vectorResults & keywordResults & _ & _ & ->)%hybrid_results.
  split; [apply slice0_length|].
  split; [apply sortedDesc_take, sort_sortedDesc|].
  split; [apply sorted_slice_NoDup, mergeResults_NoDup|].
  unfold JS.slice0. apply Forall_take.
  apply Forall_forall. intros r Hr%sort_elem. revert r Hr. apply Forall_forall.
  apply mergeResults_allHybrid.
Qed.

Lemma hybrid_search_distinct_names_witness :
  exists results,
    RetrievalPipeline.hybridEngine Sample.pipeline "Selenium" 2 = Ok results
    /\ length results <= 2
    /\ sortedDesc results
    /\ NoDup (map name results)
    /\ Forall (fun r => matchType r = Hybrid) results.
Proof.
  destruct (RetrievalPipeline.hybridEngine Sample.pipeline "Selenium" 2) as [results|msg] eqn:Hrun;
    [|by vm_compute in Hrun].
  exists results. split; [done|].
  exact (hybrid_search_distinct_names (RetrievalPipeline.hybridConfig Sample.pipeline)
           (RetrievalPipeline.vectorEngine Sample.pipeline)
           (RetrievalPipeline.keywordEngine Sample.pipeline) "Selenium" 2 results Hrun).
Defined.
(** ** The search endpoint *)

Section SearchEndpoint.
Import Endpoints.

Lemma pipeline_search_length (p : RetrievalPipeline.t) (query : string)
    (searchType : RetrievalPipeline.SearchType) (topK : nat) (results : list SearchResultItem) :
  RetrievalPipeline.search p query searchType topK = Ok results -> length results <= topK.
Proof.
  intros (retrieved & staged & f & _ & _ & _ & ->)%search_Ok_stages.
  rewrite length_map. apply slice0_length.
Qed.

Lemma SearchRequestSchema_Ok (body : SearchRequest) :
  query body <> EmptyString -> 0 < default 3 (topK body) ->
  SearchRequestSchema body = Ok (query body, searchType body, default 3 (topK body)).
Proof.
  intros Hquery HtopK. unfold SearchRequestSchema.
  destruct (query body); [done|].
  by apply Nat.ltb_lt in HtopK as ->.
Qed.

Lemma keyword_search_invalid (RegExp_new : string -> outcome RegExp.t)
    (collection : KeywordSearchEngine.Collection) (query : string) (n : nat) (msg : string) :
  RegExp_new (JS.join "|" (KeywordSearchEngine.keywordsOf query)) = Throw msg ->
  KeywordSearchEngine.search RegExp_new collection query n
  = Throw ("Keyword search failed: " +:+ msg).
Proof. intros Hregex. unfold KeywordSearchEngine.search. by rewrite Hregex. Qed.

End SearchEndpoint.

(** X6.  For every well-formed search request whose query the regular
    expression constructor refuses: a keyword search is answered with status
    400 and the constructor's message behind the engine's prefix; so is a
    hybrid search for which the vector store answers, behind both prefixes. *)
Theorem searchResumes_invalid_query :
  forall (config : HybridSearchEngine.HybridSearchConfig) (pipeline : RetrievalPipeline.t)
         (body : Endpoints.SearchRequest) (msg : string),
    Endpoints.query body <> EmptyString ->
    0 < default 3 (Endpoints.topK body) ->
    RetrievalPipeline.RegExp_new (RetrievalPipeline.backend pipeline)
      (JS.join "|" (KeywordSearchEngine.keywordsOf (Endpoints.query body))) = Throw msg ->
    (Endpoints.searchType body = RetrievalPipeline.keyword ->
     Endpoints.searchResumes config (Some pipeline) body
     = Endpoints.Refused 400 ("Keyword search failed: " +:+ msg))
    /\ (Endpoints.searchType body = RetrievalPipeline.hybrid ->
        (exists hits,
            RetrievalPipeline.vectorStore (RetrievalPipeline.backend pipeline)
              (Endpoints.query body)
              ((if RetrievalPipeline.enabled pipeline
                then RetrievalPipeline.retrievalTopK pipeline
                else default 3 (Endpoints.topK body)) * 3) = Ok hits) ->
        Endpoints.searchResumes config (Some pipeline) body
        = Endpoints.Refused 400
            ("Hybrid search failed: " +:+ ("Keyword search failed: " +:+ msg))).
Proof.
  intros config pipeline body msg Hquery HtopK Hregex.
  unfold Endpoints.searchResumes. rewrite SearchRequestSchema_Ok by done.
  split.
  - intros ->. cbn [outcome_bind]. unfold RetrievalPipeline.search, RetrievalPipeline.keywordEngine.
    by rewrite (keyword_search_invalid _ _ _ _ _ Hregex).
  - intros -> [hits Hhits]. cbn [outcome_bind].
    unfold RetrievalPipeline.search, RetrievalPipeline.hybridEngine, HybridSearchEngine.search,
      RetrievalPipeline.vectorEngine, VectorSearchEngine.search, RetrievalPipeline.keywordEngine.
    rewrite Hhits. cbn [outcome_bind rethrow].
    by rewrite (keyword_search_invalid _ _ _ _ _ Hregex).
Qed.

Lemma searchResumes_invalid_query_witness :
  Endpoints.searchResumes (HybridSearchEngine.mkConfig (7 # 10) (3 # 10)) (Some Sample.pipeline)
    (Endpoints.mkSearchRequest "(java" RetrievalPipeline.keyword None)
  = Endpoints.Refused 400
      ("Keyword search failed: " +:+ "Invalid regular expression: /(java/i: Unterminated group").
Proof.
  apply (searchResumes_invalid_query (HybridSearchEngine.mkConfig (7 # 10) (3 # 10))
           Sample.pipeline (Endpoints.mkSearchRequest "(java" RetrievalPipeline.keyword None)
           "Invalid regular expression: /(java/i: Unterminated group").
  - discriminate.
  - simpl. lia.
  - vm_compute. reflexivity.
  - reflexivity.
Defined.

(** X7.  For every search request that is answered with a body: the pipeline
    was initialized, the query is not empty, topK is the requested count (3
    when the request names none) and positive, the results are what the
    pipeline returned for them, resultCount is their number and at most topK,
    and the hybrid weights are reported exactly for a hybrid search. *)
Theorem searchResumes_response :
  forall (config : HybridSearchEngine.HybridSearchConfig)
         (retrievalPipeline : option RetrievalPipeline.t)
         (body : Endpoints.SearchRequest) (response : Endpoints.SearchResponse),
    Endpoints.searchResumes config retrievalPipeline body = Endpoints.Sent response ->
    exists pipeline,
      retrievalPipeline = Some pipeline
      /\ Endpoints.query body <> EmptyString
      /\ Endpoints.response_topK response = default 3 (Endpoints.topK body)
      /\ 0 < Endpoints.response_topK response
      /\ RetrievalPipeline.search pipeline (Endpoints.query body) (Endpoints.searchType body)
           (Endpoints.response_topK response) = Ok (Endpoints.results response)
      /\ Endpoints.resultCount response = length (Endpoints.results response)
      /\ Endpoints.resultCount response <= Endpoints.response_topK response
      /\ Endpoints.hybridWeights response
         = match Endpoints.searchType body with
           | RetrievalPipeline.hybrid => Some config
           | _ => None
           end.
Proof.
  intros config retrievalPipeline body response.
  unfold Endpoints.searchResumes, Endpoints.SearchRequestSchema.
  destruct (Endpoints.query body) as [|c query] eqn:Hquery; [done|].
  destruct (0 <? default 3 (Endpoints.topK body))%nat eqn:HtopK; [|done].
  apply Nat.ltb_lt in HtopK. cbn [outcome_bind].
  destruct retrievalPipeline as [pipeline|]; [|done]. cbn [outcome_bind].
  destruct (RetrievalPipeline.search pipeline (String c query) (Endpoints.searchType body)
              (default 3 (Endpoints.topK body))) as [results|msg] eqn:Hsearch; [|done].
  cbn [outcome_bind]. intros [= <-]. exists pipeline. cbn.
  repeat split; try done.
  by apply pipeline_search_length in Hsearch.
Qed.

Lemma searchResumes_response_witness :
  exists response,
    Endpoints.searchResumes (HybridSearchEngine.mkConfig (7 # 10) (3 # 10)) (Some Sample.pipeline)
      (Endpoints.mkSearchRequest "Selenium" RetrievalPipeline.hybrid None)
    = Endpoints.Sent response
    /\ Endpoints.response_topK response = 3
    /\ Endpoints.resultCount response <= 3
    /\ Endpoints.hybridWeights response = Some (HybridSearchEngine.mkConfig (7 # 10) (3 # 10)).
Proof.
  destruct (Endpoints.searchResumes (HybridSearchEngine.mkConfig (7 # 10) (3 # 10))
              (Some Sample.pipeline)
              (Endpoints.mkSearchRequest "Selenium" RetrievalPipeline.hybrid None))
    as [response|status error] eqn:Hrun; [|by vm_compute in Hrun].
  exists response. split; [reflexivity|].
  destruct (searchResumes_response _ _ _ _ Hrun)
    as (pipeline & _ & _ & HtopK & _ & _ & _ & Hcount & Hweights).
  split; [exact HtopK|]. split; [|exact Hweights].
  rewrite HtopK in Hcount. exact Hcount.
Defined.

(** ** Re-ranker and pipeline: verdicts of distinct names, failures, and the
    pipeline without a chat model *)

Section RerankInPipeline.
Import RetrievalPipeline.

Lemma find_fmap {A B : Type} (f : A -> B) (p : B -> bool) (xs : list A) :
  JS.find p (map f xs) = f <$> JS.find (fun x => p (f x)) xs.
Proof.
  unfold JS.find. induction xs as [|x xs IH]; simpl; [done|].
  by destruct (p (f x)).
Qed.

Lemma elem_of_slice0 {A : Type} (n : nat) (xs : list A) (x : A) :
  x ∈ JS.slice0 n xs -> x ∈ xs.
Proof. unfold JS.slice0. intros (i & Hi & _)%elem_of_take. by eapply list_elem_of_lookup_2. Qed.

Lemma rerankOne_names (candidates : list SearchResultItem) (verdicts : list ResumeMatch.t) :
  map name (omap (LLMReranker.rerankOne candidates) verdicts)
  = map ResumeMatch.name (List.filter (contributes candidates) verdicts).
Proof.
  pose proof (f_equal (map fst) (rerankOne_verdicts candidates verdicts)) as H.
  by rewrite !map_map in H.
Qed.

Lemma rerankOne_origin (candidates : list SearchResultItem) (verdicts : list ResumeMatch.t)
    (r : SearchResultItem) :
  r ∈ omap (LLMReranker.rerankOne candidates) verdicts ->
  exists v, v ∈ verdicts /\ ResumeMatch.name v = name r
            /\ matchType r = LlmReranked
            /\ llmReasoning r = Some (ResumeMatch.reasoning v)
            /\ extractedInfo r = ResumeMatch.extractedInfo v.
Proof.
  intros (v & Hv & Hone)%list_elem_of_omap. exists v. split; [done|].
  apply rerankOne_Some in Hone as (_ & c & Hfind & ->). simpl.
  apply find_elem in Hfind as [_ Hname]. apply String.eqb_eq in Hname. by rewrite Hname.
Qed.

Lemma find_unique_name (verdicts : list ResumeMatch.t) (v : ResumeMatch.t) :
  NoDup (map ResumeMatch.name verdicts) -> v ∈ verdicts ->
  JS.find (fun m => String.eqb (ResumeMatch.name m) (ResumeMatch.name v)) verdicts = Some v.
Proof.
  unfold JS.find. induction verdicts as [|x verdicts IH]; simpl; intros Hnd Hin;
    [by apply elem_of_nil in Hin|].
  apply NoDup_cons in Hnd as [Hx Hnd].
  destruct (String.eqb (ResumeMatch.name x) (ResumeMatch.name v)) eqn:Hname.
  - apply elem_of_cons in Hin as [-> | Hin]; [done|].
    apply String.eqb_eq in Hname. exfalso. apply Hx. rewrite Hname.
    apply list_elem_of_fmap. by exists v.
  - apply elem_of_cons in Hin as [-> | Hin]; [by rewrite String.eqb_refl in Hname|].
    by apply IH.
Qed.

Lemma rerankAndFilter_failed_matches (model : LLMReranker.Model) (query : string)
    (candidates : list SearchResultItem) :
  candidates <> [] ->
  failed LLMReranker.LLMRerankResponseSchema (model query candidates) ->
  LLMReranker.rerankAndFilter model query candidates
  = LLMReranker.mkOutput candidates
      (LLMReranker.llmAnalysis_summary (LLMReranker.rerankAndFilter model query candidates))
      (LLMReranker.fallbackMatches (fallbackReasoning (model query candidates)) candidates).
Proof.
  intros Hne Hfailed. unfold LLMReranker.rerankAndFilter.
  destruct candidates as [|c cs]; [done|].
  destruct (model query (c :: cs)) as [message|responseText|rawJson]; simpl in *; try done.
  by rewrite Hfailed.
Qed.

Lemma attach_fallback (reasoning : string) (candidates : list SearchResultItem)
    (x : SearchResultItem) :
  x ∈ candidates ->
  attach (LLMReranker.fallbackMatches reasoning candidates) x
  = withAnalysis (mkLLMAnalysis reasoning None) x.
Proof.
  intros Hin. unfold attach, LLMReranker.fallbackMatches. rewrite find_fmap. simpl.
  destruct (JS.find (fun c => String.eqb (name c) (name x)) candidates) as [c|] eqn:Hfind; [done|].
  apply find_none in Hfind. rewrite Forall_forall in Hfind.
  specialize (Hfind x Hin). simpl in Hfind. by rewrite String.eqb_refl in Hfind.
Qed.

Lemma search_reranked (p : t) (model : LLMReranker.Model) (query : string)
    (searchType : SearchType) (topK : nat) (retrieved : list SearchResultItem) :
  llmReranker p = Some model -> enabled p = true ->
  retrieve p searchType query (retrievalTopK p) = Ok retrieved ->
  retrieved <> [] ->
  search p query searchType topK
  = Ok (map (attach (LLMReranker.llmAnalysis_matches
                       (LLMReranker.rerankAndFilter model query retrieved)))
          (JS.slice0 topK (LLMReranker.results
                             (LLMReranker.rerankAndFilter model query retrieved)))).
Proof.
  intros Hmodel Henabled Hretrieve Hne. unfold search. rewrite Henabled, Hmodel.
  replace (match searchType with
           | keyword => keywordEngine p query (retrievalTopK p)
           | vector => vectorEngine p query (retrievalTopK p)
           | hybrid => hybridEngine p query (retrievalTopK p)
           end) with (retrieve p searchType query (retrievalTopK p)) by by destruct searchType.
  rewrite Hretrieve. cbn [outcome_bind].
  destruct retrieved as [|r rs]; [done|]. done.
Qed.

End RerankInPipeline.

(** X8.  For every re-rank run on a non-empty candidate list whose reply
    conforms to the schema and gives no two verdicts the same name: no two
    returned results carry the same name, and there are at most as many
    results as candidates. *)
Theorem rerankAndFilter_distinct_verdicts :
  forall (model : LLMReranker.Model) (query : string)
         (candidates : list SearchResultItem) (parsedResponse : LLMReranker.LLMRerankResponse),
    candidates <> [] ->
    answered LLMReranker.LLMRerankResponseSchema (model query candidates) parsedResponse ->
    NoDup (map ResumeMatch.name (LLMReranker.matches parsedResponse)) ->
    NoDup (map name (LLMReranker.results (LLMReranker.rerankAndFilter model query candidates)))
    /\ length (LLMReranker.results (LLMReranker.rerankAndFilter model query candidates))
       <= length candidates.
Proof.
  intros model query candidates parsedResponse Hne Hanswered Hnd.
  rewrite (rerankAndFilter_answered model query candidates parsedResponse Hne Hanswered).
  cbn [LLMReranker.results].
  assert (Hnames : NoDup (map name (JS.sort byScoreDesc
             (omap (LLMReranker.rerankOne candidates) (LLMReranker.matches parsedResponse))))).
  { rewrite sort_perm, rerankOne_names.
    eapply sublist_NoDup; [|apply (fmap_sublist ResumeMatch.name), filter_sublist]. exact Hnd. }
  split; [done|].
  rewrite <- (length_map name), <- (length_map name candidates).
  apply submseteq_length, NoDup_submseteq; [done|].
  intros n Hn. change (n ∈ map name (JS.sort byScoreDesc
             (omap (LLMReranker.rerankOne candidates) (LLMReranker.matches parsedResponse)))) in Hn.
  rewrite sort_perm, rerankOne_names in Hn.
  apply list_elem_of_fmap in Hn as (v & -> & Hv).
  apply list_elem_of_In, filter_In in Hv as [_ Hv].
  unfold contributes in Hv. apply andb_true_iff in Hv as [_ Hv].
  apply existsb_exists in Hv as (c & Hc & Hname).
  apply String.eqb_eq in Hname as <-. apply list_elem_of_fmap. exists c.
  split; [done|by apply list_elem_of_In].
Qed.

Lemma rerankAndFilter_distinct_verdicts_witness :
  NoDup (map name (LLMReranker.results
           (LLMReranker.rerankAndFilter (fun _ _ => Parsed Sample.strictReply) "QA"
              Sample.candidatesABC)))
  /\ length (LLMReranker.results
               (LLMReranker.rerankAndFilter (fun _ _ => Parsed Sample.strictReply) "QA"
                  Sample.candidatesABC)) <= 3.
Proof.
  assert (Hparsed : is_Some (Zod.object LLMReranker.LLMRerankResponseSchema (Some Sample.strictReply)))
    by (vm_compute; eauto).
  destruct Hparsed as [parsedResponse Hparsed].
  apply (rerankAndFilter_distinct_verdicts (fun _ _ => Parsed Sample.strictReply) "QA"
           Sample.candidatesABC parsedResponse).
  - discriminate.
  - exists Sample.strictReply. split; [reflexivity|exact Hparsed].
  - vm_compute in Hparsed. injection Hparsed as <-. simpl.
    repeat (apply NoDup_cons_2; [rewrite ?elem_of_cons, elem_of_nil; intuition discriminate|]).
    apply NoDup_nil_2.
Defined.

(** X9.  For every pipeline search with re-ranking enabled whose engine
    returns candidates and whose reply conforms to the schema with no two
    verdicts of the same name: every returned result is tagged llm-reranked
    and its llmAnalysis carries the same reasoning and the same extracted
    information as the result's own llmReasoning and extractedInfo. *)
Theorem pipeline_analysis_agrees :
  forall (p : RetrievalPipeline.t) (model : LLMReranker.Model) (query : string)
         (searchType : RetrievalPipeline.SearchType) (topK : nat)
         (retrieved : list SearchResultItem) (parsedResponse : LLMReranker.LLMRerankResponse),
    RetrievalPipeline.llmReranker p = Some model ->
    RetrievalPipeline.enabled p = true ->
    retrieve p searchType query (RetrievalPipeline.retrievalTopK p) = Ok retrieved ->
    retrieved <> [] ->
    answered LLMReranker.LLMRerankResponseSchema (model query retrieved) parsedResponse ->
    NoDup (map ResumeMatch.name (LLMReranker.matches parsedResponse)) ->
    exists results,
      RetrievalPipeline.search p query searchType topK = Ok results
      /\ Forall (fun r =>
                   matchType r = LlmReranked
                   /\ exists reasoning,
                       llmReasoning r = Some reasoning
                       /\ llmAnalysis r = Some (mkLLMAnalysis reasoning (extractedInfo r)))
           results.
Proof.
  intros p model query searchType topK retrieved parsedResponse
    Hmodel Henabled Hretrieve Hne Hanswered Hnd.
  eexists. split; [by apply search_reranked|].
  rewrite (rerankAndFilter_answered model query retrieved parsedResponse Hne Hanswered).
  cbn [LLMReranker.results LLMReranker.llmAnalysis_matches].
  apply Forall_fmap, Forall_forall. intros x Hx.
  apply elem_of_slice0, sort_elem, rerankOne_origin in Hx
    as (v & Hv & Hname & Htag & Hreasoning & Hinfo).
  unfold compose, RetrievalPipeline.attach.
  rewrite <- Hname, (find_unique_name _ _ Hnd Hv). simpl.
  split; [done|]. exists (ResumeMatch.reasoning v). by rewrite Hinfo.
Qed.

Lemma pipeline_analysis_agrees_witness :
  exists results,
    RetrievalPipeline.search (Scenario.reranking (fun _ _ => Parsed Sample.strictReply))
      "Selenium" RetrievalPipeline.hybrid 2 = Ok results
    /\ Forall (fun r =>
                 matchType r = LlmReranked
                 /\ exists reasoning,
                     llmReasoning r = Some reasoning
                     /\ llmAnalysis r = Some (mkLLMAnalysis reasoning (extractedInfo r)))
         results.
Proof.
  destruct (retrieve (Scenario.reranking (fun _ _ => Parsed Sample.strictReply))
              RetrievalPipeline.hybrid "Selenium" 10) as [retrieved|msg] eqn:Hretrieve;
    [|by vm_compute in Hretrieve].
  assert (Hparsed : is_Some (Zod.object LLMReranker.LLMRerankResponseSchema (Some Sample.strictReply)))
    by (vm_compute; eauto).
  destruct Hparsed as [parsedResponse Hparsed].
  apply (pipeline_analysis_agrees (Scenario.reranking (fun _ _ => Parsed Sample.strictReply))
           (fun _ _ => Parsed Sample.strictReply) "Selenium" RetrievalPipeline.hybrid 2
           retrieved parsedResponse).
  - reflexivity.
  - reflexivity.
  - exact Hretrieve.
  - vm_compute in Hretrieve. injection Hretrieve as <-. discriminate.
  - exists Sample.strictReply. split; [reflexivity|exact Hparsed].
  - vm_compute in Hparsed. injection Hparsed as <-. simpl.
    repeat (apply NoDup_cons_2; [rewrite ?elem_of_cons, elem_of_nil; intuition discriminate|]).
    apply NoDup_nil_2.
Defined.

(** X10.  For every pipeline search with re-ranking enabled whose engine
    returns candidates and whose interaction with the chat model fails: the
    search returns the first topK candidates in the engine's order, each
    unchanged but for its llmAnalysis, which reports the fallback. *)
Theorem pipeline_llm_failure_keeps_engine_results :
  forall (p : RetrievalPipeline.t) (model : LLMReranker.Model) (query : string)
         (searchType : RetrievalPipeline.SearchType) (topK : nat)
         (retrieved : list SearchResultItem),
    RetrievalPipeline.llmReranker p = Some model ->
    RetrievalPipeline.enabled p = true ->
    retrieve p searchType query (RetrievalPipeline.retrievalTopK p) = Ok retrieved ->
    retrieved <> [] ->
    failed LLMReranker.LLMRerankResponseSchema (model query retrieved) ->
    RetrievalPipeline.search p query searchType topK
    = Ok (map (withAnalysis (mkLLMAnalysis (fallbackReasoning (model query retrieved)) None))
            (JS.slice0 topK retrieved)).
Proof.
  intros p model query searchType topK retrieved Hmodel Henabled Hretrieve Hne Hfailed.
  rewrite (search_reranked p model query searchType topK retrieved) by done.
  rewrite (rerankAndFilter_failed_matches model query retrieved Hne Hfailed).
  cbn [LLMReranker.results LLMReranker.llmAnalysis_matches]. f_equal.
  apply map_ext_in. intros x Hx. apply attach_fallback.
  apply list_elem_of_In in Hx. by apply elem_of_slice0 in Hx.
Qed.

Lemma pipeline_llm_failure_keeps_engine_results_witness :
  exists retrieved,
    retrieve (Scenario.reranking (fun _ _ => Sample.proseReply))
      RetrievalPipeline.hybrid "Selenium" 10 = Ok retrieved
    /\ RetrievalPipeline.search (Scenario.reranking (fun _ _ => Sample.proseReply))
         "Selenium" RetrievalPipeline.hybrid 2
       = Ok (map (withAnalysis
                    (mkLLMAnalysis "LLM parsing failed - using original vector search score" None))
               (JS.slice0 2 retrieved)).
Proof.
  destruct (retrieve (Scenario.reranking (fun _ _ => Sample.proseReply))
              RetrievalPipeline.hybrid "Selenium" 10) as [retrieved|msg] eqn:Hretrieve;
    [|by vm_compute in Hretrieve].
  exists retrieved. split; [reflexivity|].
  apply (pipeline_llm_failure_keeps_engine_results
           (Scenario.reranking (fun _ _ => Sample.proseReply))
           (fun _ _ => Sample.proseReply) "Selenium" RetrievalPipeline.hybrid 2 retrieved).
  - reflexivity.
  - reflexivity.
  - exact Hretrieve.
  - vm_compute in Hretrieve. injection Hretrieve as <-. discriminate.
  - exact I.
Defined.

(** X11.  For every pipeline built without a chat model, or with re-ranking
    switched off in its configuration: a search asks the engine for topK
    results and returns the first topK of what it answers, and fails with the
    engine's error when the engine fails. *)
Theorem pipeline_without_reranking :
  forall (backend : RetrievalPipeline.Backend) (hybridConfig : HybridSearchEngine.HybridSearchConfig)
         (chatModel : option LLMReranker.Model)
         (config_enabled : option bool) (config_retrievalTopK : option nat)
         (query : string) (searchType : RetrievalPipeline.SearchType) (topK : nat),
    chatModel = None \/ config_enabled = Some false ->
    RetrievalPipeline.search
      (RetrievalPipeline.new backend hybridConfig chatModel config_enabled config_retrievalTopK)
      query searchType topK
    = match retrieve
              (RetrievalPipeline.new backend hybridConfig chatModel config_enabled
                 config_retrievalTopK)
              searchType query topK with
      | Ok retrieved => Ok (JS.slice0 topK retrieved)
      | Throw msg => Throw msg
      end.
Proof.
  intros backend hybridConfig chatModel config_enabled config_retrievalTopK query searchType topK Hoff.
  assert (Henabled : RetrievalPipeline.enabled
            (RetrievalPipeline.new backend hybridConfig chatModel config_enabled
               config_retrievalTopK) = false).
  { destruct Hoff as [-> | ->]; [done|]. by destruct chatModel. }
  assert (Hreranker : RetrievalPipeline.llmReranker
            (RetrievalPipeline.new backend hybridConfig chatModel config_enabled
               config_retrievalTopK) = None).
  { destruct Hoff as [-> | ->]; [done|]. by destruct chatModel. }
  unfold RetrievalPipeline.search. rewrite Henabled, Hreranker.
  destruct searchType; cbn [retrieve];
    match goal with |- context [outcome_bind ?e _] => destruct e end; done.
Qed.

Lemma pipeline_without_reranking_witness :
  RetrievalPipeline.search Sample.pipeline "Selenium" RetrievalPipeline.hybrid 2
  = match retrieve Sample.pipeline RetrievalPipeline.hybrid "Selenium" 2 with
    | Ok retrieved => Ok (JS.slice0 2 retrieved)
    | Throw msg => Throw msg
    end.
Proof.
  apply (pipeline_without_reranking Sample.backend
           (HybridSearchEngine.mkConfig (7 # 10) (3 # 10)) None None None
           "Selenium" RetrievalPipeline.hybrid 2).
  left. reflexivity.
Defined.

(** ** The conversation endpoints *)

Section ConversationEndpoints.
Import Endpoints.

Lemma has_true (id : string) (conversations : ConversationStore.t) :
  ConversationStore.has id conversations = true <-> is_Some (conversations !! id).
Proof. unfold ConversationStore.has. apply bool_decide_eq_true. Qed.

Lemma has_false (id : string) (conversations : ConversationStore.t) :
  ConversationStore.has id conversations = false <-> conversations !! id = None.
Proof.
  unfold ConversationStore.has. rewrite bool_decide_eq_false. symmetry. apply eq_None_not_Some.
Qed.

Lemma chatHistory_store (conversations : ConversationStore.t) (id : string) :
  (chatHistory conversations id).1 = conversations.
Proof.
  unfold chatHistory. destruct id as [|c id]; [done|].
  destruct (ConversationStore.has (String c id) conversations) eqn:Hhas; simpl; [|done].
  apply has_true in Hhas as [manager Hlookup].
  unfold ConversationStore.getOrCreate. by rewrite Hlookup.
Qed.

Lemma chatHistory_known (conversations : ConversationStore.t) (id : string)
    (manager : ConversationStore.Manager) :
  id <> EmptyString -> conversations !! id = Some manager ->
  (chatHistory conversations id).2
  = Sent (mkHistory id (map toChatMessage (ChatMemory.chatHistory manager))
            (length (ChatMemory.chatHistory manager))).
Proof.
  intros Hid Hlookup. unfold chatHistory. destruct id as [|c id]; [done|].
  assert (Hhas : ConversationStore.has (String c id) conversations = true)
    by by apply has_true.
  rewrite Hhas. simpl. unfold ConversationStore.getOrCreate. rewrite Hlookup. simpl.
  by rewrite length_map.
Qed.

Lemma chatHistory_unknown (conversations : ConversationStore.t) (id : string) :
  id <> EmptyString -> conversations !! id = None ->
  (chatHistory conversations id).2 = Refused 404 ("Conversation not found: " +:+ id).
Proof.
  intros Hid Hlookup. unfold chatHistory. destruct id as [|c id]; [done|].
  apply has_false in Hlookup. by rewrite Hlookup.
Qed.

Lemma deleteConversation_store (conversations : ConversationStore.t) (id : string) :
  (deleteConversation conversations id).1 = delete id conversations.
Proof.
  unfold deleteConversation, ConversationStore.delete_.
  by destruct (ConversationStore.has id conversations).
Qed.

End ConversationEndpoints.

(** X12.  For every conversation store and every id: the history endpoint
    leaves the store as it was (it creates no conversation); it answers 404
    for an id the store does not hold, and for one it holds the messages of
    that conversation in order, user and assistant by turns as they were
    saved, with their number. *)
Theorem chatHistory_reads_only :
  forall (conversations : ConversationStore.t) (id : string),
    (Endpoints.chatHistory conversations id).1 = conversations
    /\ (id <> EmptyString -> conversations !! id = None ->
        (Endpoints.chatHistory conversations id).2
        = Endpoints.Refused 404 ("Conversation not found: " +:+ id))
    /\ (forall manager,
          id <> EmptyString -> conversations !! id = Some manager ->
          (Endpoints.chatHistory conversations id).2
          = Endpoints.Sent
              (Endpoints.mkHistory id
                 (map Endpoints.toChatMessage (ChatMemory.getMessages manager))
                 (ChatMemory.getMessageCount manager))).
Proof.
  intros conversations id. split; [apply chatHistory_store|].
  split; [apply chatHistory_unknown|].
  intros manager. apply chatHistory_known.
Qed.
Section ChatOutcome.
Import Server.

Lemma setLastSearchResults_same {R : Type} (m : ChatMemory.ChatMemoryManager R) :
  ChatMemory.setLastSearchResults (ChatMemory.lastSearchResults m) m = m.
Proof. by destruct m. Qed.

(** What one chat request comes to, in terms of the manager it is served
    with. *)
Lemma chat_outcome (env : Environment) (conversations : ConversationStore.t)
    (parsed : ConversationalQuery)
    (pipeline : string -> RetrievalPipeline.SearchType -> nat -> outcome (list SearchResultItem)) :
  message parsed <> EmptyString -> retrievalPipeline env = Some pipeline ->
  (exists msg,
      chat env conversations parsed
      = (<[effectiveId env parsed := managerOf (effectiveId env parsed) conversations]> conversations,
         Throw msg))
  \/ (exists result cache,
        chat env conversations parsed
        = (<[effectiveId env parsed :=
               ChatMemory.setLastSearchResults cache
                 (ChatMemory.addExchange (message parsed) (response result)
                    (managerOf (effectiveId env parsed) conversations))]> conversations,
           Ok result)
        /\ result_conversationId result = effectiveId env parsed
        /\ messageCount result
           = length (ChatMemory.chatHistory
                       (ChatMemory.addExchange (message parsed) (response result)
                          (managerOf (effectiveId env parsed) conversations)))
        /\ searchType result
           = if shouldUseFilter parsed (managerOf (effectiveId env parsed) conversations)
             then filter else hybrid).
Proof.
  intros Hmessage Hpipeline.
  rewrite (chat_unfold env conversations parsed pipeline Hmessage Hpipeline).
  set (cid := effectiveId env parsed). set (m := managerOf cid conversations).
  destruct (createChatModel env) as [[]|msg]; [|left; by exists msg].
  destruct (shouldUseFilter parsed m) eqn:Hfilter.
  - right.
    destruct (ConversationalFilter.filterResults (filterModel env) (message parsed)
                (ChatMemory.getLastSearchResults m)) as [filtered summary].
    cbn zeta. cbn [fst snd].
    exists (mkResult summary cid
              (ChatMemory.getMessageCount (ChatMemory.addExchange (message parsed) summary m))
              filtered filter (length filtered)),
      (ChatMemory.lastSearchResults (ChatMemory.addExchange (message parsed) summary m)).
    cbn [response result_conversationId messageCount searchType].
    rewrite setLastSearchResults_same. done.
  - destruct (pipeline (message parsed) RetrievalPipeline.hybrid 10) as [results|msg];
      [|left; by exists msg].
    destruct (chain env (message parsed) (ChatMemory.getMessages m) results) as [reply|msg];
      [|left; by exists msg].
    right. cbn zeta.
    exists (mkResult reply cid
              (ChatMemory.getMessageCount (ChatMemory.addExchange (message parsed) reply m))
              (map structured results) hybrid (length results)),
      (map structured results).
    cbn [response result_conversationId messageCount searchType].
    done.
Qed.

End ChatOutcome.

Section StoreInvariant.
Import ChatMemory.

Lemma transcript_length (exchanges : list (string * string)) :
  length (transcript exchanges) = 2 * length exchanges.
Proof.
  induction exchanges as [|e exchanges IH]; [done|].
  rewrite transcript_cons, length_app, IH. simpl. lia.
Qed.

Lemma transcript_snoc (exchanges : list (string * string)) (u a : string) :
  transcript exchanges ++ [mkMessage HumanMessage u; mkMessage AIMessage a]
  = transcript (exchanges ++ [(u, a)]).
Proof.
  induction exchanges as [|e exchanges IH]; [done|].
  rewrite <- app_comm_cons, !transcript_cons, <- IH. by rewrite <- app_assoc.
Qed.

Lemma addExchange_transcript (u a : string) (m : ConversationStore.Manager) :
  maxMessages m = 10 -> completeExchanges (chatHistory m) ->
  exists exchanges,
    chatHistory (addExchange u a m) = transcript (exchanges ++ [(u, a)])
    /\ length exchanges <= 4.
Proof.
  intros Hmax (exchanges & Hhistory & Hlen).
  rewrite addExchange_history, Hmax, Hhistory, transcript_length, transcript_snoc.
  destruct (decide (length exchanges = 5)) as [Hfull|Hroom].
  - destruct exchanges as [|e exchanges]; [done|].
    exists exchanges. split.
    + rewrite Hfull. rewrite <- app_comm_cons, transcript_cons. reflexivity.
    + simpl in *. lia.
  - exists exchanges. split.
    + replace (2 * length exchanges + 2 - 10) with 0 by lia. reflexivity.
    + lia.
Qed.

Lemma addExchange_completeExchanges (u a : string) (m : ConversationStore.Manager) :
  maxMessages m = 10 -> completeExchanges (chatHistory m) ->
  completeExchanges (chatHistory (addExchange u a m)).
Proof.
  intros Hmax Hcomplete.
  destruct (addExchange_transcript u a m Hmax Hcomplete) as (exchanges & -> & Hlen).
  exists (exchanges ++ [(u, a)]). split; [done|]. rewrite length_app. simpl. lia.
Qed.

Lemma addExchange_conversationId {R : Type} (u a : string) (m : ChatMemoryManager R) :
  conversationId (addExchange u a m) = conversationId m.
Proof. unfold addExchange, trimMessages. by destruct (_ <? _)%nat. Qed.

Lemma managerOf_wellFormed (id : string) (conversations : ConversationStore.t) :
  wellFormed conversations ->
  conversationId (managerOf id conversations) = id
  /\ maxMessages (managerOf id conversations) = 10
  /\ completeExchanges (chatHistory (managerOf id conversations)).
Proof.
  intros Hwf. unfold managerOf.
  destruct (conversations !! id) as [m|] eqn:Hlookup; simpl.
  - by apply (Hwf id m).
  - repeat split. exists []. split; [done|simpl; lia].
Qed.

Lemma chat_wellFormed (env : Server.Environment) (conversations : ConversationStore.t)
    (parsed : Server.ConversationalQuery) :
  wellFormed conversations -> wellFormed (Server.chat env conversations parsed).1.
Proof.
  intros Hwf.
  destruct (Server.retrievalPipeline env) as [pipeline|] eqn:Hpipeline;
    [|unfold Server.chat; rewrite Hpipeline; by destruct (Server.message parsed)].
  destruct (decide (Server.message parsed = EmptyString)) as [Hempty|Hmessage];
    [unfold Server.chat; by rewrite Hempty|].
  destruct (managerOf_wellFormed (Server.effectiveId env parsed) conversations Hwf)
    as (Hid & Hmax & Hcomplete).
  destruct (chat_outcome env conversations parsed pipeline Hmessage Hpipeline)
    as [(msg & ->)|(result & cache & -> & _)]; simpl.
  - by apply map_Forall_insert_2.
  - apply map_Forall_insert_2; [|done]. simpl.
    rewrite addExchange_conversationId, addExchange_maxMessages.
    repeat split; [done..|]. by apply addExchange_completeExchanges.
Qed.

Lemma handle_wellFormed (conversations : ConversationStore.t) (request : Endpoints.Request) :
  wellFormed conversations -> wellFormed (Endpoints.handle conversations request).
Proof.
  intros Hwf. destruct request as [env parsed|id|id]; simpl.
  - by apply chat_wellFormed.
  - by rewrite chatHistory_store.
  - rewrite deleteConversation_store. by apply map_Forall_delete.
Qed.

Lemma run_wellFormed (requests : list Endpoints.Request) (conversations : ConversationStore.t) :
  wellFormed conversations -> wellFormed (Endpoints.run requests conversations).
Proof.
  unfold Endpoints.run. revert conversations.
  induction requests as [|request requests IH]; intros conversations Hwf; simpl; [done|].
  by apply IH, handle_wellFormed.
Qed.

End StoreInvariant.

(** X13.  For every run of chat, history and delete requests on a server
    that starts without conversations: every conversation in the store is
    filed under its own id and holds complete exchanges only, a user message
    followed by the assistant's reply, at most five of them (10 messages). *)
Theorem server_keeps_complete_exchanges :
  forall (requests : list Endpoints.Request) (id : string) (manager : ConversationStore.Manager),
    Endpoints.run requests ∅ !! id = Some manager ->
    ChatMemory.conversationId manager = id
    /\ exists exchanges,
        ChatMemory.getMessages manager = ChatMemory.transcript exchanges
        /\ length exchanges <= 5
        /\ ChatMemory.getMessageCount manager = 2 * length exchanges.
Proof.
  intros requests id manager Hlookup.
  assert (Hwf : wellFormed (Endpoints.run requests ∅)) by apply run_wellFormed, map_Forall_empty.
  destruct (Hwf id manager Hlookup) as (Hid & _ & exchanges & Hhistory & Hlen).
  split; [done|]. exists exchanges. unfold ChatMemory.getMessageCount, ChatMemory.getMessages.
  rewrite Hhistory. repeat split; [done|apply transcript_length].
Qed.
Lemma server_keeps_complete_exchanges_witness :
  exists manager,
    Endpoints.run
      [Endpoints.PostChat Sample.environment (Server.mkQuery "Find Selenium testers" None)] ∅
    !! "conv_1_abc" = Some manager
    /\ ChatMemory.conversationId manager = "conv_1_abc"
    /\ exists exchanges,
        ChatMemory.getMessages manager = ChatMemory.transcript exchanges
        /\ length exchanges <= 5
        /\ ChatMemory.getMessageCount manager = 2 * length exchanges.
Proof.
  destruct (Endpoints.run
              [Endpoints.PostChat Sample.environment (Server.mkQuery "Find Selenium testers" None)] ∅
            !! "conv_1_abc") as [manager|] eqn:Hlookup; [|by vm_compute in Hlookup].
  exists manager. split; [reflexivity|].
  exact (server_keeps_complete_exchanges _ _ _ Hlookup).
Defined.

Section ChatCompositions.
Import Server.

Lemma effectiveId_nonempty (env : Environment) (parsed : ConversationalQuery) :
  generatedId env <> EmptyString -> effectiveId env parsed <> EmptyString.
Proof.
  intros Hgenerated. unfold effectiveId, isNewConversation.
  by destruct (conversationId parsed) as [[|c id]|].
Qed.

Lemma chat_Ok_ready (env : Environment) (conversations : ConversationStore.t)
    (parsed : ConversationalQuery) (result : ConversationalQueryResult) :
  (chat env conversations parsed).2 = Ok result ->
  message parsed <> EmptyString /\ is_Some (retrievalPipeline env).
Proof.
  unfold chat. destruct (message parsed); [done|].
  destruct (retrievalPipeline env); [|done]. intros _. split; [done|by eexists].
Qed.

(** A conversation the store does not hold is served by a retrieval. *)
Lemma chat_unknown_conversation (env : Environment) (conversations : ConversationStore.t)
    (parsed : ConversationalQuery) (result : ConversationalQueryResult) :
  conversations !! effectiveId env parsed = None ->
  (chat env conversations parsed).2 = Ok result ->
  searchType result = hybrid
  /\ messageCount result = 2
  /\ result_conversationId result = effectiveId env parsed
  /\ exists manager,
      (chat env conversations parsed).1 !! effectiveId env parsed = Some manager
      /\ ChatMemory.getMessages manager
         = [ChatMemory.mkMessage ChatMemory.HumanMessage (message parsed);
            ChatMemory.mkMessage ChatMemory.AIMessage (response result)].
Proof.
  intros Hunknown Hok.
  destruct (chat_Ok_ready _ _ _ _ Hok) as [Hmessage [pipeline Hpipeline]].
  destruct (chat_outcome env conversations parsed pipeline Hmessage Hpipeline)
    as [(msg & Hchat)|(result' & cache & Hchat & Hid & Hcount & Hpath)];
    rewrite Hchat in Hok |- *; simpl in Hok; [done|].
  injection Hok as ->. unfold managerOf in *. rewrite Hunknown in *.
  split; [by rewrite Hpath|]. split; [by rewrite Hcount|]. split; [done|].
  eexists. split; [apply lookup_insert_eq|done].
Qed.

End ChatCompositions.

(** X14.  For every chat request that is answered, on a server that started
    without conversations and served any run of requests since: the history
    endpoint, asked for the conversation id of the answer, then reports the
    message count of the answer, at most 10, and a history that ends with the
    user's message and the assistant's response. *)
Theorem chat_then_history :
  forall (requests : list Endpoints.Request) (env : Server.Environment)
         (parsed : Server.ConversationalQuery) (result : Server.ConversationalQueryResult),
    Server.generatedId env <> EmptyString ->
    (Server.chat env (Endpoints.run requests ∅) parsed).2 = Ok result ->
    exists history earlier,
      (Endpoints.chatHistory (Server.chat env (Endpoints.run requests ∅) parsed).1
         (Server.result_conversationId result)).2 = Endpoints.Sent history
      /\ Endpoints.messageCount history = Server.messageCount result
      /\ Endpoints.messageCount history <= 10
      /\ Endpoints.messages history
         = earlier ++ [Endpoints.mkChatMessage Endpoints.user (Server.message parsed);
                       Endpoints.mkChatMessage Endpoints.assistant (Server.response result)].
Proof.
  intros requests env parsed result Hgenerated Hok.
  set (conversations := Endpoints.run requests ∅) in *.
  assert (Hwf : wellFormed conversations) by apply run_wellFormed, map_Forall_empty.
  destruct (chat_Ok_ready _ _ _ _ Hok) as [Hmessage [pipeline Hpipeline]].
  destruct (managerOf_wellFormed (Server.effectiveId env parsed) conversations Hwf)
    as (_ & Hmax & Hcomplete).
  destruct (chat_outcome env conversations parsed pipeline Hmessage Hpipeline)
    as [(msg & Hchat)|(result' & cache & Hchat & Hid & Hcount & _)];
    rewrite Hchat in Hok |- *; simpl in Hok; [done|].
  injection Hok as ->. simpl. rewrite Hid.
  destruct (addExchange_transcript (Server.message parsed) (Server.response result) _ Hmax Hcomplete)
    as (exchanges & Hhistory & Hlen).
  eexists _, (map Endpoints.toChatMessage (ChatMemory.transcript exchanges)).
  rewrite (chatHistory_known _ _ _ (effectiveId_nonempty env parsed Hgenerated)
             (lookup_insert_eq _ _ _)).
  split; [reflexivity|]. cbn [Endpoints.messageCount Endpoints.messages].
  cbn [ChatMemory.setLastSearchResults ChatMemory.chatHistory].
  rewrite Hcount, Hhistory. split; [done|]. split.
  - rewrite transcript_length, length_app. simpl. lia.
  - by rewrite <- transcript_snoc, map_app.
Qed.

Lemma chat_then_history_witness :
  exists result history earlier,
    (Server.chat Sample.environment (Endpoints.run [] ∅)
       (Server.mkQuery "Find Selenium testers" None)).2 = Ok result
    /\ (Endpoints.chatHistory
          (Server.chat Sample.environment (Endpoints.run [] ∅)
             (Server.mkQuery "Find Selenium testers" None)).1
          (Server.result_conversationId result)).2 = Endpoints.Sent history
    /\ Endpoints.messageCount history = Server.messageCount result
    /\ Endpoints.messageCount history <= 10
    /\ Endpoints.messages history
       = earlier ++ [Endpoints.mkChatMessage Endpoints.user "Find Selenium testers";
                     Endpoints.mkChatMessage Endpoints.assistant (Server.response result)].
Proof.
  destruct (Server.chat Sample.environment (Endpoints.run [] ∅)
              (Server.mkQuery "Find Selenium testers" None)).2 as [result|msg] eqn:Hok;
    [|by vm_compute in Hok].
  exists result.
  destruct (chat_then_history [] Sample.environment
              (Server.mkQuery "Find Selenium testers" None) result)
    as (history & earlier & Hhistory & Hcount & Hbound & Hlast).
  - discriminate.
  - exact Hok.
  - exists history, earlier. split; [reflexivity|]. by repeat split.
Defined.
(** X15.  For every chat request whose conversation the store does not hold
    (a new conversation, or an id that is unknown or was deleted) and that is
    answered: it was served by a retrieval, whatever the message asks for; the
    answer reports 2 messages, and the conversation then holds exactly the
    user's message and the assistant's response. *)
Theorem chat_unknown_conversation_retrieves :
  forall (env : Server.Environment) (conversations : ConversationStore.t)
         (parsed : Server.ConversationalQuery) (result : Server.ConversationalQueryResult),
    conversations !! Server.effectiveId env parsed = None ->
    (Server.chat env conversations parsed).2 = Ok result ->
    Server.searchType result = Server.hybrid
    /\ Server.messageCount result = 2
    /\ Server.result_conversationId result = Server.effectiveId env parsed
    /\ exists manager,
        (Server.chat env conversations parsed).1 !! Server.effectiveId env parsed = Some manager
        /\ ChatMemory.getMessages manager
           = [ChatMemory.mkMessage ChatMemory.HumanMessage (Server.message parsed);
              ChatMemory.mkMessage ChatMemory.AIMessage (Server.response result)].
Proof. apply chat_unknown_conversation. Qed.

Lemma chat_unknown_conversation_retrieves_witness :
  exists result,
    (Server.chat Sample.environment Sample.conversations
       (Server.mkQuery "show me only the Selenium testers" (Some "c2"))).2 = Ok result
    /\ Server.searchType result = Server.hybrid
    /\ Server.messageCount result = 2.
Proof.
  destruct (Server.chat Sample.environment Sample.conversations
              (Server.mkQuery "show me only the Selenium testers" (Some "c2"))).2
    as [result|msg] eqn:Hok; [|by vm_compute in Hok].
  exists result. split; [reflexivity|].
  destruct (chat_unknown_conversation_retrieves Sample.environment Sample.conversations
              (Server.mkQuery "show me only the Selenium testers" (Some "c2")) result)
    as (Hpath & Hcount & _).
  - reflexivity.
  - exact Hok.
  - by split.
Defined.

(** X16.  For every conversation store and every id: deleting an id the
    store does not hold answers 404 and leaves the store as it was; deleting
    one it holds answers success, removes that conversation and no other, and
    makes the count of conversations one less; afterwards the history
    endpoint answers 404 for the id, and a chat request that names the id and
    is answered was served by a retrieval and reports 2 messages. *)
Theorem deleteConversation_forgets :
  forall (conversations : ConversationStore.t) (id : string),
    (conversations !! id = None ->
     Endpoints.deleteConversation conversations id
     = (conversations, Endpoints.Refused 404 ("Conversation not found: " +:+ id)))
    /\ (is_Some (conversations !! id) ->
        (Endpoints.deleteConversation conversations id).2
        = Endpoints.Sent (Endpoints.mkDeleted true id "Conversation deleted successfully")
        /\ S (Endpoints.size (Endpoints.deleteConversation conversations id).1)
           = Endpoints.size conversations)
    /\ ConversationStore.has id (Endpoints.deleteConversation conversations id).1 = false
    /\ (forall other, other <> id ->
          (Endpoints.deleteConversation conversations id).1 !! other = conversations !! other)
    /\ (id <> EmptyString ->
        (Endpoints.chatHistory (Endpoints.deleteConversation conversations id).1 id).2
        = Endpoints.Refused 404 ("Conversation not found: " +:+ id))
    /\ (forall env message result,
          id <> EmptyString ->
          (Server.chat env (Endpoints.deleteConversation conversations id).1
             (Server.mkQuery message (Some id))).2 = Ok result ->
          Server.searchType result = Server.hybrid /\ Server.messageCount result = 2).
Proof.
  intros conversations id.
  assert (Hgone : (Endpoints.deleteConversation conversations id).1 !! id = None)
    by (rewrite deleteConversation_store; apply lookup_delete_eq).
  split; [|split; [|split; [|split; [|split]]]].
  - intros Hunknown. unfold Endpoints.deleteConversation, ConversationStore.delete_.
    assert (Hhas : ConversationStore.has id conversations = false) by by apply has_false.
    rewrite Hhas. simpl. by rewrite delete_id.
  - intros Hknown. unfold Endpoints.deleteConversation, ConversationStore.delete_.
    assert (Hhas : ConversationStore.has id conversations = true) by by apply has_true.
    rewrite Hhas. simpl. split; [done|].
    destruct Hknown as [manager Hlookup]. unfold Endpoints.size.
    rewrite <- (insert_delete_id conversations id manager Hlookup) at 2.
    rewrite map_size_insert_None; [done|apply lookup_delete_eq].
  - by apply has_false.
  - intros other Hne. rewrite deleteConversation_store. by apply lookup_delete_ne.
  - intros Hid. by apply chatHistory_unknown.
  - intros env message result Hid Hok.
    assert (Heffective : Server.effectiveId env (Server.mkQuery message (Some id)) = id).
    { unfold Server.effectiveId, Server.isNewConversation. simpl. by destruct id. }
    destruct (chat_unknown_conversation env (Endpoints.deleteConversation conversations id).1
                (Server.mkQuery message (Some id)) result) as (Hpath & Hcount & _);
      [by rewrite Heffective|done|by split].
Qed.

(** X17.  For every chat request that passes validation with the pipeline
    initialized, for a conversation the store does not hold, and that fails
    (the chat model cannot be built, or the retrieval or the reply chain
    throws): the conversation has been created all the same; it is empty, it
    counts as an active conversation, and the history endpoint answers for it
    with no messages. *)
Theorem failed_chat_leaves_empty_conversation :
  forall (env : Server.Environment) (conversations : ConversationStore.t)
         (parsed : Server.ConversationalQuery) (msg : string),
    Server.message parsed <> EmptyString ->
    is_Some (Server.retrievalPipeline env) ->
    Server.generatedId env <> EmptyString ->
    conversations !! Server.effectiveId env parsed = None ->
    (Server.chat env conversations parsed).2 = Throw msg ->
    (Server.chat env conversations parsed).1
    = <[Server.effectiveId env parsed := ChatMemory.new (Server.effectiveId env parsed) None]>
        conversations
    /\ Endpoints.size (Server.chat env conversations parsed).1 = S (Endpoints.size conversations)
    /\ (Endpoints.chatHistory (Server.chat env conversations parsed).1
          (Server.effectiveId env parsed)).2
       = Endpoints.Sent (Endpoints.mkHistory (Server.effectiveId env parsed) [] 0).
Proof.
  intros env conversations parsed msg Hmessage [pipeline Hpipeline] Hgenerated Hunknown Hthrow.
  destruct (chat_outcome env conversations parsed pipeline Hmessage Hpipeline)
    as [(msg' & Hchat)|(result & cache & Hchat & _)];
    rewrite Hchat in Hthrow |- *; simpl in Hthrow; [|done].
  unfold managerOf. rewrite Hunknown. simpl.
  split; [done|]. split.
  - unfold Endpoints.size. by rewrite map_size_insert_None.
  - by rewrite (chatHistory_known _ _ _ (effectiveId_nonempty env parsed Hgenerated)
                  (lookup_insert_eq _ _ _)).
Qed.

Lemma failed_chat_leaves_empty_conversation_witness :
  Endpoints.size
    (Server.chat Scenario.environmentDown Sample.conversations
       (Server.mkQuery "Find Selenium testers" None)).1 = 2
  /\ (Endpoints.chatHistory
        (Server.chat Scenario.environmentDown Sample.conversations
           (Server.mkQuery "Find Selenium testers" None)).1 "conv_2_xyz").2
     = Endpoints.Sent (Endpoints.mkHistory "conv_2_xyz" [] 0).
Proof.
  destruct (failed_chat_leaves_empty_conversation Scenario.environmentDown Sample.conversations
              (Server.mkQuery "Find Selenium testers" None)
              "Hybrid search failed: store unreachable")
    as (_ & Hsize & Hhistory).
  - discriminate.
  - by eexists.
  - discriminate.
  - reflexivity.
  - reflexivity.
  - split; [exact Hsize|exact Hhistory].
Defined.

(** X18.  For every chat request: the answer and the store afterwards do not
    depend on the follow-up detection of the chain manager; the server builds
    a new chain manager for each request, so there are never previous results
    for a follow-up to reuse. *)
Theorem chat_ignores_follow_up_detection :
  forall (env : Server.Environment) (isFollowUpQuery : string -> bool)
         (conversations : ConversationStore.t) (parsed : Server.ConversationalQuery),
    Server.chat
      (Server.mkEnvironment (Server.retrievalPipeline env) (Server.generatedId env)
         (Server.createChatModel env) (Server.filterModel env) (Server.chain env)
         isFollowUpQuery)
      conversations parsed
    = Server.chat env conversations parsed.
Proof.
  intros env isFollowUpQuery conversations parsed. unfold Server.chat.
  destruct (Server.message parsed); [done|]. cbn [Server.retrievalPipeline].
  destruct (Server.retrievalPipeline env) as [pipeline|]; [|done].
  unfold Server.effectiveId. cbn [Server.generatedId].
  destruct (ConversationStore.getOrCreate _ conversations) as [conversations' memory].
  cbn [Server.createChatModel]. destruct (Server.createChatModel env); [|done].
  destruct (Server.shouldUseFilter parsed memory); [done|].
  unfold ConversationalRAGChainManager.chat. by rewrite !andb_false_r.
Qed.

(** ** The chain manager across calls *)

(** X19.  For every call of the chain manager's chat that returns: the
    results it keeps for follow-ups are the results it returned and the
    exchange was saved to memory; a follow-up query on a manager that keeps
    results returns those results and leaves the kept query as it was; any
    other call returns what the pipeline answered for the input and keeps the
    input as the last query. *)
Theorem chain_chat_keeps_returned_results :
  forall (isFollowUpQuery : string -> bool) (chain : ConversationalRAGChainManager.Chain)
         (retrievalPipeline :
            string -> RetrievalPipeline.SearchType -> nat -> outcome (list SearchResultItem))
         (s s' : RAGChainState.t) (input : string) (searchType : RetrievalPipeline.SearchType)
         (topK : nat) (response : string) (results : list SearchResultItem),
    RAGChainState.chat isFollowUpQuery chain retrievalPipeline s input searchType topK
    = (s', Ok (response, results)) ->
    RAGChainState.getLastSearchResults s' = results
    /\ RAGChainState.memoryManager s'
       = ChatMemory.addExchange input response (RAGChainState.memoryManager s)
    /\ (isFollowUpQuery input = true -> RAGChainState.lastSearchResults s <> [] ->
        results = RAGChainState.lastSearchResults s
        /\ RAGChainState.lastQuery s' = RAGChainState.lastQuery s)
    /\ (isFollowUpQuery input = false \/ RAGChainState.lastSearchResults s = [] ->
        retrievalPipeline input searchType topK = Ok results
        /\ RAGChainState.lastQuery s' = input).
Proof.
  intros isFollowUpQuery chain retrievalPipeline s s' input searchType topK response results.
  unfold RAGChainState.chat, RAGChainState.answer, RAGChainState.getLastSearchResults.
  destruct (isFollowUpQuery input) eqn:Hfollow;
    destruct (RAGChainState.lastSearchResults s) as [|r rs] eqn:Hlast; simpl.
  1,3,4: destruct (retrievalPipeline input searchType topK) as [found|msg]; [|done];
    simpl; destruct (chain _ _ _) as [reply|msg]; [|done];
    intros [= <- <- <-]; simpl; repeat split; try done; try (match goal with H : _ \/ _ |- _ => by destruct H end).
  destruct (chain _ _ _) as [reply|msg]; [|done].
  intros [= <- <- <-]. simpl. repeat split; try done; try (match goal with H : _ \/ _ |- _ => by destruct H end).
Qed.

Lemma chain_chat_keeps_returned_results_witness :
  RAGChainState.getLastSearchResults
    (RAGChainState.chat (fun _ => true) (fun _ _ _ => Ok "These candidates match")
       (fun _ _ _ => Throw "down")
       (RAGChainState.mk (ChatMemory.new "c1" None) Sample.candidatesABC "QA engineers")
       "narrow down to Selenium" RetrievalPipeline.hybrid 10).1
  = Sample.candidatesABC.
Proof.
  exact (proj1 (chain_chat_keeps_returned_results (fun _ => true)
           (fun _ _ _ => Ok "These candidates match") (fun _ _ _ => Throw "down")
           (RAGChainState.mk (ChatMemory.new "c1" None) Sample.candidatesABC "QA engineers")
           (RAGChainState.chat (fun _ => true) (fun _ _ _ => Ok "These candidates match")
              (fun _ _ _ => Throw "down")
              (RAGChainState.mk (ChatMemory.new "c1" None) Sample.candidatesABC "QA engineers")
              "narrow down to Selenium" RetrievalPipeline.hybrid 10).1
           "narrow down to Selenium" RetrievalPipeline.hybrid 10 "These candidates match"
           Sample.candidatesABC eq_refl)).
Defined.

(** X20.  For every call of the chain manager's chat that throws: nothing
    was saved to memory; either the manager is as it was, or the pipeline had
    answered and its results and the input are kept for follow-ups although
    the call failed.  After clear() the manager keeps no results, so the next
    call fails whenever the pipeline fails, follow-up or not. *)
Theorem chain_chat_failure :
  forall (isFollowUpQuery : string -> bool) (chain : ConversationalRAGChainManager.Chain)
         (retrievalPipeline :
            string -> RetrievalPipeline.SearchType -> nat -> outcome (list SearchResultItem))
         (s : RAGChainState.t) (input : string) (searchType : RetrievalPipeline.SearchType)
         (topK : nat),
    (forall s' msg,
        RAGChainState.chat isFollowUpQuery chain retrievalPipeline s input searchType topK
        = (s', Throw msg) ->
        RAGChainState.memoryManager s' = RAGChainState.memoryManager s
        /\ (s' = s
            \/ exists results,
                retrievalPipeline input searchType topK = Ok results
                /\ RAGChainState.lastSearchResults s' = results
                /\ RAGChainState.lastQuery s' = input))
    /\ (forall msg,
          retrievalPipeline input searchType topK = Throw msg ->
          RAGChainState.chat isFollowUpQuery chain retrievalPipeline (RAGChainState.clear s)
            input searchType topK
          = (RAGChainState.clear s, Throw msg)).
Proof.
  intros isFollowUpQuery chain retrievalPipeline s input searchType topK. split.
  - intros s' msg. unfold RAGChainState.chat, RAGChainState.answer.
    destruct (isFollowUpQuery input && (0 <? length (RAGChainState.lastSearchResults s))%nat).
    + destruct (chain _ _ _) as [reply|msg']; [done|]. intros [= <- <-]. split; [done|by left].
    + destruct (retrievalPipeline input searchType topK) as [found|msg'];
        [|intros [= <- <-]; split; [done|by left]].
      simpl. destruct (chain _ _ _) as [reply|msg'']; [done|].
      intros [= <- <-]. split; [done|]. right. by exists found.
  - intros msg Hdown. unfold RAGChainState.chat. simpl.
    by rewrite andb_false_r, Hdown.
Qed.

(** ** Content snippets *)

Section Snippets.

Lemma length_append (a b : string) :
  String.length (a +:+ b) = String.length a + String.length b.
Proof. induction a as [|c a IH]; simpl; [done|]. by rewrite IH. Qed.

Lemma length_substring (n m : nat) (s : string) :
  String.length (String.substring n m s) <= m.
Proof.
  revert n m. induction s as [|c s IH]; intros [|n] [|m]; simpl; try lia.
  - specialize (IH 0 m). lia.
  - apply (IH n 0).
  - apply (IH n (S m)).
Qed.

Lemma length_trimStart (s : string) : String.length (JS.trimStart s) <= String.length s.
Proof.
  induction s as [|c s IH]; simpl; [done|]. destruct (JS.isWhiteSpace c); simpl; lia.
Qed.

Lemma length_trimEnd (s : string) : String.length (JS.trimEnd s) <= String.length s.
Proof.
  induction s as [|c s IH]; simpl; [done|].
  destruct (JS.trimEnd s); [destruct (JS.isWhiteSpace c)|]; simpl in *; lia.
Qed.

Lemma length_trim (s : string) : String.length (JS.trim s) <= String.length s.
Proof.
  unfold JS.trim. etrans; [apply length_trimEnd|apply length_trimStart].
Qed.

Lemma keyword_snippet_length (content : string) (keywords : list string) (maxLength : nat) :
  String.length (KeywordSearchEngine.extractSnippet content keywords maxLength) <= maxLength + 6.
Proof.
  unfold KeywordSearchEngine.extractSnippet.
  destruct content as [|c content]; [simpl; lia|].
  set (text := String c content).
  destruct (KeywordSearchEngine.firstPosition _ _) as [position|].
  - etrans; [apply length_trim|].
    set (start := Nat.max 0 (position - 50)).
    set (end_ := Nat.min (String.length text) (position + maxLength - 50)).
    pose proof (length_substring start (end_ - start) text) as Hsub.
    assert (Hwindow : end_ - start <= maxLength) by (subst start end_; lia).
    unfold JS.substring.
    destruct (0 <? start)%nat, (end_ <? String.length text)%nat;
      rewrite ?length_append; change (String.length "...") with 3; lia.
  - rewrite length_append. unfold JS.substring.
    pose proof (length_substring 0 (maxLength - 0) text).
    change (String.length "...") with 3. lia.
Qed.

Lemma vector_snippet_length (content : string) (maxLength : nat) :
  String.length (VectorSearchEngine.extractSnippet content maxLength) <= maxLength + 3.
Proof.
  unfold VectorSearchEngine.extractSnippet.
  destruct content as [|c content]; [simpl; lia|].
  set (text := String c content).
  rewrite length_append.
  pose proof (length_trim (JS.substring 0 maxLength text)) as Htrim.
  pose proof (length_substring 0 (maxLength - 0) text) as Hsub. unfold JS.substring in *.
  destruct (maxLength <? String.length text)%nat;
    [change (String.length "...") with 3|change (String.length "") with 0]; lia.
Qed.

Variable P : SearchResultItem -> Prop.
Hypothesis P_content : forall a b, content a = content b -> P a -> P b.

Lemma merge_content (config : HybridSearchEngine.HybridSearchConfig)
    (vectorResults keywordResults : list SearchResultItem) :
  Forall P vectorResults -> Forall P keywordResults ->
  Forall P (HybridSearchEngine.mergeResults config vectorResults keywordResults).
Proof.
  intros Hv Hk. unfold HybridSearchEngine.mergeResults, JS.Map_values.
  apply Forall_fmap.
  assert (Hvector : forall m : JS.Map SearchResultItem,
            Forall (fun entry => P entry.2) m ->
            Forall (fun entry => P entry.2)
              (foldl (HybridSearchEngine.addVector config) m vectorResults)).
  { induction Hv as [|v vs Hpv _ IH]; intros m Hm; simpl; [done|].
    apply IH. apply Forall_forall. intros [key e] Hin.
    unfold HybridSearchEngine.addVector in Hin.
    apply Map_set_elem in Hin as [[-> ->] | Hin].
    - by apply (P_content v).
    - rewrite Forall_forall in Hm. by apply (Hm (key, e)). }
  specialize (Hvector [] (Forall_nil_2 _)).
  revert Hvector. generalize (foldl (HybridSearchEngine.addVector config) [] vectorResults) as m.
  induction Hk as [|k ks Hpk _ IH]; intros m Hm; simpl; [done|].
  apply IH. apply Forall_forall. intros [key e] Hin.
  assert (Hold : forall key' e', (key', e') ∈ m -> P e').
  { intros key' e' Hin'. rewrite Forall_forall in Hm. by apply (Hm (key', e')). }
  unfold HybridSearchEngine.addKeyword in Hin.
  destruct (JS.Map_get (name k) m) as [existing|] eqn:Hget;
    apply Map_set_elem in Hin as [[-> ->] | Hin]; simpl; try by eapply Hold.
  - apply Map_get_elem, Hold in Hget.
    destruct (String.length (content existing) <? String.length (content k))%nat;
      [by apply (P_content k)|by apply (P_content existing)].
  - by apply (P_content k).
Qed.

Lemma rerank_content (model : LLMReranker.Model) (query : string)
    (candidates : list SearchResultItem) :
  Forall P candidates ->
  Forall P (LLMReranker.results (LLMReranker.rerankAndFilter model query candidates)).
Proof.
  intros Hcandidates.
  destruct (reply_failed_or_answered LLMReranker.LLMRerankResponseSchema (model query candidates))
    as [Hfailed|[parsed Hanswered]].
  - by destruct (rerankAndFilter_failed model query candidates Hfailed) as [-> _].
  - destruct candidates as [|c cs]; [done|].
    rewrite (rerankAndFilter_answered model query (c :: cs) parsed) by done.
    cbn [LLMReranker.results].
    apply Forall_forall. intros r (v & _ & Hone)%sort_elem%list_elem_of_omap.
    apply rerankOne_Some in Hone as (_ & original & Hfind & ->).
    apply find_elem in Hfind as [Hin _]. rewrite Forall_forall in Hcandidates.
    by apply (P_content original), Hcandidates.
Qed.

Lemma pipeline_content (p : RetrievalPipeline.t) (query : string)
    (searchType : RetrievalPipeline.SearchType) (topK : nat) (results : list SearchResultItem) :
  (forall n retrieved, retrieve p searchType query n = Ok retrieved -> Forall P retrieved) ->
  RetrievalPipeline.search p query searchType topK = Ok results ->
  Forall P results.
Proof.
  intros Hengine. unfold RetrievalPipeline.search.
  replace (match searchType with
           | RetrievalPipeline.keyword => RetrievalPipeline.keywordEngine p query _
           | RetrievalPipeline.vector => RetrievalPipeline.vectorEngine p query _
           | RetrievalPipeline.hybrid => RetrievalPipeline.hybridEngine p query _
           end)
    with (retrieve p searchType query
            (if RetrievalPipeline.enabled p then RetrievalPipeline.retrievalTopK p else topK))
    by by destruct searchType.
  destruct (retrieve p searchType query _) as [retrieved|msg] eqn:Hretrieve; [|done].
  apply Hengine in Hretrieve. cbn [outcome_bind]. intros [= <-].
  assert (Hattach : forall matches xs, Forall P xs ->
            Forall P (map (RetrievalPipeline.attach matches) xs)).
  { intros matches xs Hxs. apply Forall_fmap. eapply Forall_impl; [exact Hxs|].
    intros x Hx. unfold compose, RetrievalPipeline.attach.
    destruct (JS.find _ matches); [|done]. by apply (P_content x). }
  destruct (RetrievalPipeline.llmReranker p) as [model|]; simpl.
  - destruct (RetrievalPipeline.enabled p && (0 <? length retrieved)%nat); simpl.
    + apply Hattach. unfold JS.slice0. by apply Forall_take, rerank_content.
    + unfold JS.slice0. by apply Forall_take.
  - unfold JS.slice0. by apply Forall_take.
Qed.

End Snippets.

Lemma engine_snippets (p : RetrievalPipeline.t) (query : string)
    (searchType : RetrievalPipeline.SearchType) (n : nat) (retrieved : list SearchResultItem) :
  retrieve p searchType query n = Ok retrieved -> Forall (snippetWithin 206) retrieved.
Proof.
  assert (Hcontent : forall a b, content a = content b -> snippetWithin 206 a -> snippetWithin 206 b).
  { unfold snippetWithin. by intros a b ->. }
  assert (Hkeyword : forall k results,
            RetrievalPipeline.keywordEngine p query k = Ok results ->
            Forall (snippetWithin 206) results).
  { intros k results (searchRegex & documents & _ & _ & ->)%search_Ok.
    unfold JS.slice0. apply Forall_take.
    apply Forall_forall. intros r (doc & -> & _)%sort_elem%list_elem_of_fmap.
    apply (keyword_snippet_length _ _ 200). }
  assert (Hvector : forall k results,
            RetrievalPipeline.vectorEngine p query k = Ok results ->
            Forall (snippetWithin 206) results).
  { intros k results. unfold RetrievalPipeline.vectorEngine, VectorSearchEngine.search.
    destruct (RetrievalPipeline.vectorStore _ query k) as [hits|msg]; [|done].
    intros [= <-]. apply Forall_fmap, Forall_forall. intros [doc s] _.
    unfold compose, snippetWithin. simpl.
    pose proof (vector_snippet_length (VectorSearchEngine.pageContent doc) 200). lia. }
  destruct searchType; simpl; [apply Hkeyword|apply Hvector|].
  intros (vectorResults & keywordResults & Hv & Hk & ->)%hybrid_results.
  unfold JS.slice0. apply Forall_take.
  apply Forall_forall. intros r Hr%sort_elem. revert r Hr. apply Forall_forall.
  apply merge_content; [done|by eapply Hvector|by eapply Hkeyword].
Qed.

(** X21.  For every content and every list of keywords, the snippet of the
    keyword engine is at most maxLength + 6 characters long and the snippet
    of the vector engine at most maxLength + 3; and every result of every
    pipeline search, of whatever type and with or without re-ranking, carries
    a content of at most 206 characters. *)
Theorem snippets_bounded :
  (forall content keywords maxLength,
      String.length (KeywordSearchEngine.extractSnippet content keywords maxLength)
      <= maxLength + 6)
  /\ (forall content maxLength,
        String.length (VectorSearchEngine.extractSnippet content maxLength) <= maxLength + 3)
  /\ (forall p query searchType topK results,
        RetrievalPipeline.search p query searchType topK = Ok results ->
        Forall (snippetWithin 206) results).
Proof.
  split; [apply keyword_snippet_length|]. split; [apply vector_snippet_length|].
  intros p query searchType topK results.
  apply pipeline_content.
  - unfold snippetWithin. by intros a b ->.
  - intros n retrieved. apply engine_snippets.
Qed.
(** ** Lists that the chat model writes as one string *)

Section StringLists.






End StringLists.


(** ** A query without a word *)

Section BlankQuery.
Import KeywordSearchEngine.

Lemma searchNode_Empty (s : list ascii) : RegExp.searchNode RegExp.Empty s = true.
Proof. by destruct s. Qed.

Lemma insertSorted_tie (x : SearchResultItem) (xs : list SearchResultItem) :
  Forall (fun y => score y = score x) xs -> JS.insertSorted byScoreDesc x xs = x :: xs.
Proof.
  intros Hxs. destruct Hxs as [|y ys Hy _]; [done|]. simpl.
  assert (Hcmp : (byScoreDesc x y ?= 0)%Q = Eq).
  { apply Qeq_alt. unfold byScoreDesc. rewrite Hy. ring. }
  by rewrite Hcmp.
Qed.

Lemma sort_ties (s : Q) (xs : list SearchResultItem) :
  Forall (fun x => score x = s) xs -> JS.sort byScoreDesc xs = xs.
Proof.
  unfold JS.sort. induction 1 as [|x xs Hx Hxs IH]; [done|]. simpl. rewrite IH.
  apply insertSorted_tie. eapply Forall_impl; [exact Hxs|]. intros y ->. done.
Qed.

End BlankQuery.

(** X23.  For every query made of white space only: the search expression is
    the empty pattern, which every field matches; every document the
    collection returns gets the score 1/3, and the keyword search returns the
    first k of them in the order of the collection. *)
Theorem blank_query_matches_everything :
  forall (collection : KeywordSearchEngine.Collection) (query : string) (topK : nat),
    JS.trim query = EmptyString ->
    exists searchRegex,
      RegExp.ofFragment (JS.join "|" (KeywordSearchEngine.keywordsOf query)) = Ok searchRegex
      /\ (forall field, RegExp.matchLength searchRegex field = 1)
      /\ (forall doc, (KeywordSearchEngine.normalizedScore searchRegex doc == 1 # 3)%Q)
      /\ KeywordSearchEngine.search RegExp.ofFragment collection query topK
         = match collection searchRegex (topK * 2) with
           | Ok documents =>
               Ok (take topK
                     (map (KeywordSearchEngine.toResult searchRegex [EmptyString]) documents))
           | Throw msg => Throw ("Keyword search failed: " +:+ msg)
           end.
Proof.
  intros collection query topK Hblank.
  assert (Hkeywords : KeywordSearchEngine.keywordsOf query = [EmptyString])
    by (unfold KeywordSearchEngine.keywordsOf; by rewrite Hblank).
  exists (RegExp.mk (fun s => RegExp.searchNode RegExp.Empty (list_ascii_of_string s)) 0).
  set (searchRegex := RegExp.mk _ 0).
  assert (Hmatch : forall field, RegExp.matchLength searchRegex field = 1).
  { intros field. unfold RegExp.matchLength. simpl. by rewrite searchNode_Empty. }
  assert (Hscore : forall doc,
            KeywordSearchEngine.normalizedScore searchRegex doc
            = Qmin ((KeywordSearchEngine.ofCount 1 * 1 + KeywordSearchEngine.ofCount 1 * 2
                     + KeywordSearchEngine.ofCount 1 * (3 # 2)
                     + KeywordSearchEngine.ofCount 1 * 3
                     + KeywordSearchEngine.ofCount 1 * (5 # 2)) / 30) 1).
  { intros doc. unfold KeywordSearchEngine.normalizedScore, KeywordSearchEngine.totalScore.
    by rewrite !Hmatch. }
  rewrite Hkeywords. split; [reflexivity|]. split; [done|]. split.
  - intros doc. rewrite Hscore. reflexivity.
  - unfold KeywordSearchEngine.search. rewrite Hkeywords.
    change (RegExp.ofFragment (JS.join "|" [EmptyString])) with (Ok searchRegex).
    cbn [outcome_bind]. destruct (collection searchRegex (topK * 2)) as [documents|msg]; [|done].
    cbn [outcome_bind rethrow]. unfold JS.slice0. do 2 f_equal.
    eapply sort_ties. apply Forall_fmap, Forall_forall. intros doc _.
    unfold compose. simpl. apply Hscore.
Qed.

Lemma blank_query_matches_everything_witness :
  exists searchRegex,
    RegExp.ofFragment (JS.join "|" (KeywordSearchEngine.keywordsOf "   ")) = Ok searchRegex
    /\ (KeywordSearchEngine.normalizedScore searchRegex Sample.resumeC == 1 # 3)%Q.
Proof.
  destruct (blank_query_matches_everything (fun _ _ => Ok [Sample.resumeA; Sample.resumeC]) "   " 2)
    as (searchRegex & Hregex & _ & Hscore & _).
  - reflexivity.
  - exists searchRegex. split; [exact Hregex|apply Hscore].
Defined.

(** ** The results of a chat answer *)

Section ChatAnswer.
Import Server.

(** What an answer holds, and what is cached afterwards. *)
Lemma chat_answer (env : Environment) (conversations : ConversationStore.t)
    (parsed : ConversationalQuery) (result : ConversationalQueryResult) :
  (chat env conversations parsed).2 = Ok result ->
  resultCount result = length (searchResults result)
  /\ exists pipeline manager,
      retrievalPipeline env = Some pipeline
      /\ (chat env conversations parsed).1 = <[effectiveId env parsed := manager]> conversations
      /\ ((sublist (searchResults result)
             (ChatMemory.lastSearchResults (managerOf (effectiveId env parsed) conversations))
           /\ ChatMemory.lastSearchResults manager
              = ChatMemory.lastSearchResults (managerOf (effectiveId env parsed) conversations))
          \/ (exists results,
                 pipeline (message parsed) RetrievalPipeline.hybrid 10 = Ok results
                 /\ searchResults result = map structured results
                 /\ ChatMemory.lastSearchResults manager = map structured results)).
Proof.
  intros Hok. destruct (chat_Ok_ready _ _ _ _ Hok) as [Hmessage [pipeline Hpipeline]].
  rewrite (chat_unfold env conversations parsed pipeline Hmessage Hpipeline) in Hok |- *.
  set (cid := effectiveId env parsed) in *. set (m := managerOf cid conversations) in *.
  destruct (createChatModel env) as [[]|msg]; [|done].
  destruct (shouldUseFilter parsed m).
  - pose proof (filterResults_sublist (filterModel env) (message parsed)
                  (ChatMemory.getLastSearchResults m)) as Hsub.
    destruct (ConversationalFilter.filterResults _ _ _) as [filtered summary].
    cbn zeta in *. cbn [fst snd] in *. injection Hok as <-. cbn.
    split; [done|]. exists pipeline. eexists. split; [done|]. split; [reflexivity|].
    left. split; [exact Hsub|apply addExchange_lastSearchResults].
  - destruct (pipeline (message parsed) RetrievalPipeline.hybrid 10) as [results|msg] eqn:Hsearch;
      [|done].
    destruct (chain env (message parsed) (ChatMemory.getMessages m) results) as [reply|msg];
      [|done].
    cbn zeta in *. cbn [fst snd] in *. injection Hok as <-. cbn.
    split; [by rewrite length_map|].
    exists pipeline. eexists. split; [done|]. split; [reflexivity|].
    right. by exists results.
Qed.

Lemma managerOf_cacheWithin (n : nat) (id : string) (conversations : ConversationStore.t) :
  cacheWithin n conversations ->
  length (ChatMemory.lastSearchResults (managerOf id conversations)) <= n.
Proof.
  intros Hcache. unfold managerOf.
  destruct (conversations !! id) as [m|] eqn:Hlookup; simpl; [|lia].
  by apply (Hcache id m).
Qed.

Lemma chat_cacheWithin (env : Environment) (conversations : ConversationStore.t)
    (parsed : ConversationalQuery) :
  meetsPipeline env -> cacheWithin 10 conversations ->
  cacheWithin 10 (chat env conversations parsed).1.
Proof.
  intros Hmeets Hcache.
  destruct (chat env conversations parsed).2 as [result|msg] eqn:Hreply.
  - destruct (chat_answer env conversations parsed result Hreply)
      as (_ & pipeline & manager & Hpipeline & -> & Hcases).
    apply map_Forall_insert_2; [|done].
    destruct Hcases as [[_ ->] | (results & Hsearch & _ & ->)].
    + by apply managerOf_cacheWithin.
    + unfold meetsPipeline in Hmeets. rewrite Hpipeline in Hmeets. destruct Hmeets as [p ->].
      rewrite length_map. by apply pipeline_search_length in Hsearch.
  - destruct (retrievalPipeline env) as [pipeline|] eqn:Hpipeline;
      [|unfold chat; rewrite Hpipeline; by destruct (message parsed)].
    destruct (decide (message parsed = EmptyString)) as [Hempty|Hmessage];
      [unfold chat; by rewrite Hempty|].
    destruct (chat_outcome env conversations parsed pipeline Hmessage Hpipeline)
      as [(msg' & Hchat)|(result & cache & Hchat & _)]; rewrite Hchat in Hreply |- *;
      [|done].
    simpl. apply map_Forall_insert_2; [|done]. by apply managerOf_cacheWithin.
Qed.

Lemma run_cacheWithin (requests : list Endpoints.Request) (conversations : ConversationStore.t) :
  Forall servedByPipeline requests -> cacheWithin 10 conversations ->
  cacheWithin 10 (Endpoints.run requests conversations).
Proof.
  unfold Endpoints.run. intros Hserved. revert conversations.
  induction Hserved as [|request requests Hrequest _ IH]; intros conversations Hcache; simpl;
    [done|].
  apply IH. destruct request as [env parsed|id|id]; simpl.
  - by apply chat_cacheWithin.
  - by rewrite chatHistory_store.
  - rewrite deleteConversation_store. by apply map_Forall_delete.
Qed.

End ChatAnswer.

(** X24.  For every chat request that is answered, on a server that started
    without conversations and whose chat requests were all served by a
    retrieval pipeline of this program: resultCount is the number of results
    in the answer, and it is at most 10, on the retrieval path as on the
    filter path. *)
Theorem chat_answers_at_most_ten :
  forall (requests : list Endpoints.Request) (env : Server.Environment)
         (parsed : Server.ConversationalQuery) (result : Server.ConversationalQueryResult),
    Forall servedByPipeline requests ->
    meetsPipeline env ->
    (Server.chat env (Endpoints.run requests ∅) parsed).2 = Ok result ->
    Server.resultCount result = length (Server.searchResults result)
    /\ Server.resultCount result <= 10.
Proof.
  intros requests env parsed result Hserved Hmeets Hreply.
  assert (Hcache : cacheWithin 10 (Endpoints.run requests ∅))
    by (apply run_cacheWithin; [done|apply map_Forall_empty]).
  destruct (chat_answer env _ parsed result Hreply)
    as (Hcount & pipeline & manager & Hpipeline & _ & Hcases).
  split; [done|]. rewrite Hcount.
  destruct Hcases as [[Hsub _] | (results & Hsearch & -> & _)].
  - etrans; [apply sublist_length, Hsub|]. by apply managerOf_cacheWithin.
  - unfold meetsPipeline in Hmeets. rewrite Hpipeline in Hmeets. destruct Hmeets as [p ->].
    rewrite length_map. by apply pipeline_search_length in Hsearch.
Qed.

Lemma chat_answers_at_most_ten_witness :
  exists result,
    (Server.chat Sample.environment
       (Endpoints.run
          [Endpoints.PostChat Sample.environment (Server.mkQuery "Find Selenium testers" None)] ∅)
       (Server.mkQuery "only those with Java" (Some "conv_1_abc"))).2 = Ok result
    /\ Server.searchType result = Server.filter
    /\ Server.resultCount result = length (Server.searchResults result)
    /\ Server.resultCount result <= 10.
Proof.
  destruct (Server.chat Sample.environment
              (Endpoints.run
                 [Endpoints.PostChat Sample.environment
                    (Server.mkQuery "Find Selenium testers" None)] ∅)
              (Server.mkQuery "only those with Java" (Some "conv_1_abc"))).2
    as [result|msg] eqn:Hreply; [|by vm_compute in Hreply].
  exists result. split; [reflexivity|]. split.
  - vm_compute in Hreply. by injection Hreply as <-.
  - apply (chat_answers_at_most_ten
             [Endpoints.PostChat Sample.environment
                (Server.mkQuery "Find Selenium testers" None)]
             Sample.environment (Server.mkQuery "only those with Java" (Some "conv_1_abc"))).
    + apply Forall_cons_2; [|apply Forall_nil_2]. by exists Sample.pipeline.
    + by exists Sample.pipeline.
    + exact Hreply.
Defined.

(** ** Name, email and phone number of a result *)

Section Contacts.

Variable P : SearchResultItem -> Prop.
Hypothesis P_contact :
  forall a b, name a = name b -> email a = email b -> phoneNumber a = phoneNumber b -> P a -> P b.




End Contacts.




